(** * Verification of [scripts/validate.py]: the version-manifest validator

    The development embeds [validate_manifest], its helpers and [main] in
    Rocq and proves the properties of the natural-language specification
    about them, and further properties read off the code.

    The validator works on whatever [yaml.safe_load] returned, so the first
    part models the Python values it can meet and the Python operations the
    source applies to them, including the exceptions these raise on values
    of the wrong type. *)

From Stdlib Require Import List String Ascii ZArith Bool Lia Arith DecimalString.
Import ListNotations.
Open Scope string_scope.

Set Warnings "-register-all".

(** ** Python exceptions and results *)

(** The exceptions the operations below raise.  [ValueError] is the one of
    [str] on an integer with too many digits; the [ValueError] of
    [datetime.fromisoformat] is caught by [validate_iso8601] and is not an
    outcome. *)
Inductive exn : Type :=
| TypeError
| AttributeError
| KeyError
| IndexError
| ValueError.

Inductive result (A : Type) : Type :=
| Ok (a : A)
| Raise (e : exn).

Arguments Ok {A} a.
Arguments Raise {A} e.

Module Res.
Definition bind {A B} (r : result A) (k : A -> result B) : result B :=
  match r with
  | Ok a => k a
  | Raise e => Raise e
  end.
End Res.

Declare Scope res_scope.
Delimit Scope res_scope with res.
Notation "x <- r ;; k" := (Res.bind r (fun x => k))
  (at level 61, r at next level, right associativity) : res_scope.

(** ** Parsed YAML documents

    Mapping keys are hashable, so they are scalars.  A mapping is kept as an
    association list in insertion order, the order [keys()] and [items()]
    follow; a Python [dict] has pairwise distinct keys, which the theorems
    that depend on it assume explicitly.

    A [str] is kept as its UTF-8 encoding: a [string] is the sequence of
    bytes that encodes it (a lone surrogate, which a [str] can hold, as the
    three bytes of its code point).  Equality, concatenation, the substring test and
    the replacement of an ASCII character are those of the bytes, and the
    order of two strings by code point is the order of their encodings byte
    by byte.  The two places where the source goes character by character,
    the iteration over a string and the class [\d], look at how a character
    is encoded.  Floats, timestamps and binary scalars are not modelled. *)
Inductive scalar : Type :=
| SNone
| SBool (b : bool)
| SInt (z : Z)
| SStr (s : string).

Inductive value : Type :=
| VScalar (s : scalar)
| VList (l : list value)
| VDict (d : list (scalar * value)).

Abbreviation VNone := (VScalar SNone).
Abbreviation VStr s := (VScalar (SStr s)).
Abbreviation VInt z := (VScalar (SInt z)).
Abbreviation VBool b := (VScalar (SBool b)).

(** ** Characters in UTF-8 *)

(** Every character of [s] satisfies [p]. *)
Fixpoint all_chars (p : ascii -> bool) (s : string) : bool :=
  match s with
  | EmptyString => true
  | String c s' => p c && all_chars p s'
  end.

(** The bytes [10xxxxxx], which continue a character. *)
Definition is_continuation (c : ascii) : bool :=
  let n := nat_of_ascii c in ((128 <=? n) && (n <? 192))%nat.

(** How many continuation bytes follow [c] when [c] starts a character
    beyond ASCII. *)
Definition continuation_count (c : ascii) : option nat :=
  let n := nat_of_ascii c in
  if (n <? 194)%nat then None
  else if (n <? 224)%nat then Some 1%nat
  else if (n <? 240)%nat then Some 2%nat
  else if (n <? 245)%nat then Some 3%nat
  else None.

(** [s] is the encoding of one character beyond ASCII. *)
Definition is_wide_char (s : string) : bool :=
  match s with
  | EmptyString => false
  | String c rest =>
      match continuation_count c with
      | Some k => (String.length rest =? k)%nat && all_chars is_continuation rest
      | None => false
      end
  end.

Fixpoint continuation_prefix (s : string) : string :=
  match s with
  | EmptyString => EmptyString
  | String c s' =>
      if is_continuation c then String c (continuation_prefix s')
      else EmptyString
  end.

(** ** Python operations on these values *)

(** [bool(x)], as used by [not x]. *)
Definition truthy_scalar (s : scalar) : bool :=
  match s with
  | SNone => false
  | SBool b => b
  | SInt z => negb (Z.eqb z 0)
  | SStr s => negb (String.eqb s "")
  end.

Definition truthy (v : value) : bool :=
  match v with
  | VScalar s => truthy_scalar s
  | VList l => match l with [] => false | _ :: _ => true end
  | VDict d => match d with [] => false | _ :: _ => true end
  end.

(** [k == x] for a string [k]: only an equal string is equal to it. *)
Definition scalar_is_str (k : string) (s : scalar) : bool :=
  match s with
  | SStr s' => String.eqb k s'
  | _ => false
  end.

Definition value_is_str (k : string) (v : value) : bool :=
  match v with
  | VScalar s => scalar_is_str k s
  | _ => false
  end.

(** [needle in hay] for two strings: substring test. *)
Fixpoint is_substring (needle hay : string) : bool :=
  if String.prefix needle hay then true
  else match hay with
       | EmptyString => false
       | String _ hay' => is_substring needle hay'
       end.

(** [k in x] for a string [k]: key membership in a mapping, element
    membership in a sequence, substring test in a string; the other scalars
    are not iterable. *)
Definition py_contains (k : string) (x : value) : result bool :=
  match x with
  | VDict d => Ok (existsb (fun kv => scalar_is_str k (fst kv)) d)
  | VList l => Ok (existsb (value_is_str k) l)
  | VScalar (SStr s) => Ok (is_substring k s)
  | VScalar _ => Raise TypeError
  end.

Fixpoint dict_lookup (k : string) (d : list (scalar * value)) : option value :=
  match d with
  | [] => None
  | (k', v) :: d' => if scalar_is_str k k' then Some v else dict_lookup k d'
  end.

(** [x[k]] for a string [k]. *)
Definition py_getitem (x : value) (k : string) : result value :=
  match x with
  | VDict d => match dict_lookup k d with
               | Some v => Ok v
               | None => Raise KeyError
               end
  | _ => Raise TypeError
  end.

(** [x.get(k)] for a string [k]: only mappings have the method. *)
Definition py_get (x : value) (k : string) : result value :=
  match x with
  | VDict d => match dict_lookup k d with
               | Some v => Ok v
               | None => Ok VNone
               end
  | _ => Raise AttributeError
  end.

(** [x.keys()] and [x.items()]. *)
Definition py_keys (x : value) : result (list scalar) :=
  match x with
  | VDict d => Ok (map fst d)
  | _ => Raise AttributeError
  end.

Definition py_items (x : value) : result (list (scalar * value)) :=
  match x with
  | VDict d => Ok d
  | _ => Raise AttributeError
  end.

(** The elements a [for] loop over [x] visits: the elements of a sequence,
    the keys of a mapping, the characters of a string.  A byte that is not
    a continuation byte starts a character, which takes the continuation
    bytes after it. *)
Fixpoint chars_of (s : string) : list value :=
  match s with
  | EmptyString => []
  | String c s' =>
      if is_continuation c then chars_of s'
      else VStr (String c (continuation_prefix s')) :: chars_of s'
  end.

Definition py_iter (x : value) : result (list value) :=
  match x with
  | VList l => Ok l
  | VDict d => Ok (map (fun kv => VScalar (fst kv)) d)
  | VScalar (SStr s) => Ok (chars_of s)
  | VScalar _ => Raise TypeError
  end.

(** [l[i]] on a list built by the validator itself. *)
Definition list_index {A} (l : list A) (i : nat) : result A :=
  match nth_error l i with
  | Some a => Ok a
  | None => Raise IndexError
  end.

(** [x in S] for a set [S] of strings: the left operand is hashed first,
    which a list or a dict refuses. *)
Definition mem_string (s : string) (l : list string) : bool :=
  existsb (String.eqb s) l.

Definition py_in_set (x : value) (S : list string) : result bool :=
  match x with
  | VScalar (SStr s) => Ok (mem_string s S)
  | VScalar _ => Ok false
  | VList _ | VDict _ => Raise TypeError
  end.

(** [a <= b] on mapping keys: strings compare lexicographically by code
    point, which is the order of the bytes of their encodings; booleans and
    integers compare numerically; anything else is a [TypeError]. *)
Definition scalar_num (s : scalar) : option Z :=
  match s with
  | SBool b => Some (if b then 1 else 0)%Z
  | SInt z => Some z
  | _ => None
  end.

Definition py_le (a b : scalar) : result bool :=
  match a, b with
  | SStr x, SStr y => Ok (String.leb x y)
  | _, _ => match scalar_num a, scalar_num b with
            | Some x, Some y => Ok (Z.leb x y)
            | _, _ => Raise TypeError
            end
  end.

(** [s.replace(c, by)] for a one-character pattern [c] of ASCII. *)
Fixpoint str_replace (c : ascii) (by_ : string) (s : string) : string :=
  match s with
  | EmptyString => EmptyString
  | String x s' =>
      if Ascii.eqb x c then by_ ++ str_replace c by_ s'
      else String x (str_replace c by_ s')
  end.

(** [str(z)] for an integer.  CPython refuses to write an integer of more
    than [sys.get_int_max_str_digits()] decimal digits, 4300 unless the
    interpreter is configured otherwise, and raises [ValueError]; the sign
    does not count.  A YAML scalar in hexadecimal can be that long. *)
Definition int_max_str_digits : Z := 4300.

Definition int_str_allowed (z : Z) : bool :=
  (Z.abs z <? 10 ^ int_max_str_digits)%Z.

Definition py_str_int (z : Z) : result string :=
  if int_str_allowed z then Ok (NilZero.string_of_int (Z.to_int z))
  else Raise ValueError.

(** [str(x)] inside an f-string, for scalars. *)
Definition py_str_scalar (s : scalar) : result string :=
  match s with
  | SNone => Ok "None"
  | SBool true => Ok "True"
  | SBool false => Ok "False"
  | SInt z => py_str_int z
  | SStr s => Ok s
  end.

(** ** Regular expressions

    A small matcher by derivatives, enough for the two patterns of the
    source.  It reads the encoding byte by byte: [Class p] is one byte that
    satisfies [p], and [Lang q] is the set of the byte strings that satisfy
    [q], used for the characters of a class that take several bytes. *)
Inductive regex : Type :=
| Void
| Eps
| Class (p : ascii -> bool)
| Cat (r1 r2 : regex)
| Alt (r1 r2 : regex)
| Star (r : regex)
| Lang (q : string -> bool).

Fixpoint nullable (r : regex) : bool :=
  match r with
  | Void => false
  | Eps => true
  | Class _ => false
  | Cat r1 r2 => nullable r1 && nullable r2
  | Alt r1 r2 => nullable r1 || nullable r2
  | Star _ => true
  | Lang q => q ""
  end.

Fixpoint deriv (c : ascii) (r : regex) : regex :=
  match r with
  | Void => Void
  | Eps => Void
  | Class p => if p c then Eps else Void
  | Cat r1 r2 =>
      if nullable r1 then Alt (Cat (deriv c r1) r2) (deriv c r2)
      else Cat (deriv c r1) r2
  | Alt r1 r2 => Alt (deriv c r1) (deriv c r2)
  | Star r1 => Cat (deriv c r1) (Star r1)
  | Lang q => Lang (fun s => q (String c s))
  end.

Fixpoint accepts (r : regex) (s : string) : bool :=
  match s with
  | EmptyString => nullable r
  | String c s' => accepts (deriv c r) s'
  end.

(** [r+] and [r{n}]. *)
Definition Plus (r : regex) : regex := Cat r (Star r).

Fixpoint Repeat (n : nat) (r : regex) : regex :=
  match n with
  | O => Eps
  | S n' => Cat r (Repeat n' r)
  end.

Definition Chr (c : ascii) : regex := Class (Ascii.eqb c).

Definition newline : ascii := "010"%char.

(** [$] without [re.MULTILINE] matches at the end of the string and also
    just before a newline that is the last character. *)
Definition Dollar : regex := Alt Eps (Chr newline).

(** [re.match(r'^body$', s) is not None].  [re.match] already anchors at
    the start, and [$] fixes where the match ends. *)
Definition re_match_anchored (body : regex) (s : string) : bool :=
  accepts (Cat body Dollar) s.

(** The decimal digits of ASCII, [0] to [9]: one part of [\d], below. *)
Definition is_ascii_digit (c : ascii) : bool :=
  let n := nat_of_ascii c in ((48 <=? n) && (n <=? 57))%nat.

(** [\d] in a [str] pattern: a decimal digit of any script, that is a
    character of the Unicode category Nd.  In ASCII these are [0] to [9];
    for a character beyond ASCII, [wide_decimal] tells whether its encoding
    is that of a decimal digit. *)
Definition Digit (wide_decimal : string -> bool) : regex :=
  Alt (Class is_ascii_digit) (Lang (fun s => is_wide_char s && wide_decimal s)).

(** [[a-f0-9]]: ASCII in Python as well. *)
Definition is_lower_hex (c : ascii) : bool :=
  let n := nat_of_ascii c in
  (((97 <=? n) && (n <=? 102)) || ((48 <=? n) && (n <=? 57)))%nat.

(** ** The error accumulator

    [validate_manifest] appends to one local list, [errors], and may raise
    in the middle of a loop.  A computation takes the list as it stands and
    either raises or returns a value with the extended list. *)
Definition M (A : Type) : Type := list string -> result (A * list string).

Module Acc.
Definition ret {A} (a : A) : M A := fun errors => Ok (a, errors).

Definition bind {A B} (c : M A) (k : A -> M B) : M B :=
  fun errors =>
    match c errors with
    | Ok (a, errors') => k a errors'
    | Raise e => Raise e
    end.

(** A pure Python operation inside the loop body. *)
Definition lift {A} (r : result A) : M A :=
  fun errors =>
    match r with
    | Ok a => Ok (a, errors)
    | Raise e => Raise e
    end.

(** [errors.append(msg)] for an f-string [msg]: the f-string is formatted,
    which can raise, and its text is appended. *)
Definition append (msg : result string) : M unit :=
  fun errors =>
    match msg with
    | Ok text => Ok (tt, (errors ++ [text])%list)
    | Raise e => Raise e
    end.

(** [if cond: errors.append(msg)]: the f-string is formatted only when the
    condition holds. *)
Definition append_if (cond : bool) (msg : result string) : M unit :=
  if cond then append msg else ret tt.

(** [for a in l: body(a)] *)
Fixpoint for_each {A} (body : A -> M unit) (l : list A) : M unit :=
  match l with
  | [] => ret tt
  | a :: l' => bind (body a) (fun _ => for_each body l')
  end.

(** A [for] loop that also updates a local variable of type [S]. *)
Fixpoint for_fold {A S} (body : S -> A -> M S) (l : list A) (s : S) : M S :=
  match l with
  | [] => ret s
  | a :: l' => bind (body s a) (fun s' => for_fold body l' s')
  end.
End Acc.

Declare Scope acc_scope.
Delimit Scope acc_scope with acc.
Notation "x <- c ;; k" := (Acc.bind c (fun x => k))
  (at level 61, c at next level, right associativity) : acc_scope.
Notation "c ;; k" := (Acc.bind c (fun _ => k))
  (at level 61, right associativity) : acc_scope.

(** [enumerate(l)] *)
Definition enumerate {A} (l : list A) : list (nat * A) :=
  combine (seq 0 (List.length l)) l.

(** ** The module constants *)

Definition SEVERITY_VALUES : list string := ["green"; "yellow"; "red"].

Definition MATCHER_TYPES : list string := ["default"; "country"; "location_hash"].

Definition VALID_COUNTRIES : list string :=
  [ "US"; "GB"; "DE"; "FR"; "IT"; "ES"; "NL"; "BE"; "AT"; "CH";
    "PL"; "CZ"; "SK"; "HU"; "RO"; "BG"; "HR"; "SI"; "SE"; "NO";
    "DK"; "FI"; "IE"; "PT"; "GR"; "LU"; "EE"; "LV"; "LT"; "CY";
    "MT"; "IS" ].

(** ** The location hash *)

(** [r'^[a-f0-9]{64}$'] between its anchors. *)
Definition location_hash_pattern : regex := Repeat 64 (Class is_lower_hex).

(** [re.match] wants a string. *)
Definition validate_location_hash (hash_value : value) : result bool :=
  match hash_value with
  | VScalar (SStr s) => Ok (re_match_anchored location_hash_pattern s)
  | _ => Raise TypeError
  end.

(** ** Instances of the library functions

    The validator is parameterised below by the decimal digits of Unicode,
    by the timestamp parser and by the printing of containers.  The
    theorems hold for every choice; the concrete manifests evaluated at the
    end of the file use these three. *)

(** The code point of a character beyond ASCII, from its encoding. *)
Definition payload (c : ascii) (lead : N) : N := (N_of_ascii c - lead)%N.

Definition code_point (s : string) : N :=
  match list_ascii_of_string s with
  | [b0; b1] => (payload b0 192 * 64 + payload b1 128)%N
  | [b0; b1; b2] =>
      (payload b0 224 * 4096 + payload b1 128 * 64 + payload b2 128)%N
  | [b0; b1; b2; b3] =>
      (payload b0 240 * 262144 + payload b1 128 * 4096
       + payload b2 128 * 64 + payload b3 128)%N
  | _ => 0%N
  end.

(** The decimal digits beyond ASCII in Unicode 14.0, the database of
    CPython 3.11.  The ten digits of a script follow one another, so the
    table has the code point of each digit zero. *)
Definition decimal_zeros : list N :=
  [ 0x0660; 0x06F0; 0x07C0; 0x0966; 0x09E6; 0x0A66; 0x0AE6; 0x0B66;
    0x0BE6; 0x0C66; 0x0CE6; 0x0D66; 0x0DE6; 0x0E50; 0x0ED0; 0x0F20;
    0x1040; 0x1090; 0x17E0; 0x1810; 0x1946; 0x19D0; 0x1A80; 0x1A90;
    0x1B50; 0x1BB0; 0x1C40; 0x1C50; 0xA620; 0xA8D0; 0xA900; 0xA9D0;
    0xA9F0; 0xAA50; 0xABF0; 0xFF10; 0x104A0; 0x10D30; 0x11066; 0x110F0;
    0x11136; 0x111D0; 0x112F0; 0x11450; 0x114D0; 0x11650; 0x116C0;
    0x11730; 0x118E0; 0x11950; 0x11C50; 0x11D50; 0x11DA0; 0x16A60;
    0x16AC0; 0x16B50; 0x1D7CE; 0x1D7D8; 0x1D7E2; 0x1D7EC; 0x1D7F6;
    0x1E140; 0x1E2F0; 0x1E950; 0x1FBF0 ]%N.

Definition unicode_decimal_model (s : string) : bool :=
  let cp := code_point s in
  existsb (fun zero => (zero <=? cp) && (cp <? zero + 10))%N decimal_zeros.

(** The format [datetime.fromisoformat] documents for Python 3.7 to 3.10,
    [YYYY-MM-DD[*HH[:MM[:SS[.fff[fff]]]][+HH:MM[:SS[.ffffff]]]]], where [*]
    is any one character. *)
Definition digit_of (c : ascii) : option nat :=
  if is_ascii_digit c then Some (nat_of_ascii c - 48)%nat else None.

Fixpoint number_of (l : list ascii) (acc : nat) : option nat :=
  match l with
  | [] => Some acc
  | c :: l' =>
      match digit_of c with
      | Some d => number_of l' (10 * acc + d)%nat
      | None => None
      end
  end.

Definition is_leap (y : nat) : bool :=
  ((y mod 4 =? 0) && (negb (y mod 100 =? 0) || (y mod 400 =? 0)))%nat.

Definition days_in_month (y m : nat) : nat :=
  match m with
  | 1 | 3 | 5 | 7 | 8 | 10 | 12 => 31
  | 4 | 6 | 9 | 11 => 30
  | 2 => if is_leap y then 29 else 28
  | _ => 0
  end%nat.

Definition iso_date (l : list ascii) : bool :=
  match l with
  | [y1; y2; y3; y4; s1; m1; m2; s2; d1; d2] =>
      Ascii.eqb s1 "-" && Ascii.eqb s2 "-"
      && match number_of [y1; y2; y3; y4] 0, number_of [m1; m2] 0,
               number_of [d1; d2] 0 with
         | Some y, Some m, Some d =>
             ((1 <=? y) && (1 <=? m) && (m <=? 12)
              && (1 <=? d) && (d <=? days_in_month y m))%nat
         | _, _, _ => false
         end
  | _ => false
  end.

Definition in_range (l : list ascii) (bound : nat) : bool :=
  match number_of l 0 with
  | Some n => (n <? bound)%nat
  | None => false
  end.

(** [HH[:MM[:SS[.fff[fff]]]]]; [short] allows the three-digit fraction and
    the forms without minutes. *)
Definition iso_clock (short : bool) (l : list ascii) : bool :=
  match l with
  | [h1; h2] => short && in_range [h1; h2] 24
  | [h1; h2; c1; m1; m2] =>
      Ascii.eqb c1 ":" && in_range [h1; h2] 24 && in_range [m1; m2] 60
  | [h1; h2; c1; m1; m2; c2; s1; s2] =>
      Ascii.eqb c1 ":" && Ascii.eqb c2 ":"
      && in_range [h1; h2] 24 && in_range [m1; m2] 60 && in_range [s1; s2] 60
  | h1 :: h2 :: c1 :: m1 :: m2 :: c2 :: s1 :: s2 :: dot :: frac =>
      Ascii.eqb c1 ":" && Ascii.eqb c2 ":" && Ascii.eqb dot "."
      && in_range [h1; h2] 24 && in_range [m1; m2] 60 && in_range [s1; s2] 60
      && forallb is_ascii_digit frac
      && ((List.length frac =? 6)%nat || (short && (List.length frac =? 3)%nat))
  | _ => false
  end.

Fixpoint split_sign (l : list ascii) : list ascii * option (list ascii) :=
  match l with
  | [] => ([], None)
  | c :: l' =>
      if Ascii.eqb c "+" || Ascii.eqb c "-" then ([], Some l')
      else let (a, b) := split_sign l' in (c :: a, b)
  end.

(** The rest of a character whose first byte has been read. *)
Fixpoint skip_continuation (l : list ascii) : list ascii :=
  match l with
  | c :: l' => if is_continuation c then skip_continuation l' else l
  | [] => []
  end.

Definition fromisoformat_model (s : string) : bool :=
  let l := list_ascii_of_string s in
  iso_date (firstn 10 l)
  && match skipn 10 l with
     | [] => true
     | _ :: rest =>
         let (clock, offset) := split_sign (skip_continuation rest) in
         iso_clock true clock
         && match offset with
            | None => true
            | Some o => iso_clock false o
            end
     end.

(** A stand-in for [str] of a non-empty list or dict.  The validator never
    prints one: see [validate_manifest_repr_irrelevant]. *)
Definition repr_model (v : value) : string :=
  match v with
  | VScalar _ => ""
  | VList _ => "[...]"
  | VDict _ => "{...}"
  end.

(** ** Concrete manifests *)

Definition manifest_of (items : list (scalar * value)) : value :=
  VDict [(SStr "versions", VDict items)].

Definition matcher (matcher_type : string) (rest : list (scalar * value)) : value :=
  VDict ((SStr "matcher_type", VStr matcher_type) :: rest).

Definition default_green : value := matcher "default" [(SStr "severity", VStr "green")].

Definition entry (released_at : string) (matcher_list : list value) : value :=
  VDict [(SStr "released_at", VStr released_at); (SStr "matchers", VList matcher_list)].

(** Concrete scenario 1 of the specification. *)
Definition manifest_minimal : value :=
  manifest_of [(SStr "1.0.0", entry "2024-01-01T00:00:00Z" [default_green])].

(** Concrete scenario 2: bad order. *)
Definition manifest_bad_order : value :=
  manifest_of [(SStr "2.0.0", entry "2024-01-01T00:00:00Z" [default_green]);
               (SStr "1.0.0", entry "2024-02-01T00:00:00Z" [default_green])].

(** A key that is neither a semantic version nor above its predecessor. *)
Definition manifest_bad_key : value :=
  manifest_of [(SStr "2.0.0", entry "2024-01-01T00:00:00Z" [default_green]);
               (SStr "1.0", entry "2024-02-01T00:00:00Z" [default_green])].

(** A timestamp with a [Z] between date and time. *)
Definition manifest_inner_Z : value :=
  manifest_of [(SStr "1.0.0", entry "2024-01-01Z00:00:00" [default_green])].

(** A version entry that is null. *)
Definition manifest_null_entry : value := manifest_of [(SStr "1.0.0", VNone)].

(** [versions] present with a null value, and with a string value. *)
Definition manifest_null_versions : value := VDict [(SStr "versions", VNone)].
Definition manifest_str_versions : value := VDict [(SStr "versions", VStr "1.0.0")].

(** Two matchers with the same unknown country code. *)
Definition matcher_country_XX : value :=
  matcher "country" [(SStr "matcher_value", VStr "XX"); (SStr "severity", VStr "green")].

Definition manifest_repeated_country : value :=
  manifest_of [(SStr "1.0.0",
                entry "2024-01-01T00:00:00Z"
                  [default_green; matcher_country_XX; matcher_country_XX])].

(** A matcher of unknown type with a bad severity, and a known one with no
    severity. *)
Definition matcher_unknown_type : value :=
  matcher "region" [(SStr "severity", VStr "purple")].

Definition matcher_no_severity : value := matcher "default" [].

Definition manifest_bad_matchers : value :=
  manifest_of [(SStr "1.0.0",
                entry "2024-01-01T00:00:00Z"
                  [matcher_unknown_type; matcher_no_severity])].

(** Concrete scenario 3: the only matcher is a country matcher. *)
Definition manifest_no_default : value :=
  manifest_of [(SStr "1.0.0",
                entry "2024-01-01T00:00:00Z"
                  [matcher "country" [(SStr "matcher_value", VStr "US");
                                      (SStr "severity", VStr "green")]])].

(** A version with an empty matcher list. *)
Definition manifest_empty_matchers : value :=
  manifest_of [(SStr "1.0.0", entry "2024-01-01T00:00:00Z" [])].

(** A severity that YAML reads as an integer of 4301 digits, as a long
    hexadecimal scalar gives. *)
Definition matcher_huge_severity : value :=
  matcher "default" [(SStr "severity", VInt (10 ^ 4300))].

Definition manifest_huge_severity : value :=
  manifest_of [(SStr "1.0.0", entry "2024-01-01T00:00:00Z" [matcher_huge_severity])].

(** ** The validator

    Three things the validator relies on are not part of the repository and
    are parameters of the development:
    - [unicode_decimal s] tells, for the encoding [s] of a character beyond
      ASCII, whether the Unicode database of the interpreter has it as a
      decimal digit (category Nd), which is what [\d] matches;
    - [fromisoformat s] tells whether [datetime.fromisoformat(s)] returns
      ([true]) or raises [ValueError] ([false]);
    - [repr_container v] is the text of [str(v)] for a non-empty list or
      dict. *)
Section Validator.

Variable unicode_decimal : string -> bool.
Variable fromisoformat : string -> bool.
Variable repr_container : value -> string.

(** *** The format predicates *)

(** [r'^\d+\.\d+\.\d+$'] between its anchors. *)
Definition semver_pattern : regex :=
  Cat (Plus (Digit unicode_decimal))
    (Cat (Chr ".")
       (Cat (Plus (Digit unicode_decimal))
          (Cat (Chr ".") (Plus (Digit unicode_decimal))))).

(** [re.match] wants a string. *)
Definition validate_semver (version : scalar) : result bool :=
  match version with
  | SStr s => Ok (re_match_anchored semver_pattern s)
  | _ => Raise TypeError
  end.

(** [timestamp.replace('Z', '+00:00')] needs a string; the [ValueError] of
    the parser is caught. *)
Definition validate_iso8601 (timestamp : value) : result bool :=
  match timestamp with
  | VScalar (SStr s) => Ok (fromisoformat (str_replace "Z"%char "+00:00" s))
  | _ => Raise AttributeError
  end.

(** [str(x)] inside an f-string. *)
Definition py_str (v : value) : result string :=
  match v with
  | VScalar s => py_str_scalar s
  | VList [] => Ok "[]"
  | VDict [] => Ok "{}"
  | _ => Ok (repr_container v)
  end.

(** *** Error messages

    The two messages of the early returns are literals.  The others are
    f-strings: their replacement fields are formatted with [str], from left
    to right, when the statement that appends them runs. *)

Definition msg_missing_versions : string := "Missing 'versions' key".
Definition msg_no_versions : string := "No versions defined".

(** Line 75. *)
Definition fmt_semver (version : scalar) : result string :=
  (v <- py_str_scalar version ;;
   Ok ("Invalid semantic version format: " ++ v))%res.

(** Line 81. *)
Definition fmt_order (prev_version version : scalar) : result string :=
  (p <- py_str_scalar prev_version ;;
   v <- py_str_scalar version ;;
   Ok ("Versions not in ascending order: " ++ p ++ " -> " ++ v))%res.

(** [f"Version {version}" + rest] for a literal [rest]. *)
Definition fmt_version (version : scalar) (rest : string) : result string :=
  (v <- py_str_scalar version ;;
   Ok ("Version " ++ v ++ rest))%res.

(** [f"Version {version}" + before + f"{x}" + after] for literals [before]
    and [after]. *)
Definition fmt_version_value (version : scalar) (before : string) (x : value)
  (after : string) : result string :=
  (v <- py_str_scalar version ;;
   t <- py_str x ;;
   Ok ("Version " ++ v ++ before ++ t ++ after))%res.

(** Lines 86, 88, 91, 99, 108, 113, 117 and 120. *)
Definition fmt_missing_released_at version :=
  fmt_version version ": missing 'released_at'".
Definition fmt_timestamp version :=
  fmt_version version ": invalid ISO 8601 timestamp".
Definition fmt_missing_matchers version :=
  fmt_version version ": missing 'matchers'".
Definition fmt_matcher_type version (matcher_type : value) :=
  fmt_version_value version ": invalid matcher_type '" matcher_type "'".
Definition fmt_country version (country : value) :=
  fmt_version_value version ": invalid country code '" country "'".
Definition fmt_location_hash version :=
  fmt_version version ": invalid location hash format".
Definition fmt_severity version (severity : value) :=
  fmt_version_value version ": invalid severity '" severity "'".
Definition fmt_missing_default version :=
  fmt_version version ": missing default matcher".

(** *** First loop: the version keys (lines 71-81) *)

Definition check_version_key (version_list : list scalar) (iv : nat * scalar)
  : M unit :=
  (let '(i, version) := iv in
   ok <- Acc.lift (validate_semver version) ;;
   Acc.append_if (negb ok) (fmt_semver version) ;;
   if (0 <? i)%nat then
     prev_version <- Acc.lift (list_index version_list (i - 1)) ;;
     le <- Acc.lift (py_le version prev_version) ;;
     Acc.append_if le (fmt_order prev_version version)
   else Acc.ret tt)%acc.

(** *** Second loop: the version entries (lines 84-120) *)

(** [not x or x not in S] *)
Definition falsy_or_not_in (x : value) (S : list string) : result bool :=
  if negb (truthy x) then Ok true
  else (b <- py_in_set x S ;; Ok (negb b))%res.

(** [not x or not validate_location_hash(x)] *)
Definition falsy_or_bad_hash (x : value) : result bool :=
  if negb (truthy x) then Ok true
  else (b <- validate_location_hash x ;; Ok (negb b))%res.

(** The body of the loop over the matchers (lines 96-117); the result is
    the new value of [has_default].  The first branch is the [continue]. *)
Definition check_matcher (version : scalar) (has_default : bool)
  (matcher : value) : M bool :=
  (matcher_type <- Acc.lift (py_get matcher "matcher_type") ;;
   known <- Acc.lift (py_in_set matcher_type MATCHER_TYPES) ;;
   if negb known then
     Acc.append (fmt_matcher_type version matcher_type) ;;
     Acc.ret has_default
   else
     let has_default :=
       if value_is_str "default" matcher_type then true else has_default in
     (if value_is_str "country" matcher_type then
        country <- Acc.lift (py_get matcher "matcher_value") ;;
        bad <- Acc.lift (falsy_or_not_in country VALID_COUNTRIES) ;;
        Acc.append_if bad (fmt_country version country)
      else Acc.ret tt) ;;
     (if value_is_str "location_hash" matcher_type then
        hash_val <- Acc.lift (py_get matcher "matcher_value") ;;
        bad <- Acc.lift (falsy_or_bad_hash hash_val) ;;
        Acc.append_if bad (fmt_location_hash version)
      else Acc.ret tt) ;;
     severity <- Acc.lift (py_get matcher "severity") ;;
     ok <- Acc.lift (py_in_set severity SEVERITY_VALUES) ;;
     Acc.append_if (negb ok) (fmt_severity version severity) ;;
     Acc.ret has_default)%acc.

(** Lines 85-88. *)
Definition check_released_at (version : scalar) (details : value) : M unit :=
  (present <- Acc.lift (py_contains "released_at" details) ;;
   if negb present then Acc.append (fmt_missing_released_at version)
   else
     released_at <- Acc.lift (py_getitem details "released_at") ;;
     ok <- Acc.lift (validate_iso8601 released_at) ;;
     Acc.append_if (negb ok) (fmt_timestamp version))%acc.

(** Lines 90-120; the first branch is the [continue]. *)
Definition check_matchers (version : scalar) (details : value) : M unit :=
  (present <- Acc.lift (py_contains "matchers" details) ;;
   if negb present then Acc.append (fmt_missing_matchers version)
   else
     matchers <- Acc.lift (py_getitem details "matchers") ;;
     matcher_list <- Acc.lift (py_iter matchers) ;;
     has_default <- Acc.for_fold (check_matcher version) matcher_list false ;;
     Acc.append_if (negb has_default) (fmt_missing_default version))%acc.

Definition check_version_entry (item : scalar * value) : M unit :=
  (let '(version, details) := item in
   check_released_at version details ;;
   check_matchers version details)%acc.

(** *** [validate_manifest], from line 63 on

    The argument is the value [yaml.safe_load] returned; reading and
    parsing the file belong to the caller's side of the contract. *)

(** [not data or 'versions' not in data] *)
Definition lacks_versions (data : value) : result bool :=
  if negb (truthy data) then Ok true
  else (b <- py_contains "versions" data ;; Ok (negb b))%res.

Definition validate_manifest (data : value) : result (list string) :=
  (let errors : list string := [] in
   missing <- lacks_versions data ;;
   if missing : bool then Ok [msg_missing_versions]
   else
     versions <- py_getitem data "versions" ;;
     if negb (truthy versions) then Ok [msg_no_versions]
     else
       version_list <- py_keys versions ;;
       r1 <- Acc.for_each (check_version_key version_list)
               (enumerate version_list) errors ;;
       items <- py_items versions ;;
       r2 <- Acc.for_each check_version_entry items (snd r1) ;;
       Ok (snd r2))%res.

(** * Definitions used by the proofs *)

(** *** Strings *)

Fixpoint last_char (s : string) : option ascii :=
  match s with
  | EmptyString => None
  | String c EmptyString => Some c
  | String _ s' => last_char s'
  end.

Fixpoint starts_with (p s : string) : bool :=
  match p, s with
  | EmptyString, _ => true
  | String a p', String b s' => Ascii.eqb a b && starts_with p' s'
  | String _ _, EmptyString => false
  end.

(** [c] occurs in [s]. *)
Fixpoint has_char (c : ascii) (s : string) : bool :=
  match s with
  | EmptyString => false
  | String x s' => Ascii.eqb x c || has_char c s'
  end.

(** What comes before and after the first [c] of [s]. *)
Fixpoint before_char (c : ascii) (s : string) : string :=
  match s with
  | EmptyString => EmptyString
  | String x s' => if Ascii.eqb x c then EmptyString else String x (before_char c s')
  end.

Fixpoint after_char (c : ascii) (s : string) : string :=
  match s with
  | EmptyString => EmptyString
  | String x s' => if Ascii.eqb x c then s' else after_char c s'
  end.

(** [s] backwards. *)
Fixpoint reversed (s : string) : string :=
  match s with
  | EmptyString => EmptyString
  | String x s' => reversed s' ++ String x EmptyString
  end.

(** *** The texts of the messages

    What [str] and the f-strings give when they return, and when they do. *)

Definition scalar_text (s : scalar) : string :=
  match s with
  | SNone => "None"
  | SBool true => "True"
  | SBool false => "False"
  | SInt z => NilZero.string_of_int (Z.to_int z)
  | SStr s => s
  end.

Definition value_text (v : value) : string :=
  match v with
  | VScalar s => scalar_text s
  | VList [] => "[]"
  | VDict [] => "{}"
  | _ => repr_container v
  end.

(** [str] returns on everything but an integer of more than 4300 digits. *)
Definition printable_scalar (s : scalar) : bool :=
  match s with
  | SInt z => int_str_allowed z
  | _ => true
  end.

Definition printable (v : value) : bool :=
  match v with
  | VScalar s => printable_scalar s
  | _ => true
  end.

Definition msg_semver (version : scalar) : string :=
  "Invalid semantic version format: " ++ scalar_text version.

Definition msg_order (prev_version version : scalar) : string :=
  "Versions not in ascending order: " ++ scalar_text prev_version
    ++ " -> " ++ scalar_text version.

Definition msg_version (version : scalar) (rest : string) : string :=
  "Version " ++ scalar_text version ++ rest.

Definition msg_missing_released_at version := msg_version version ": missing 'released_at'".
Definition msg_timestamp version := msg_version version ": invalid ISO 8601 timestamp".
Definition msg_missing_matchers version := msg_version version ": missing 'matchers'".
Definition msg_matcher_type version (matcher_type : value) :=
  msg_version version (": invalid matcher_type '" ++ value_text matcher_type ++ "'").
Definition msg_country version (country : value) :=
  msg_version version (": invalid country code '" ++ value_text country ++ "'").
Definition msg_location_hash version := msg_version version ": invalid location hash format".
Definition msg_severity version (severity : value) :=
  msg_version version (": invalid severity '" ++ value_text severity ++ "'").
Definition msg_missing_default version := msg_version version ": missing default matcher".

(** *** The messages, by the check that appends them *)

(** The messages of one matcher. *)
Inductive matcher_msg (version : scalar) : string -> Prop :=
| mm_type x : matcher_msg version (msg_matcher_type version x)
| mm_country x : matcher_msg version (msg_country version x)
| mm_hash : matcher_msg version (msg_location_hash version)
| mm_severity x : matcher_msg version (msg_severity version x).

(** The messages of one version entry. *)
Inductive entry_msg (version : scalar) : string -> Prop :=
| em_missing_released_at : entry_msg version (msg_missing_released_at version)
| em_timestamp : entry_msg version (msg_timestamp version)
| em_missing_matchers : entry_msg version (msg_missing_matchers version)
| em_matcher e : matcher_msg version e -> entry_msg version e
| em_missing_default : entry_msg version (msg_missing_default version).

(** The messages of the loop over the keys. *)
Inductive key_msg : string -> Prop :=
| km_semver version : key_msg (msg_semver version)
| km_order prev version : key_msg (msg_order prev version).

(** *** The loops as values

    What each iteration contributes, without the accumulator: the
    functions below return the errors an iteration appends, and the lemmas
    after them show that the loops of the validator append exactly those. *)

(** [m.get(k)] on a mapping. *)
Definition field (k : string) (d : list (scalar * value)) : value :=
  match dict_lookup k d with
  | Some v => v
  | None => VNone
  end.

(** What [if cond: errors.append(msg)] contributes, for an f-string with
    the text [msg] that can be formatted when [ok]. *)
Definition appended (cond ok : bool) (msg : string) : result (list string) :=
  if cond then (if ok then Ok [msg] else Raise ValueError) else Ok [].

(** The new [has_default] and the errors of one matcher, as a value. *)
Definition matcher_result (version : scalar) (has_default : bool)
  (d : list (scalar * value)) : result (bool * list string) :=
  (let mt := field "matcher_type" d in
   let mv := field "matcher_value" d in
   let sev := field "severity" d in
   known <- py_in_set mt MATCHER_TYPES ;;
   if negb known then
     o <- appended true (printable_scalar version && printable mt)
            (msg_matcher_type version mt) ;;
     Ok (has_default, o)
   else
     bc <- (if value_is_str "country" mt
            then falsy_or_not_in mv VALID_COUNTRIES else Ok false) ;;
     oc <- appended bc (printable_scalar version && printable mv)
             (msg_country version mv) ;;
     bh <- (if value_is_str "location_hash" mt
            then falsy_or_bad_hash mv else Ok false) ;;
     oh <- appended bh (printable_scalar version) (msg_location_hash version) ;;
     ok <- py_in_set sev SEVERITY_VALUES ;;
     os <- appended (negb ok) (printable_scalar version && printable sev)
             (msg_severity version sev) ;;
     Ok (if value_is_str "default" mt then true else has_default,
         (oc ++ oh ++ os)%list))%res.

Definition extend {A} (errors : list string) (r : result (A * list string))
  : result (A * list string) :=
  match r with
  | Ok (a, out) => Ok (a, (errors ++ out)%list)
  | Raise e => Raise e
  end.

(** The errors of a loop whose iterations contribute [f a] each. *)
Definition unit_out (errors : list string) (r : result (list string))
  : result (unit * list string) :=
  match r with
  | Ok out => Ok (tt, (errors ++ out)%list)
  | Raise e => Raise e
  end.

Fixpoint collect {A} (f : A -> result (list string)) (l : list A)
  : result (list string) :=
  match l with
  | [] => Ok []
  | a :: l' => (o1 <- f a ;; o2 <- collect f l' ;; Ok (o1 ++ o2)%list)%res
  end.

Fixpoint matchers_result (version : scalar) (matcher_list : list value)
  (has_default : bool) : result (bool * list string) :=
  match matcher_list with
  | [] => Ok (has_default, [])
  | VDict d :: rest =>
      (r1 <- matcher_result version has_default d ;;
       r2 <- matchers_result version rest (fst r1) ;;
       Ok (fst r2, (snd r1 ++ snd r2)%list))%res
  | _ :: _ => Raise AttributeError
  end.

Definition released_at_result (version : scalar) (details : value)
  : result (list string) :=
  (present <- py_contains "released_at" details ;;
   if negb present then
     appended true (printable_scalar version) (msg_missing_released_at version)
   else
     released_at <- py_getitem details "released_at" ;;
     ok <- validate_iso8601 released_at ;;
     appended (negb ok) (printable_scalar version) (msg_timestamp version))%res.

Definition entry_matchers_result (version : scalar) (details : value)
  : result (list string) :=
  (present <- py_contains "matchers" details ;;
   if negb present then
     appended true (printable_scalar version) (msg_missing_matchers version)
   else
     matchers <- py_getitem details "matchers" ;;
     matcher_list <- py_iter matchers ;;
     r <- matchers_result version matcher_list false ;;
     o <- appended (negb (fst r)) (printable_scalar version)
            (msg_missing_default version) ;;
     Ok (snd r ++ o)%list)%res.

Definition entry_result (item : scalar * value) : result (list string) :=
  (o1 <- released_at_result (fst item) (snd item) ;;
   o2 <- entry_matchers_result (fst item) (snd item) ;;
   Ok (o1 ++ o2)%list)%res.

Definition key_result (version_list : list scalar) (iv : nat * scalar)
  : result (list string) :=
  (ok <- validate_semver (snd iv) ;;
   o1 <- appended (negb ok) (printable_scalar (snd iv)) (msg_semver (snd iv)) ;;
   if (0 <? fst iv)%nat then
     prev_version <- list_index version_list (fst iv - 1) ;;
     le <- py_le (snd iv) prev_version ;;
     o2 <- appended le (printable_scalar prev_version && printable_scalar (snd iv))
             (msg_order prev_version (snd iv)) ;;
     Ok (o1 ++ o2)%list
   else Ok o1)%res.

Definition loops_result (items : list (scalar * value)) : result (list string) :=
  (e1 <- collect (key_result (map fst items)) (enumerate (map fst items)) ;;
   e2 <- collect entry_result items ;;
   Ok (e1 ++ e2)%list)%res.

(** A matcher in which [matcher_type], [matcher_value] or [severity] is an
    integer of more than 4300 digits. *)
Definition long_int_field (d : list (scalar * value)) : bool :=
  negb (printable (field "matcher_type" d)
        && printable (field "matcher_value" d)
        && printable (field "severity" d)).

Definition is_default_matcher (m : value) : bool :=
  match m with
  | VDict d => value_is_str "default" (field "matcher_type" d)
  | _ => false
  end.

(** *** Manifests of the expected shape *)

(** The shape of the data model: the types of the fields, not their
    contents.  Absent fields are allowed; a scalar is null, a boolean, a
    string or an integer of at most 4300 digits. *)
Definition is_short_scalar (v : value) : bool :=
  match v with
  | VScalar s => printable_scalar s
  | _ => false
  end.

Definition is_str_or_none (v : value) : bool :=
  match v with
  | VScalar SNone | VScalar (SStr _) => true
  | _ => false
  end.

Definition shaped_matcher (m : value) : bool :=
  match m with
  | VDict d =>
      is_short_scalar (field "matcher_type" d)
      && is_str_or_none (field "matcher_value" d)
      && is_short_scalar (field "severity" d)
  | _ => false
  end.

Definition shaped_entry (details : value) : bool :=
  match details with
  | VDict d =>
      match dict_lookup "released_at" d with
      | None | Some (VScalar (SStr _)) => true
      | Some _ => false
      end
      && match dict_lookup "matchers" d with
         | None => true
         | Some (VList matcher_list) => forallb shaped_matcher matcher_list
         | Some _ => false
         end
  | _ => false
  end.

Definition is_str_key (k : scalar) : bool :=
  match k with
  | SStr _ => true
  | _ => false
  end.

Definition shaped_manifest (data : value) : bool :=
  match data with
  | VScalar SNone => true
  | VDict d =>
      match dict_lookup "versions" d with
      | None | Some (VScalar SNone) => true
      | Some (VDict items) =>
          forallb (fun kv => is_str_key (fst kv) && shaped_entry (snd kv)) items
      | Some _ => false
      end
  | _ => false
  end.

(** *** Valid manifests *)

(** The rules of the manifest format, read off the specification.  The
    timestamp rule is parameterised by what counts as an ISO-8601 timestamp
    ([parses]) and by the substitution applied before, so that the wording
    of the specification (a trailing [Z]) and the substitution of the
    source (every [Z]) can be compared. *)
Definition valid_matcher (m : value) : bool :=
  match m with
  | VDict d =>
      match field "matcher_type" d, field "severity" d with
      | VScalar (SStr t), VScalar (SStr sev) =>
          mem_string t MATCHER_TYPES
          && mem_string sev SEVERITY_VALUES
          && (if String.eqb "country" t then
                match field "matcher_value" d with
                | VScalar (SStr c) => mem_string c VALID_COUNTRIES
                | _ => false
                end
              else true)
          && (if String.eqb "location_hash" t then
                match field "matcher_value" d with
                | VScalar (SStr h) => re_match_anchored location_hash_pattern h
                | _ => false
                end
              else true)
      | _, _ => false
      end
  | _ => false
  end.

Definition valid_entry (parses : string -> bool) (subst : string -> string)
  (details : value) : bool :=
  match details with
  | VDict d =>
      match dict_lookup "released_at" d, dict_lookup "matchers" d with
      | Some (VScalar (SStr released_at)), Some (VList matcher_list) =>
          parses (subst released_at)
          && forallb valid_matcher matcher_list
          && existsb is_default_matcher matcher_list
      | _, _ => false
      end
  | _ => false
  end.

Definition valid_key (k : scalar) : bool :=
  match k with
  | SStr s => re_match_anchored semver_pattern s
  | _ => false
  end.

(** Each key is strictly below the next one, as strings. *)
Fixpoint ascending (keys : list scalar) : bool :=
  match keys with
  | SStr a :: (SStr b :: _) as rest => String.ltb a b && ascending rest
  | [SStr _] => true
  | [] => true
  | _ => false
  end.

Definition valid_manifest (parses : string -> bool) (subst : string -> string)
  (data : value) : bool :=
  match data with
  | VDict d =>
      match dict_lookup "versions" d with
      | Some (VDict items) =>
          match items with [] => false | _ :: _ => true end
          && forallb valid_key (map fst items)
          && ascending (map fst items)
          && forallb (fun kv => valid_entry parses subst (snd kv)) items
      | _ => false
      end
  | _ => false
  end.

(** The substitution in the words of the specification: a [Z] that ends
    the string becomes [+00:00]. *)
Fixpoint subst_trailing_Z (s : string) : string :=
  match s with
  | EmptyString => EmptyString
  | String c EmptyString =>
      if Ascii.eqb c "Z" then "+00:00" else String c EmptyString
  | String c s' => String c (subst_trailing_Z s')
  end.

(** [s] has no [Z] before its last character: in ISO-8601 the letter is
    the UTC designator, which ends a timestamp. *)
Fixpoint no_inner_Z (s : string) : bool :=
  match s with
  | EmptyString => true
  | String c EmptyString => true
  | String c s' => negb (Ascii.eqb c "Z") && no_inner_Z s'
  end.

(** *** The languages of the regular expressions *)

Inductive matches : regex -> string -> Prop :=
| m_eps : matches Eps ""
| m_class p c : p c = true -> matches (Class p) (String c "")
| m_cat r1 r2 s1 s2 :
    matches r1 s1 -> matches r2 s2 -> matches (Cat r1 r2) (s1 ++ s2)
| m_alt_l r1 r2 s : matches r1 s -> matches (Alt r1 r2) s
| m_alt_r r1 r2 s : matches r2 s -> matches (Alt r1 r2) s
| m_star_nil r : matches (Star r) ""
| m_star_cons r s1 s2 :
    matches r s1 -> matches (Star r) s2 -> matches (Star r) (s1 ++ s2)
| m_lang q s : q s = true -> matches (Lang q) s.

(** Exactly sixty-four lowercase hexadecimal characters. *)
Definition is_hex64 (s : string) : Prop :=
  String.length s = 64 /\ all_chars is_lower_hex s = true.

(** One decimal digit: [0] to [9], or a character beyond ASCII that the
    Unicode database has as a decimal digit. *)
Definition is_decimal_digit (s : string) : Prop :=
  (exists c, s = String c "" /\ is_ascii_digit c = true)
  \/ (is_wide_char s = true /\ unicode_decimal s = true).

(** Decimal digits, at least one. *)
Inductive is_number : string -> Prop :=
| number_digit d : is_decimal_digit d -> is_number d
| number_more d s : is_decimal_digit d -> is_number s -> is_number (d ++ s).

(** *** A location hash with a newline *)

(** Sixty-four [a]s followed by a newline: sixty-five characters. *)
Definition hash_with_newline : string :=
  "aaaaaaaaaaaaaaaaaaaaaaaaaaaaaaaaaaaaaaaaaaaaaaaaaaaaaaaaaaaaaaaa"
    ++ String newline EmptyString.

Definition manifest_hash_with_newline : value :=
  VDict
    [(SStr "versions",
      VDict
        [(SStr "1.0.0",
          VDict
            [(SStr "released_at", VStr "2024-01-01T00:00:00Z");
             (SStr "matchers",
              VList
                [VDict [(SStr "matcher_type", VStr "default");
                        (SStr "severity", VStr "green")];
                 VDict [(SStr "matcher_type", VStr "location_hash");
                        (SStr "matcher_value", VStr hash_with_newline);
                        (SStr "severity", VStr "red")]])])])].

(** * The rest of the script *)

(** ** Reading a manifest (lines 55-61)

    [validate_manifest(filepath)] opens and parses the file before the
    checks above.  What happened there is an input here: [yaml.safe_load]
    returned a value, raised [yaml.YAMLError], or something raised another
    [Exception]; the string is the exception as the f-string prints it. *)
Inductive loaded : Type :=
| Parsed (data : value)
| YAMLError (e : string)
| OtherError (e : string).

Definition validate_manifest_file (f : loaded) : result (list string) :=
  match f with
  | YAMLError e => Ok ["YAML syntax error: " ++ e]
  | OtherError e => Ok ["Error reading file: " ++ e]
  | Parsed data => validate_manifest data
  end.

(** ** [main] (lines 124-147)

    The [manifests] directory is [None] when it does not exist; otherwise
    it is the files [glob('*.yml')] yields, in that order, each with its
    name and what loading it gives. *)
Definition directory : Type := option (list (string * loaded)).

(** [d[k] = v] on a dict with string keys: a new key goes last, an old one
    keeps its place. *)
Fixpoint dict_set {V} (k : string) (v : V) (d : list (string * V))
  : list (string * V) :=
  match d with
  | [] => [(k, v)]
  | (k', v') :: d' =>
      if String.eqb k k' then (k, v) :: d' else (k', v') :: dict_set k v d'
  end.

(** The loop of lines 133-136, with [all_errors] as it stands. *)
Fixpoint validate_files (files : list (string * loaded))
  (all_errors : list (string * list string))
  : result (list (string * list string)) :=
  match files with
  | [] => Ok all_errors
  | (name, f) :: rest =>
      (errors <- validate_manifest_file f ;;
       validate_files rest
         (match errors with
          | [] => all_errors
          | _ :: _ => dict_set name errors all_errors
          end))%res
  end.

(** The arguments of the [print] calls of lines 139-143, one per call. *)
Definition report_file (entry : string * list string) : list string :=
  (fst entry ++ ":") :: map (fun error => "  - " ++ error) (snd entry).

Definition report (all_errors : list (string * list string)) : list string :=
  ("Validation failed:" ++ String newline EmptyString)
    :: flat_map report_file all_errors.

(** [main] returns what it printed and the status it gave [sys.exit]; an
    exception of [validate_manifest] is not caught.  Writing to the
    standard output is taken to succeed. *)
Definition main (dir : directory) : result (list string * Z) :=
  match dir with
  | None => Ok (["Error: manifests directory not found"], 1%Z)
  | Some files =>
      (all_errors <- validate_files files [] ;;
       match all_errors with
       | [] => Ok (["All manifest files are valid"], 0%Z)
       | _ :: _ => Ok (report all_errors, 1%Z)
       end)%res
  end.

(** *** Definitions for the properties of the rest *)

(** The files with errors, each with its errors. *)
Fixpoint failing (names : list string) (results : list (list string))
  : list (string * list string) :=
  match names, results with
  | name :: names', errors :: results' =>
      match errors with
      | [] => failing names' results'
      | _ :: _ => (name, errors) :: failing names' results'
      end
  | _, _ => []
  end.

(** *** Inputs for the instances of the properties of the rest *)

(** A parser that, like the one of Python 3.11, also takes a trailing [Z]. *)
Definition fromisoformat_with_Z (s : string) : bool :=
  fromisoformat_model s || fromisoformat_model (subst_trailing_Z s).


(** A key that YAML reads as an integer. *)
Definition manifest_int_key : value :=
  manifest_of [(SInt 1, entry "2024-01-01T00:00:00Z" [default_green])].

(** An entry that is an empty mapping, and one that is a string. *)
Definition manifest_empty_entry : value := manifest_of [(SStr "1.0.0", VDict [])].

Definition manifest_string_entry : value :=
  manifest_of [(SStr "1.0.0", VStr "pending")].

(** Concrete scenario 4: a bad hash. *)
Definition fields_bad_hash : list (scalar * value) :=
  [(SStr "matcher_type", VStr "location_hash");
   (SStr "matcher_value", VStr "abc");
   (SStr "severity", VStr "red")].

Definition fields_country_XX : list (scalar * value) :=
  [(SStr "matcher_type", VStr "country");
   (SStr "matcher_value", VStr "XX");
   (SStr "severity", VStr "green")].

(** A directory with a valid manifest, a file that does not parse and a
    manifest without default matcher. *)
Definition files_example : list (string * loaded) :=
  [("a.yml", Parsed manifest_minimal);
   ("b.yml", YAMLError "mapping values are not allowed here");
   ("c.yml", Parsed manifest_no_default)].

(** The Arabic-Indic digits one, two and three, each two bytes long, with
    dots between them. *)
Definition arabic_indic (n : nat) : string :=
  String (ascii_of_nat 217) (String (ascii_of_nat (160 + n)) EmptyString).

Definition semver_arabic_indic : string :=
  arabic_indic 1 ++ "." ++ arabic_indic 2 ++ "." ++ arabic_indic 3.

(** * Properties *)

(** ** Strings *)

Lemma string_app_assoc a b c : (a ++ b) ++ c = a ++ (b ++ c).
Proof. induction a as [| x a IH]; cbn; [reflexivity | now rewrite IH]. Qed.

Lemma string_app_nil_r a : a ++ "" = a.
Proof. induction a as [| x a IH]; cbn; [reflexivity | now rewrite IH]. Qed.

Lemma string_app_length a b :
  String.length (a ++ b) = String.length a + String.length b.
Proof. induction a as [| x a IH]; cbn; [reflexivity | now rewrite IH]. Qed.

Lemma string_app_inv_head a b c : a ++ b = a ++ c -> b = c.
Proof.
  induction a as [| x a IH]; cbn; [auto |].
  intros H. injection H as H. auto.
Qed.

Lemma string_app_inv_tail a b c : a ++ c = b ++ c -> a = b.
Proof.
  revert b. induction a as [| x a IH]; intros [| y b] H; cbn in H.
  - reflexivity.
  - apply (f_equal String.length) in H. cbn in H.
    rewrite string_app_length in H. lia.
  - apply (f_equal String.length) in H. cbn in H.
    rewrite string_app_length in H. lia.
  - injection H as -> H. f_equal. auto.
Qed.

Lemma last_char_app a b : b <> "" -> last_char (a ++ b) = last_char b.
Proof.
  intros Hb. induction a as [| x a IH]; cbn; [reflexivity |].
  rewrite <- IH. destruct (a ++ b) eqn:E; [| reflexivity].
  destruct a; cbn in E; [contradiction | discriminate].
Qed.

Lemma mem_string_In s l : mem_string s l = true <-> In s l.
Proof.
  unfold mem_string. rewrite existsb_exists. split.
  - intros (x & Hx & E). apply String.eqb_eq in E. now subst.
  - intros H. exists s. split; [assumption | apply String.eqb_refl].
Qed.

(** ** The messages *)

Lemma msg_version_inv_rest v r1 r2 : msg_version v r1 = msg_version v r2 -> r1 = r2.
Proof.
  unfold msg_version. intros H.
  apply string_app_inv_head in H. now apply string_app_inv_head in H.
Qed.

Lemma msg_version_inv_key v1 v2 r :
  msg_version v1 r = msg_version v2 r -> scalar_text v1 = scalar_text v2.
Proof.
  unfold msg_version. intros H.
  apply string_app_inv_head in H. now apply string_app_inv_tail in H.
Qed.

Lemma last_char_msg_version v r :
  r <> "" -> last_char (msg_version v r) = last_char r.
Proof.
  intros Hr. unfold msg_version.
  rewrite last_char_app; [now apply last_char_app |].
  destruct (scalar_text v); cbn; [assumption | discriminate].
Qed.

Lemma quoted_last x : last_char (x ++ "'") = Some "'"%char.
Proof. now rewrite last_char_app. Qed.

Lemma matcher_msg_last v e :
  matcher_msg v e -> last_char e = Some "'"%char \/ last_char e = Some "t"%char.
Proof.
  assert (Q : forall x, x ++ "'" <> "") by (intros [|]; discriminate).
  intros [x | x | | x];
    unfold msg_matcher_type, msg_country, msg_location_hash, msg_severity;
    rewrite last_char_msg_version by (cbn; discriminate);
    try (rewrite last_char_app by apply Q; left; apply quoted_last).
  right; reflexivity.
Qed.

Lemma matcher_msg_not_default v v' e :
  matcher_msg v e -> e <> msg_missing_default v'.
Proof.
  intros H E. apply matcher_msg_last in H.
  assert (L : last_char (msg_missing_default v') = Some "r"%char)
    by (unfold msg_missing_default; now rewrite last_char_msg_version).
  rewrite E, L in H. destruct H; discriminate.
Qed.

Lemma entry_msg_head v e : entry_msg v e -> starts_with "Version " e = true.
Proof. intros [| | | e' [x | x | | x] |]; reflexivity. Qed.

Lemma key_msg_head e : key_msg e -> starts_with "Version " e = false.
Proof. intros [v | a b]; reflexivity. Qed.

(** ** Formatting *)

Lemma py_str_scalar_eq s :
  py_str_scalar s
  = if printable_scalar s then Ok (scalar_text s) else Raise ValueError.
Proof. destruct s as [| [|] | z | s]; reflexivity. Qed.

Lemma py_str_eq v :
  py_str v = if printable v then Ok (value_text v) else Raise ValueError.
Proof.
  destruct v as [s | [| x l] | [| x d]]; try reflexivity. apply py_str_scalar_eq.
Qed.

Lemma fmt_semver_eq version :
  fmt_semver version
  = if printable_scalar version then Ok (msg_semver version) else Raise ValueError.
Proof.
  unfold fmt_semver. rewrite py_str_scalar_eq.
  now destruct (printable_scalar version).
Qed.

Lemma fmt_order_eq prev_version version :
  fmt_order prev_version version
  = if printable_scalar prev_version && printable_scalar version
    then Ok (msg_order prev_version version) else Raise ValueError.
Proof.
  unfold fmt_order. rewrite !py_str_scalar_eq.
  now destruct (printable_scalar prev_version), (printable_scalar version).
Qed.

Lemma fmt_version_eq version rest :
  fmt_version version rest
  = if printable_scalar version then Ok (msg_version version rest)
    else Raise ValueError.
Proof.
  unfold fmt_version. rewrite py_str_scalar_eq.
  now destruct (printable_scalar version).
Qed.

Lemma fmt_version_value_eq version before x after :
  fmt_version_value version before x after
  = if printable_scalar version && printable x
    then Ok (msg_version version (before ++ value_text x ++ after))
    else Raise ValueError.
Proof.
  unfold fmt_version_value. rewrite py_str_scalar_eq, py_str_eq.
  now destruct (printable_scalar version), (printable x).
Qed.

Lemma appended_true cond msg :
  appended cond true msg = Ok (if cond then [msg] else []).
Proof. now destruct cond. Qed.

Lemma appended_ok cond ok msg o :
  appended cond ok msg = Ok o -> o = if cond then [msg] else [].
Proof.
  destruct cond, ok; cbn; intros H; try discriminate; now injection H as <-.
Qed.

Lemma appended_raise cond ok msg e :
  appended cond ok msg = Raise e -> e = ValueError /\ cond = true /\ ok = false.
Proof.
  destruct cond, ok; cbn; intros H; try discriminate. injection H as <-. auto.
Qed.

Lemma appended_false ok msg : appended false ok msg = Ok [].
Proof. reflexivity. Qed.

(** In a hypothesis that says a computation returned, an [appended] has
    returned as well. *)
Ltac appended_returned H :=
  match type of H with
  | context [appended ?c ?p ?m] =>
      let o := fresh "o" in
      let E := fresh "Eo" in
      destruct (appended c p m) as [o | ?] eqn:E;
      [apply appended_ok in E; subst o | discriminate]
  end.

(** ** What one iteration does *)

Lemma py_get_dict d k : py_get (VDict d) k = Ok (field k d).
Proof. unfold py_get, field. now destruct (dict_lookup k d). Qed.

Lemma py_get_ok m k v :
  py_get m k = Ok v <-> exists d, m = VDict d /\ v = field k d.
Proof.
  split.
  - destruct m as [s | l | d]; try discriminate.
    rewrite py_get_dict. intros H. injection H as <-. now exists d.
  - intros (d & -> & ->). apply py_get_dict.
Qed.

Lemma value_is_str_eq k v : value_is_str k v = true <-> v = VStr k.
Proof.
  destruct v as [[| b | z | s] | l | d]; cbn; split; try discriminate.
  - intros H. apply String.eqb_eq in H. now subst.
  - intros H. injection H as ->. apply String.eqb_refl.
Qed.

Lemma py_in_set_true x S :
  py_in_set x S = Ok true <-> exists s, x = VStr s /\ In s S.
Proof.
  split.
  - destruct x as [[| b | z | s] | l | d]; cbn; try discriminate.
    intros H. injection H as H. exists s. split; [reflexivity | now apply mem_string_In].
  - intros (s & -> & H). cbn. f_equal. now apply mem_string_In.
Qed.

Lemma check_matcher_dict version has_default d errors :
  check_matcher version has_default (VDict d) errors
  = extend errors (matcher_result version has_default d).
Proof.
  unfold check_matcher, matcher_result, extend.
  unfold fmt_matcher_type, fmt_country, fmt_location_hash, fmt_severity.
  unfold Acc.bind, Acc.lift, Acc.append_if, Acc.append, Acc.ret, Res.bind, appended.
  rewrite !py_get_dict, !fmt_version_value_eq, !fmt_version_eq.
  destruct (printable_scalar version);
    destruct (py_in_set (field "matcher_type" d) MATCHER_TYPES) as [[|] | e];
    cbv beta iota delta [negb andb];
    try (destruct (printable (field "matcher_type" d)));
    try reflexivity;
    destruct (value_is_str "country" (field "matcher_type" d));
    destruct (value_is_str "location_hash" (field "matcher_type" d));
    repeat match goal with
      | |- context [falsy_or_not_in ?a ?b] => destruct (falsy_or_not_in a b) as [[|] | ?]
      | |- context [falsy_or_bad_hash ?a] => destruct (falsy_or_bad_hash a) as [[|] | ?]
      | |- context [printable (field "matcher_value" d)] =>
          destruct (printable (field "matcher_value" d))
      | |- context [py_in_set ?a SEVERITY_VALUES] =>
          destruct (py_in_set a SEVERITY_VALUES) as [[|] | ?]
      | |- context [printable (field "severity" d)] =>
          destruct (printable (field "severity" d))
      end;
    cbv beta iota delta [negb];
    rewrite ?app_nil_r, <- ?app_assoc; reflexivity.
Qed.

Lemma check_matcher_not_dict version has_default matcher errors :
  (forall d, matcher <> VDict d) ->
  check_matcher version has_default matcher errors = Raise AttributeError.
Proof.
  intros H. destruct matcher as [s | l | d]; try reflexivity.
  now destruct (H d).
Qed.

Lemma for_each_collect {A} (body : A -> M unit) f l :
  (forall a errors, body a errors = unit_out errors (f a)) ->
  forall errors, Acc.for_each body l errors = unit_out errors (collect f l).
Proof.
  intros Hb. induction l as [| a l IH]; intros errors; cbn.
  - now rewrite app_nil_r.
  - unfold Acc.bind. rewrite Hb. destruct (f a) as [o1 | e]; cbn; [| reflexivity].
    rewrite IH. destruct (collect f l) as [o2 | e]; cbn; [| reflexivity].
    now rewrite app_assoc.
Qed.

Lemma collect_ok {A} (f : A -> result (list string)) l out :
  collect f l = Ok out <->
  exists outs, Forall2 (fun a o => f a = Ok o) l outs /\ out = List.concat outs.
Proof.
  revert out. induction l as [| a l IH]; intros out; cbn.
  - split.
    + intros H. injection H as <-. exists []. split; [constructor | reflexivity].
    + intros (outs & HF & ->). inversion HF. reflexivity.
  - split.
    + destruct (f a) as [o1 | e] eqn:H1; cbn; [| discriminate].
      destruct (collect f l) as [o2 | e] eqn:H2; cbn; [| discriminate].
      intros H. injection H as <-.
      destruct (proj1 (IH o2) eq_refl) as (outs & HF & ->).
      exists (o1 :: outs). split; [now constructor | reflexivity].
    + intros (outs & HF & ->). inversion HF as [| ? o1 ? outs' H1 HF']; subst.
      rewrite H1. cbn. rewrite (proj2 (IH (List.concat outs'))); [reflexivity |].
      now exists outs'.
Qed.

(** Every element contributes, and every error comes from an element. *)
Lemma collect_incl {A} (f : A -> result (list string)) l out a :
  collect f l = Ok out -> In a l -> exists o, f a = Ok o /\ incl o out.
Proof.
  revert out. induction l as [| b l IH]; intros out H Hin; [destruct Hin |].
  cbn in H. destruct (f b) as [o1 | e] eqn:H1; cbn in H; [| discriminate].
  destruct (collect f l) as [o2 | e] eqn:H2; cbn in H; [| discriminate].
  injection H as <-. destruct Hin as [-> | Hin].
  - exists o1. split; [assumption | now apply incl_appl].
  - destruct (IH o2 eq_refl Hin) as (o & Ho & Hi).
    exists o. split; [assumption | now apply incl_appr].
Qed.

Lemma collect_In {A} (f : A -> result (list string)) l out e :
  collect f l = Ok out -> In e out ->
  exists a o, In a l /\ f a = Ok o /\ In e o.
Proof.
  revert out. induction l as [| b l IH]; intros out H Hin; cbn in H.
  - injection H as <-. destruct Hin.
  - destruct (f b) as [o1 | ?] eqn:H1; cbn in H; [| discriminate].
    destruct (collect f l) as [o2 | ?] eqn:H2; cbn in H; [| discriminate].
    injection H as <-. apply in_app_or in Hin as [Hin | Hin].
    + exists b, o1. repeat split; [now left | assumption | assumption].
    + destruct (IH o2 eq_refl Hin) as (a & o & Ha & Ho & He).
      exists a, o. repeat split; [now right | assumption | assumption].
Qed.

(** *** The matcher loop *)

Lemma for_fold_check_matcher version matcher_list has_default errors :
  Acc.for_fold (check_matcher version) matcher_list has_default errors
  = extend errors (matchers_result version matcher_list has_default).
Proof.
  revert has_default errors.
  induction matcher_list as [| m l IH]; intros has_default errors; cbn.
  - now rewrite app_nil_r.
  - unfold Acc.bind. destruct m as [s | l' | d]; try reflexivity.
    rewrite check_matcher_dict.
    destruct (matcher_result version has_default d) as [[h1 o1] | e]; cbn;
      [| reflexivity].
    rewrite IH.
    destruct (matchers_result version l h1) as [[h2 o2] | e]; cbn; [| reflexivity].
    now rewrite app_assoc.
Qed.

(** *** One version entry *)

Lemma check_released_at_eq version details errors :
  check_released_at version details errors
  = unit_out errors (released_at_result version details).
Proof.
  unfold check_released_at, released_at_result.
  unfold fmt_missing_released_at, fmt_timestamp. rewrite !fmt_version_eq.
  unfold Acc.bind, Acc.lift, Acc.append_if, Acc.append, Acc.ret, Res.bind, appended.
  destruct (printable_scalar version);
    destruct (py_contains "released_at" details) as [[|] | e];
    cbv beta iota delta [negb unit_out]; try reflexivity;
    (destruct (py_getitem details "released_at") as [r | e]; [| reflexivity]);
    destruct (validate_iso8601 r) as [[|] | e];
    cbv beta iota delta [negb]; rewrite ?app_nil_r; reflexivity.
Qed.

Lemma check_matchers_eq version details errors :
  check_matchers version details errors
  = unit_out errors (entry_matchers_result version details).
Proof.
  unfold check_matchers, entry_matchers_result.
  unfold fmt_missing_matchers, fmt_missing_default. rewrite !fmt_version_eq.
  unfold Acc.bind, Acc.lift at 1 2 3, Acc.append, Res.bind, appended.
  destruct (py_contains "matchers" details) as [[|] | e];
    cbv beta iota delta [negb unit_out];
    try (destruct (printable_scalar version); reflexivity).
  destruct (py_getitem details "matchers") as [r | e]; [| reflexivity].
  destruct (py_iter r) as [ms | e]; [| reflexivity].
  rewrite for_fold_check_matcher.
  destruct (matchers_result version ms false) as [[[|] o] | e];
    unfold extend, Acc.append_if, Acc.append, Acc.ret;
    cbv beta iota delta [negb fst snd];
    destruct (printable_scalar version);
    rewrite ?app_nil_r, <- ?app_assoc; reflexivity.
Qed.

Lemma check_version_entry_eq item errors :
  check_version_entry item errors = unit_out errors (entry_result item).
Proof.
  destruct item as [version details].
  unfold check_version_entry, entry_result, Acc.bind. cbn [fst snd].
  rewrite check_released_at_eq.
  destruct (released_at_result version details) as [o1 | e]; cbn; [| reflexivity].
  rewrite check_matchers_eq.
  destruct (entry_matchers_result version details) as [o2 | e]; cbn; [| reflexivity].
  now rewrite app_assoc.
Qed.

(** *** One version key *)

Lemma check_version_key_eq version_list iv errors :
  check_version_key version_list iv errors
  = unit_out errors (key_result version_list iv).
Proof.
  destruct iv as [i version].
  unfold check_version_key, key_result.
  rewrite fmt_semver_eq.
  unfold Acc.bind, Acc.lift, Acc.append_if, Acc.append, Acc.ret, Res.bind, appended.
  cbn [fst snd].
  destruct (validate_semver version) as [ok | e]; [| reflexivity].
  destruct (printable_scalar version) eqn:Ev, (0 <? i)%nat.
  - destruct ok; cbv beta iota delta [negb];
      (destruct (list_index version_list (i - 1)) as [prev | e]; [| reflexivity]);
      rewrite fmt_order_eq, Ev;
      (destruct (py_le version prev) as [[|] | e]; [| | reflexivity]);
      destruct (printable_scalar prev);
      cbn; rewrite ?app_nil_r, <- ?app_assoc; reflexivity.
  - destruct ok; cbn; rewrite ?app_nil_r; reflexivity.
  - destruct ok; cbv beta iota delta [negb]; [| reflexivity];
      (destruct (list_index version_list (i - 1)) as [prev | e]; [| reflexivity]);
      rewrite fmt_order_eq, Ev;
      (destruct (py_le version prev) as [[|] | e]; [| | reflexivity]);
      destruct (printable_scalar prev);
      cbn; rewrite ?app_nil_r, <- ?app_assoc; reflexivity.
  - destruct ok; cbn; rewrite ?app_nil_r; reflexivity.
Qed.

(** *** The whole validator *)

Lemma validate_manifest_eq data :
  validate_manifest data
  = (missing <- lacks_versions data ;;
     if missing : bool then Ok [msg_missing_versions]
     else
       versions <- py_getitem data "versions" ;;
       if negb (truthy versions) then Ok [msg_no_versions]
       else
         match versions with
         | VDict items => loops_result items
         | _ => Raise AttributeError
         end)%res.
Proof.
  unfold validate_manifest, loops_result, Res.bind.
  destruct (lacks_versions data) as [[|] | e]; try reflexivity.
  destruct (py_getitem data "versions") as [versions | e]; [| reflexivity].
  destruct (negb (truthy versions)); [reflexivity |].
  destruct versions as [s | l | items]; try reflexivity.
  cbn [py_keys py_items].
  rewrite (for_each_collect _ (key_result (map fst items)))
    by apply check_version_key_eq.
  destruct (collect (key_result (map fst items)) _) as [e1 | e]; cbn;
    [| reflexivity].
  rewrite (for_each_collect _ entry_result) by apply check_version_entry_eq.
  destruct (collect entry_result items) as [e2 | e]; reflexivity.
Qed.

(** With a [versions] mapping in place the validator is the two loops,
    unless the mapping is empty. *)
Lemma dict_lookup_existsb k d v :
  dict_lookup k d = Some v -> existsb (fun kv => scalar_is_str k (fst kv)) d = true.
Proof.
  induction d as [| [k' v'] d IH]; cbn; [discriminate |].
  destruct (scalar_is_str k k'); [reflexivity | auto].
Qed.

Lemma dict_lookup_none k d :
  dict_lookup k d = None -> existsb (fun kv => scalar_is_str k (fst kv)) d = false.
Proof.
  induction d as [| [k' v'] d IH]; cbn; [reflexivity |].
  destruct (scalar_is_str k k'); [discriminate | auto].
Qed.

Lemma py_getitem_ok x k v :
  py_getitem x k = Ok v <-> exists d, x = VDict d /\ dict_lookup k d = Some v.
Proof.
  split.
  - destruct x as [s | l | d]; cbn; try discriminate.
    destruct (dict_lookup k d) as [v' |] eqn:E; [| discriminate].
    intros H. injection H as <-. now exists d.
  - intros (d & -> & H). cbn. now rewrite H.
Qed.

Lemma lacks_versions_present data versions :
  py_getitem data "versions" = Ok versions -> lacks_versions data = Ok false.
Proof.
  intros H. apply py_getitem_ok in H as (d & -> & H).
  unfold lacks_versions. cbn.
  rewrite (dict_lookup_existsb _ _ _ H).
  destruct d; [discriminate | reflexivity].
Qed.

Lemma validate_manifest_versions data items :
  py_getitem data "versions" = Ok (VDict items) ->
  validate_manifest data
  = match items with
    | [] => Ok [msg_no_versions]
    | _ :: _ => loops_result items
    end.
Proof.
  intros H. rewrite validate_manifest_eq.
  rewrite (lacks_versions_present _ _ H). cbn. rewrite H. cbn.
  now destruct items.
Qed.

Lemma loops_result_ok items errs :
  loops_result items = Ok errs <->
  exists e1 e2,
    collect (key_result (map fst items)) (enumerate (map fst items)) = Ok e1
    /\ collect entry_result items = Ok e2
    /\ errs = (e1 ++ e2)%list.
Proof.
  unfold loops_result, Res.bind. split.
  - destruct (collect (key_result _) _) as [e1 | ?]; [| discriminate].
    destruct (collect entry_result items) as [e2 | ?]; [| discriminate].
    intros H. injection H as <-. now exists e1, e2.
  - intros (e1 & e2 & -> & -> & ->). reflexivity.
Qed.

(** *** Positions *)

Lemma combine_seq_nth {A} (l : list A) start i a :
  nth_error l i = Some a -> In ((start + i)%nat, a) (combine (seq start (List.length l)) l).
Proof.
  revert start i. induction l as [| b l IH]; intros start [| i] H; cbn in *;
    try discriminate.
  - injection H as ->. left. f_equal. lia.
  - right. replace (start + S i)%nat with (S start + i)%nat by lia. now apply IH.
Qed.

Lemma enumerate_nth {A} (l : list A) i a :
  nth_error l i = Some a -> In (i, a) (enumerate l).
Proof. intros H. apply (combine_seq_nth l 0 i a H). Qed.

Lemma combine_seq_In {A} (l : list A) start i a :
  In (i, a) (combine (seq start (List.length l)) l) ->
  (start <= i)%nat /\ nth_error l (i - start) = Some a.
Proof.
  revert start. induction l as [| b l IH]; intros start H; cbn in H; [destruct H |].
  destruct H as [H | H].
  - injection H as <- <-. split; [lia |]. now rewrite Nat.sub_diag.
  - apply IH in H as [Hle H]. split; [lia |].
    replace (i - start)%nat with (S (i - S start)) by lia. exact H.
Qed.

Lemma enumerate_In {A} (l : list A) i a :
  In (i, a) (enumerate l) -> nth_error l i = Some a.
Proof.
  intros H. apply combine_seq_In in H as [_ H]. now rewrite Nat.sub_0_r in H.
Qed.

(** *** Which messages each part can produce *)

(** What a matcher's iteration has done when it returns: the [continue]
    of an unknown type, or the three checks of a known one. *)
Lemma matcher_result_ok version has_default d has_default' out :
  matcher_result version has_default d = Ok (has_default', out) ->
  (py_in_set (field "matcher_type" d) MATCHER_TYPES = Ok false
   /\ has_default' = has_default
   /\ out = [msg_matcher_type version (field "matcher_type" d)]
   /\ printable_scalar version && printable (field "matcher_type" d) = true)
  \/ (py_in_set (field "matcher_type" d) MATCHER_TYPES = Ok true
      /\ exists bc bh ok,
          (if value_is_str "country" (field "matcher_type" d)
           then falsy_or_not_in (field "matcher_value" d) VALID_COUNTRIES
           else Ok false) = Ok bc
          /\ (if value_is_str "location_hash" (field "matcher_type" d)
              then falsy_or_bad_hash (field "matcher_value" d)
              else Ok false) = Ok bh
          /\ py_in_set (field "severity" d) SEVERITY_VALUES = Ok ok
          /\ has_default'
             = (if value_is_str "default" (field "matcher_type" d)
                then true else has_default)
          /\ out = ((if bc then [msg_country version (field "matcher_value" d)]
                     else [])
                    ++ (if bh then [msg_location_hash version] else [])
                    ++ (if ok then []
                        else [msg_severity version (field "severity" d)]))%list).
Proof.
  unfold matcher_result, Res.bind.
  destruct (py_in_set (field "matcher_type" d) MATCHER_TYPES) as [[|] | ?];
    cbv beta iota delta [negb]; try discriminate.
  - destruct (if value_is_str "country" _ then _ else _) as [bc | ?]; [| discriminate].
    destruct (appended bc _ _) as [oc | ?] eqn:Ec; [| discriminate].
    destruct (if value_is_str "location_hash" _ then _ else _) as [bh | ?];
      [| discriminate].
    destruct (appended bh _ _) as [oh | ?] eqn:Eh; [| discriminate].
    destruct (py_in_set (field "severity" d) SEVERITY_VALUES) as [ok | ?];
      [| discriminate].
    destruct (appended _ (_ && printable (field "severity" d)) _)
      as [os | ?] eqn:Es; [| discriminate].
    apply appended_ok in Ec, Eh, Es. subst oc oh os.
    intros H. injection H as <- <-. right. split; [reflexivity |].
    exists bc, bh, ok. repeat split. now destruct ok.
  - destruct (printable_scalar version && printable (field "matcher_type" d));
      cbn; [| discriminate].
    intros H. injection H as <- <-. left. auto.
Qed.

Lemma matcher_result_msgs version has_default d has_default' out :
  matcher_result version has_default d = Ok (has_default', out) ->
  Forall (matcher_msg version) out.
Proof.
  intros H.
  destruct (matcher_result_ok _ _ _ _ _ H)
    as [(_ & _ & -> & _) | (_ & bc & bh & ok & _ & _ & _ & _ & ->)].
  - repeat constructor.
  - destruct bc, bh, ok; cbn; repeat constructor.
Qed.

Lemma matchers_result_msgs version matcher_list has_default has_default' out :
  matchers_result version matcher_list has_default = Ok (has_default', out) ->
  Forall (matcher_msg version) out.
Proof.
  revert has_default out.
  induction matcher_list as [| m l IH]; intros has_default out; cbn.
  - intros H. injection H as _ <-. constructor.
  - destruct m as [s | l' | d]; try discriminate. unfold Res.bind.
    destruct (matcher_result version has_default d) as [[h1 o1] | ?] eqn:H1;
      [| discriminate].
    cbn [fst snd].
    destruct (matchers_result version l h1) as [[h2 o2] | ?] eqn:H2; [| discriminate].
    intros H. injection H as <- <-. apply Forall_app. split.
    + eapply matcher_result_msgs; eassumption.
    + eapply IH; eassumption.
Qed.

(** What the [released_at] check has done when it returns. *)
Lemma released_at_result_ok version details out :
  released_at_result version details = Ok out ->
  (py_contains "released_at" details = Ok false
   /\ out = [msg_missing_released_at version])
  \/ (py_contains "released_at" details = Ok true
      /\ exists released_at ok,
          py_getitem details "released_at" = Ok released_at
          /\ validate_iso8601 released_at = Ok ok
          /\ out = if ok then [] else [msg_timestamp version]).
Proof.
  unfold released_at_result, Res.bind.
  destruct (py_contains "released_at" details) as [[|] | ?];
    cbv beta iota delta [negb]; try discriminate.
  - destruct (py_getitem details "released_at") as [r | ?]; [| discriminate].
    destruct (validate_iso8601 r) as [ok | ?] eqn:Ev; [| discriminate].
    intros H. apply appended_ok in H. subst out. right. split; [reflexivity |].
    exists r, ok. repeat split; [assumption |]. now destruct ok.
  - intros H. apply appended_ok in H. auto.
Qed.

Lemma released_at_result_cases version details out :
  released_at_result version details = Ok out ->
  out = [] \/ out = [msg_missing_released_at version] \/ out = [msg_timestamp version].
Proof.
  intros H.
  destruct (released_at_result_ok _ _ _ H)
    as [(_ & ->) | (_ & r & ok & _ & _ & ->)]; [auto |].
  destruct ok; auto.
Qed.

(** What the matcher part of an entry has done when it returns. *)
Lemma entry_matchers_result_ok version details out :
  entry_matchers_result version details = Ok out ->
  (py_contains "matchers" details = Ok false
   /\ out = [msg_missing_matchers version])
  \/ (py_contains "matchers" details = Ok true
      /\ exists matchers matcher_list has_default mo,
          py_getitem details "matchers" = Ok matchers
          /\ py_iter matchers = Ok matcher_list
          /\ matchers_result version matcher_list false = Ok (has_default, mo)
          /\ out = (mo ++ (if has_default then []
                           else [msg_missing_default version]))%list).
Proof.
  unfold entry_matchers_result, Res.bind.
  destruct (py_contains "matchers" details) as [[|] | ?];
    cbv beta iota delta [negb]; try discriminate.
  - destruct (py_getitem details "matchers") as [m | ?]; [| discriminate].
    destruct (py_iter m) as [ms | ?] eqn:Ei; [| discriminate].
    destruct (matchers_result version ms false) as [[h mo] | ?] eqn:Em;
      [| discriminate].
    cbn [fst snd].
    destruct (appended _ (printable_scalar version) _) as [o | ?] eqn:Eo;
      [| discriminate].
    apply appended_ok in Eo. subst o.
    intros H. injection H as <-. right. split; [reflexivity |].
    exists m, ms, h, mo. repeat split; try assumption. now destruct h.
  - intros H. apply appended_ok in H. auto.
Qed.

Lemma entry_result_msgs version details out :
  entry_result (version, details) = Ok out -> Forall (entry_msg version) out.
Proof.
  unfold entry_result, Res.bind. cbn [fst snd].
  destruct (released_at_result version details) as [o1 | ?] eqn:H1; [| discriminate].
  destruct (entry_matchers_result version details) as [o2 | ?] eqn:H2;
    [| discriminate].
  intros H. injection H as <-. apply Forall_app. split.
  - apply released_at_result_cases in H1 as [-> | [-> | ->]]; repeat constructor.
  - destruct (entry_matchers_result_ok _ _ _ H2)
      as [(_ & ->) | (_ & r & ms & h & o & _ & _ & Hm & ->)].
    + repeat constructor.
    + apply Forall_app. split.
      * apply matchers_result_msgs in Hm.
        eapply Forall_impl; [| exact Hm]. intros e He. now constructor.
      * destruct h; constructor; [apply em_missing_default | constructor].
Qed.

(** The keys that get as far as being printed are strings, so the
    f-strings of the key loop always return. *)
Lemma key_result_eq version_list iv :
  key_result version_list iv
  = (ok <- validate_semver (snd iv) ;;
     if (0 <? fst iv)%nat then
       prev_version <- list_index version_list (fst iv - 1) ;;
       le <- py_le (snd iv) prev_version ;;
       Ok ((if ok then [] else [msg_semver (snd iv)])
             ++ (if le then [msg_order prev_version (snd iv)] else []))%list
     else Ok (if ok then [] else [msg_semver (snd iv)]))%res.
Proof.
  unfold key_result, Res.bind.
  destruct (snd iv) as [| b | z | s]; try reflexivity.
  cbn [validate_semver printable_scalar]. rewrite appended_true.
  destruct (0 <? fst iv)%nat; [| now destruct (re_match_anchored _ _)].
  destruct (list_index version_list (fst iv - 1)) as [[| b | z | p] | e];
    try reflexivity.
  cbn [py_le printable_scalar andb]. rewrite appended_true.
  now destruct (re_match_anchored _ _).
Qed.

Lemma key_result_msgs version_list iv out :
  key_result version_list iv = Ok out -> Forall key_msg out.
Proof.
  rewrite key_result_eq. unfold Res.bind.
  destruct (validate_semver (snd iv)) as [ok | ?]; [| discriminate].
  destruct (0 <? fst iv)%nat.
  - destruct (list_index version_list (fst iv - 1)) as [prev | ?]; [| discriminate].
    destruct (py_le (snd iv) prev) as [le | ?]; [| discriminate].
    intros H. injection H as <-. destruct ok, le; cbn; repeat constructor.
  - intros H. injection H as <-. destruct ok; repeat constructor.
Qed.

Lemma collect_key_msgs version_list l out :
  collect (key_result version_list) l = Ok out -> Forall key_msg out.
Proof.
  intros H. apply Forall_forall. intros e He.
  destruct (collect_In _ _ _ _ H He) as (iv & o & _ & Ho & Hin).
  apply key_result_msgs in Ho. rewrite Forall_forall in Ho. auto.
Qed.

Lemma collect_entry_msgs items out e :
  collect entry_result items = Ok out -> In e out ->
  exists version details o,
    In (version, details) items
    /\ entry_result (version, details) = Ok o
    /\ In e o /\ entry_msg version e.
Proof.
  intros H He.
  destruct (collect_In _ _ _ _ H He) as ([version details] & o & Hi & Ho & Hin).
  exists version, details, o. repeat split; try assumption.
  apply entry_result_msgs in Ho. rewrite Forall_forall in Ho. auto.
Qed.

(** A successful run has checked every key, so every key is a string. *)
Lemma validate_semver_ok version ok :
  validate_semver version = Ok ok -> exists s, version = SStr s.
Proof. destruct version as [| b | z | s]; try discriminate. now exists s. Qed.

Lemma collect_keys_str version_list out version :
  collect (key_result version_list) (enumerate version_list) = Ok out ->
  In version version_list -> exists s, version = SStr s.
Proof.
  intros H Hin. apply In_nth_error in Hin as (i & Hi).
  apply enumerate_nth in Hi.
  destruct (collect_incl _ _ _ (i, version) H Hi) as (o & Ho & _).
  rewrite key_result_eq in Ho. unfold Res.bind in Ho. cbn [fst snd] in Ho.
  destruct (validate_semver version) as [ok | ?] eqn:E; [| discriminate].
  eapply validate_semver_ok; eassumption.
Qed.

(** ** The loop over the version keys *)

(** What the iteration for the key after [a] appends. *)
Lemma key_result_adjacent version_list i a b :
  nth_error version_list i = Some (SStr a) ->
  key_result version_list (S i, SStr b)
  = Ok ((if re_match_anchored semver_pattern b then [] else [msg_semver (SStr b)])
          ++ (if String.leb b a then [msg_order (SStr a) (SStr b)] else []))%list.
Proof.
  intros Ha. rewrite key_result_eq.
  unfold Res.bind, list_index. cbn [fst snd validate_semver].
  replace (S i - 1)%nat with i by lia. rewrite Ha. reflexivity.
Qed.

Lemma loops_adjacent_keys items errs i a b :
  loops_result items = Ok errs ->
  nth_error (map fst items) i = Some (SStr a) ->
  nth_error (map fst items) (S i) = Some (SStr b) ->
  incl ((if re_match_anchored semver_pattern b then [] else [msg_semver (SStr b)])
          ++ (if String.leb b a then [msg_order (SStr a) (SStr b)] else []))%list errs.
Proof.
  intros H Ha Hb. apply loops_result_ok in H as (e1 & e2 & H1 & _ & ->).
  apply enumerate_nth in Hb.
  destruct (collect_incl _ _ _ _ H1 Hb) as (o & Ho & Hi).
  rewrite (key_result_adjacent _ _ _ b Ha) in Ho. injection Ho as <-.
  now apply incl_appl.
Qed.

Lemma validate_loops data items errs i k :
  validate_manifest data = Ok errs ->
  py_getitem data "versions" = Ok (VDict items) ->
  nth_error (map fst items) i = Some k ->
  loops_result items = Ok errs.
Proof.
  intros H Hv Hk. rewrite (validate_manifest_versions _ _ Hv) in H.
  destruct items; [destruct i; discriminate | assumption].
Qed.

(** C4: for every pair of adjacent version keys [a], [b] (in the order of
    the mapping) with [b <= a] as strings, compared character by character
    and not as numbers, the output of the validator contains
    "Versions not in ascending order: a -> b".  In particular the keys
    "2.0.0", "10.0.0" in that order produce the error, and the keys
    "10.0.0", "2.0.0" in that order do not. *)
Theorem ordering_error_for_adjacent_keys :
  (forall data items errs i a b,
      validate_manifest data = Ok errs ->
      py_getitem data "versions" = Ok (VDict items) ->
      nth_error (map fst items) i = Some (SStr a) ->
      nth_error (map fst items) (S i) = Some (SStr b) ->
      String.leb b a = true ->
      In ("Versions not in ascending order: " ++ a ++ " -> " ++ b) errs)
  /\ (forall d1 d2 errs,
         validate_manifest
           (VDict [(SStr "versions",
                    VDict [(SStr "2.0.0", d1); (SStr "10.0.0", d2)])]) = Ok errs ->
         In "Versions not in ascending order: 2.0.0 -> 10.0.0" errs)
  /\ (forall d1 d2 errs,
         validate_manifest
           (VDict [(SStr "versions",
                    VDict [(SStr "10.0.0", d1); (SStr "2.0.0", d2)])]) = Ok errs ->
         ~ In "Versions not in ascending order: 10.0.0 -> 2.0.0" errs).
Proof.
  assert (General : forall data items errs i a b,
      validate_manifest data = Ok errs ->
      py_getitem data "versions" = Ok (VDict items) ->
      nth_error (map fst items) i = Some (SStr a) ->
      nth_error (map fst items) (S i) = Some (SStr b) ->
      String.leb b a = true ->
      In (msg_order (SStr a) (SStr b)) errs).
  { intros data items errs i a b H Hv Ha Hb Hle.
    pose proof (validate_loops _ _ _ _ _ H Hv Ha) as HL.
    apply (loops_adjacent_keys _ _ _ _ _ HL Ha Hb). rewrite Hle.
    apply in_or_app. right. now left. }
  split; [exact General | split].
  - intros d1 d2 errs H.
    apply (General _ [(SStr "2.0.0", d1); (SStr "10.0.0", d2)] _ 0%nat "2.0.0" "10.0.0" H);
      reflexivity.
  - intros d1 d2 errs H Hin.
    rewrite (validate_manifest_versions
               (VDict [(SStr "versions",
                        VDict [(SStr "10.0.0", d1); (SStr "2.0.0", d2)])])
               [(SStr "10.0.0", d1); (SStr "2.0.0", d2)] eq_refl) in H.
    apply loops_result_ok in H as (e1 & e2 & H1 & H2 & ->).
    vm_compute in H1. injection H1 as <-. cbn [app] in Hin.
    destruct (collect_entry_msgs _ _ _ H2 Hin) as (v & d & o & _ & _ & _ & Hm).
    apply entry_msg_head in Hm. discriminate.
Qed.

(** C10: the ordering check of a key does not look at the outcome of the
    format check.  The iteration for a key [b] that follows [a] appends the
    format error when [b] is not a semantic version and, whatever the format
    check said of either key, the ordering error when [b <= a]; so one
    adjacent pair can put both errors in the output. *)
Theorem ordering_check_independent_of_format :
  (forall version_list i a b errors,
      nth_error version_list i = Some (SStr a) ->
      check_version_key version_list (S i, SStr b) errors
      = Ok (tt, errors
                  ++ (if re_match_anchored semver_pattern b then []
                      else [("Invalid semantic version format: " ++ b)%string])
                  ++ (if String.leb b a
                      then [("Versions not in ascending order: "
                               ++ a ++ " -> " ++ b)%string]
                      else []))%list)
  /\ (forall data items errs i a b,
         validate_manifest data = Ok errs ->
         py_getitem data "versions" = Ok (VDict items) ->
         nth_error (map fst items) i = Some (SStr a) ->
         nth_error (map fst items) (S i) = Some (SStr b) ->
         String.leb b a = true ->
         validate_semver (SStr b) = Ok false ->
         In ("Invalid semantic version format: " ++ b) errs
         /\ In ("Versions not in ascending order: " ++ a ++ " -> " ++ b) errs).
Proof.
  split.
  - intros version_list i a b errors Ha.
    rewrite check_version_key_eq, (key_result_adjacent _ _ _ b Ha). reflexivity.
  - intros data items errs i a b H Hv Ha Hb Hle Hsem.
    pose proof (validate_loops _ _ _ _ _ H Hv Ha) as HL.
    pose proof (loops_adjacent_keys _ _ _ _ _ HL Ha Hb) as Hi.
    injection Hsem as Hsem. rewrite Hsem, Hle in Hi.
    split; apply Hi; cbn; auto.
Qed.

(** ** The version entries *)

Lemma py_contains_dict k d :
  py_contains k (VDict d)
  = Ok (match dict_lookup k d with Some _ => true | None => false end).
Proof.
  cbn. destruct (dict_lookup k d) as [v |] eqn:E.
  - now rewrite (dict_lookup_existsb _ _ _ E).
  - now rewrite (dict_lookup_none _ _ E).
Qed.

(** Under a string key the f-strings of the entry always return. *)
Lemma released_at_result_dict v d :
  released_at_result (SStr v) (VDict d)
  = match dict_lookup "released_at" d with
    | None => Ok [msg_missing_released_at (SStr v)]
    | Some (VScalar (SStr s)) =>
        Ok (if fromisoformat (str_replace "Z"%char "+00:00" s) then []
            else [msg_timestamp (SStr v)])
    | Some _ => Raise AttributeError
    end.
Proof.
  unfold released_at_result. rewrite py_contains_dict. cbn.
  destruct (dict_lookup "released_at" d) as [[[| b | z | s] | l | d'] |];
    try reflexivity.
  cbn. now destruct (fromisoformat _).
Qed.

Lemma entry_matchers_result_list version details matcher_list :
  py_getitem details "matchers" = Ok (VList matcher_list) ->
  entry_matchers_result version details
  = (r <- matchers_result version matcher_list false ;;
     o <- appended (negb (fst r)) (printable_scalar version)
            (msg_missing_default version) ;;
     Ok (snd r ++ o)%list)%res.
Proof.
  intros H. apply py_getitem_ok in H as (d & -> & H).
  unfold entry_matchers_result. rewrite py_contains_dict. cbn. rewrite H.
  reflexivity.
Qed.

Lemma entry_matchers_result_str v details matcher_list :
  py_getitem details "matchers" = Ok (VList matcher_list) ->
  entry_matchers_result (SStr v) details
  = (r <- matchers_result (SStr v) matcher_list false ;;
     Ok (snd r ++ (if fst r then [] else [msg_missing_default (SStr v)]))%list)%res.
Proof.
  intros H. rewrite (entry_matchers_result_list _ _ _ H). unfold Res.bind.
  destruct (matchers_result (SStr v) matcher_list false) as [[h o] | e];
    [| reflexivity].
  cbn [fst snd printable_scalar]. rewrite appended_true. now destruct h.
Qed.

Lemma entry_result_ok item out :
  entry_result item = Ok out <->
  exists o1 o2,
    released_at_result (fst item) (snd item) = Ok o1
    /\ entry_matchers_result (fst item) (snd item) = Ok o2
    /\ out = (o1 ++ o2)%list.
Proof.
  unfold entry_result, Res.bind. split.
  - destruct (released_at_result _ _) as [o1 | ?]; [| discriminate].
    destruct (entry_matchers_result _ _) as [o2 | ?]; [| discriminate].
    intros H. injection H as <-. now exists o1, o2.
  - intros (o1 & o2 & -> & -> & ->). reflexivity.
Qed.

(** What the loops found for one entry of the mapping. *)
Lemma loops_entry items errs version details :
  loops_result items = Ok errs ->
  In (version, details) items ->
  exists o1 o2,
    released_at_result version details = Ok o1
    /\ entry_matchers_result version details = Ok o2
    /\ incl (o1 ++ o2) errs.
Proof.
  intros H Hin. apply loops_result_ok in H as (e1 & e2 & _ & H2 & ->).
  destruct (collect_incl _ _ _ _ H2 Hin) as (o & Ho & Hi).
  apply entry_result_ok in Ho as (o1 & o2 & H1 & Ho2 & ->).
  exists o1, o2. repeat split; try assumption. now apply incl_appr.
Qed.

Lemma validate_loops_entry data items errs item :
  validate_manifest data = Ok errs ->
  py_getitem data "versions" = Ok (VDict items) ->
  In item items ->
  loops_result items = Ok errs.
Proof.
  intros H Hv Hin. rewrite (validate_manifest_versions _ _ Hv) in H.
  destruct items; [destruct Hin | assumption].
Qed.

(** *** The matchers of an entry *)

Lemma matcher_result_has_default version has_default d has_default' out :
  matcher_result version has_default d = Ok (has_default', out) ->
  has_default' = has_default || is_default_matcher (VDict d).
Proof.
  intros H. unfold is_default_matcher.
  destruct (matcher_result_ok _ _ _ _ _ H)
    as [(Hk & -> & _) | (_ & bc & bh & ok & _ & _ & _ & -> & _)].
  - destruct (value_is_str "default" (field "matcher_type" d)) eqn:E.
    + apply value_is_str_eq in E. rewrite E in Hk. discriminate.
    + now rewrite orb_false_r.
  - destruct (value_is_str "default" _), has_default; reflexivity.
Qed.

Lemma matchers_result_has_default version matcher_list has_default has_default' out :
  matchers_result version matcher_list has_default = Ok (has_default', out) ->
  has_default' = has_default || existsb is_default_matcher matcher_list.
Proof.
  revert has_default out.
  induction matcher_list as [| m l IH]; intros has_default out; cbn.
  - intros H. injection H as <- _. now rewrite orb_false_r.
  - destruct m as [s | l' | d]; try discriminate. unfold Res.bind.
    destruct (matcher_result version has_default d) as [[h1 o1] | ?] eqn:H1;
      [| discriminate].
    cbn [fst snd].
    destruct (matchers_result version l h1) as [[h2 o2] | ?] eqn:H2; [| discriminate].
    intros H. injection H as <- _.
    apply matcher_result_has_default in H1. apply IH in H2.
    rewrite H2, H1. cbn [is_default_matcher]. now rewrite orb_assoc.
Qed.

(** Each matcher of a successful loop is a mapping, and its errors are in
    the output of the loop. *)
Lemma matchers_result_In version matcher_list has_default has_default' out m :
  matchers_result version matcher_list has_default = Ok (has_default', out) ->
  In m matcher_list ->
  exists d h h' o,
    m = VDict d /\ matcher_result version h d = Ok (h', o) /\ incl o out.
Proof.
  revert has_default out.
  induction matcher_list as [| m' l IH]; intros has_default out H Hin;
    [destruct Hin |].
  cbn in H. destruct m' as [s | l' | d]; try discriminate. unfold Res.bind in H.
  destruct (matcher_result version has_default d) as [[h1 o1] | ?] eqn:H1;
    [| discriminate].
  cbn [fst snd] in H.
  destruct (matchers_result version l h1) as [[h2 o2] | ?] eqn:H2; [| discriminate].
  injection H as <- <-. destruct Hin as [<- | Hin].
  - exists d, has_default, h1, o1. repeat split; [assumption | now apply incl_appl].
  - destruct (IH _ _ H2 Hin) as (d' & h & h' & o & -> & Ho & Hi).
    exists d', h, h', o. repeat split; [assumption | now apply incl_appr].
Qed.

(** The errors of the matcher [m] of an entry are in the output. *)
Lemma loops_matcher items errs version details matcher_list d :
  loops_result items = Ok errs ->
  In (version, details) items ->
  py_getitem details "matchers" = Ok (VList matcher_list) ->
  In (VDict d) matcher_list ->
  exists h h' o, matcher_result version h d = Ok (h', o) /\ incl o errs.
Proof.
  intros H Hin Hm Hd.
  destruct (loops_entry _ _ _ _ H Hin) as (o1 & o2 & _ & H2 & Hi).
  rewrite (entry_matchers_result_list _ _ _ Hm) in H2. unfold Res.bind in H2.
  destruct (matchers_result version matcher_list false) as [[hd mo] | ?] eqn:E;
    [| discriminate].
  cbn [fst snd] in H2. appended_returned H2.
  injection H2 as <-.
  destruct (matchers_result_In _ _ _ _ _ _ E Hd) as (d' & h & h' & o & Ed & Ho & Hio).
  injection Ed as <-. exists h, h', o. split; [assumption |].
  intros e He. apply Hi. apply in_or_app. right.
  apply in_or_app. left. now apply Hio.
Qed.

Lemma msg_version_neq v r1 r2 : r1 <> r2 -> msg_version v r1 <> msg_version v r2.
Proof. intros H E. apply H. eapply msg_version_inv_rest. exact E. Qed.

(** C6: in a run that returns, a matcher whose [matcher_type] is not one
    of default, country, location_hash puts the invalid-matcher_type error
    naming that type in the output, and its iteration appends nothing else,
    so no severity error whatever its severity is; a matcher whose type is
    one of the three and whose severity is not one of green, yellow, red
    (an absent severity is rendered as None) puts the invalid-severity
    error in the output. *)
Theorem invalid_matcher_type_skips_severity :
  forall data items errs version details matcher_list d,
    validate_manifest data = Ok errs ->
    py_getitem data "versions" = Ok (VDict items) ->
    In (version, details) items ->
    py_getitem details "matchers" = Ok (VList matcher_list) ->
    In (VDict d) matcher_list ->
    let matcher_type := field "matcher_type" d in
    let severity := field "severity" d in
    ((forall t, In t MATCHER_TYPES -> matcher_type <> VStr t) ->
     In (msg_matcher_type version matcher_type) errs
     /\ (forall has_default errors,
            check_matcher version has_default (VDict d) errors
            = Ok (has_default,
                  (errors ++ [msg_matcher_type version matcher_type])%list))
     /\ (forall x, msg_matcher_type version matcher_type <> msg_severity version x))
    /\ ((exists t, In t MATCHER_TYPES /\ matcher_type = VStr t) ->
        (forall s, In s SEVERITY_VALUES -> severity <> VStr s) ->
        In (msg_severity version severity) errs)
    /\ ((exists t, In t MATCHER_TYPES /\ matcher_type = VStr t) ->
        dict_lookup "severity" d = None ->
        In (msg_version version ": invalid severity 'None'") errs).
Proof.
  intros data items errs version details matcher_list d H Hv Hin Hm Hd
    matcher_type severity.
  pose proof (validate_loops_entry _ _ _ _ H Hv Hin) as HL.
  destruct (loops_matcher _ _ _ _ _ _ HL Hin Hm Hd) as (h & h' & o & Ho & Hi).
  pose proof (matcher_result_ok _ _ _ _ _ Ho) as Hr.
  fold matcher_type severity in Hr.
  assert (Sev : (exists t, In t MATCHER_TYPES /\ matcher_type = VStr t) ->
                (forall s, In s SEVERITY_VALUES -> severity <> VStr s) ->
                In (msg_severity version severity) errs).
  { intros (t & Ht & Et) Hs.
    assert (K : py_in_set matcher_type MATCHER_TYPES = Ok true)
      by (apply py_in_set_true; now exists t).
    destruct Hr as [(K' & _) | (_ & bc & bh & ok & _ & _ & Es & _ & ->)];
      [congruence |].
    destruct ok.
    - apply py_in_set_true in Es as (s & Es & Hs'). now destruct (Hs s Hs').
    - apply Hi. apply in_or_app. right. apply in_or_app. right. now left. }
  split; [| split].
  - intros Hout.
    assert (K : py_in_set matcher_type MATCHER_TYPES = Ok false).
    { destruct (py_in_set matcher_type MATCHER_TYPES) as [[|] | ?] eqn:K.
      - apply py_in_set_true in K as (t & Et & Ht). now destruct (Hout t Ht).
      - reflexivity.
      - destruct Hr as [(K' & _) | (K' & _)]; discriminate. }
    destruct Hr as [(_ & _ & -> & Hp) | (K' & _)]; [| congruence].
    split; [| split].
    + apply Hi. now left.
    + intros has_default errors. rewrite check_matcher_dict.
      unfold matcher_result, Res.bind. fold matcher_type. rewrite K.
      cbv beta iota delta [negb]. rewrite Hp. reflexivity.
    + intros x. apply msg_version_neq. discriminate.
  - exact Sev.
  - intros Ht Hs.
    assert (E : severity = VNone) by (unfold severity, field; now rewrite Hs).
    specialize (Sev Ht). rewrite E in Sev. apply Sev. discriminate.
Qed.

Lemma NoDup_fst_unique {A B} (l : list (A * B)) k a b :
  NoDup (map fst l) -> In (k, a) l -> In (k, b) l -> a = b.
Proof.
  induction l as [| [k' c] l IH]; cbn; intros Hnd Ha Hb; [destruct Ha |].
  inversion Hnd as [| ? ? Hk Hnd']; subst.
  destruct Ha as [Ha | Ha], Hb as [Hb | Hb].
  - congruence.
  - injection Ha as -> ->. destruct Hk. apply (in_map fst) in Hb. exact Hb.
  - injection Hb as -> ->. destruct Hk. apply (in_map fst) in Ha. exact Ha.
  - auto.
Qed.

Lemma last_char_fixed v r c :
  r <> "" -> last_char r = Some c -> last_char (msg_version v r) = Some c.
Proof. intros Hr Hc. now rewrite last_char_msg_version. Qed.

(** A missing-default error in the output of an entry was appended by the
    check after the matcher loop, for that entry's key. *)
Lemma entry_default_inv version' details' out version :
  entry_result (version', details') = Ok out ->
  In (msg_missing_default version) out ->
  scalar_text version' = scalar_text version
  /\ exists matchers matcher_list mo,
      py_getitem details' "matchers" = Ok matchers
      /\ py_iter matchers = Ok matcher_list
      /\ matchers_result version' matcher_list false = Ok (false, mo).
Proof.
  intros H Hin.
  assert (L : last_char (msg_missing_default version) = Some "r"%char)
    by (apply last_char_fixed; [discriminate | reflexivity]).
  assert (Other : forall r c,
             r <> "" -> last_char r = Some c -> c <> "r"%char ->
             msg_version version' r <> msg_missing_default version).
  { intros r c Hr Hc Hne E. apply (f_equal last_char) in E.
    rewrite (last_char_fixed version' r c Hr Hc), L in E. congruence. }
  apply entry_result_ok in H as (o1 & o2 & H1 & H2 & ->). cbn [fst snd] in *.
  apply in_app_or in Hin as [Hin | Hin].
  - apply released_at_result_cases in H1 as [-> | [-> | ->]];
      [destruct Hin | |]; destruct Hin as [E | []]; exfalso.
    + refine (Other ": missing 'released_at'" "'"%char _ _ _ E);
        first [discriminate | reflexivity].
    + refine (Other ": invalid ISO 8601 timestamp" "p"%char _ _ _ E);
        first [discriminate | reflexivity].
  - destruct (entry_matchers_result_ok _ _ _ H2)
      as [(_ & ->) | (_ & matchers & matcher_list & h & mo & Hg & Hit & Hm & ->)].
    + destruct Hin as [E | []]. exfalso.
      refine (Other ": missing 'matchers'" "'"%char _ _ _ E);
        first [discriminate | reflexivity].
    + apply in_app_or in Hin as [Hin | Hin].
      * apply matchers_result_msgs in Hm. rewrite Forall_forall in Hm.
        now destruct (matcher_msg_not_default _ version _ (Hm _ Hin)).
      * destruct h; [destruct Hin |]. destruct Hin as [E | []]. split.
        -- eapply msg_version_inv_key. exact E.
        -- now exists matchers, matcher_list, mo.
Qed.

(** The outcome of a matcher does not depend on [has_default], which it
    can only raise. *)
Lemma matcher_result_normal version has_default d :
  matcher_result version has_default d
  = match matcher_result version false d with
    | Ok (h, o) => Ok (has_default || h, o)
    | Raise e => Raise e
    end.
Proof.
  unfold matcher_result, Res.bind.
  destruct (py_in_set (field "matcher_type" d) MATCHER_TYPES) as [[|] | ?];
    cbv beta iota delta [negb]; try reflexivity.
  - destruct (if value_is_str "country" _ then _ else _) as [bc | ?]; [| reflexivity].
    destruct (appended bc _ _) as [oc | ?]; [| reflexivity].
    destruct (if value_is_str "location_hash" _ then _ else _) as [bh | ?];
      [| reflexivity].
    destruct (appended bh _ _) as [oh | ?]; [| reflexivity].
    destruct (py_in_set (field "severity" d) SEVERITY_VALUES) as [ok | ?];
      [| reflexivity].
    destruct (appended _ (_ && printable (field "severity" d)) _) as [os | ?];
      [| reflexivity].
    destruct (value_is_str "default" _), has_default; reflexivity.
  - destruct (appended true _ _) as [o | ?]; [| reflexivity].
    now rewrite orb_false_r.
Qed.

Lemma matchers_result_normal version matcher_list has_default :
  matchers_result version matcher_list has_default
  = match matchers_result version matcher_list false with
    | Ok (h, o) => Ok (has_default || h, o)
    | Raise e => Raise e
    end.
Proof.
  revert has_default.
  induction matcher_list as [| m l IH]; intros has_default; cbn.
  - now rewrite orb_false_r.
  - destruct m as [s | l' | d]; try reflexivity. unfold Res.bind.
    rewrite (matcher_result_normal version has_default).
    destruct (matcher_result version false d) as [[h1 o1] | ?]; [| reflexivity].
    cbn [fst snd]. rewrite (IH (has_default || h1)), (IH h1).
    destruct (matchers_result version l false) as [[h2 o2] | ?]; [| reflexivity].
    cbn [fst snd]. now rewrite orb_assoc.
Qed.

Lemma matchers_result_app version ms1 ms2 has_default :
  matchers_result version (ms1 ++ ms2) has_default
  = (r1 <- matchers_result version ms1 has_default ;;
     r2 <- matchers_result version ms2 (fst r1) ;;
     Ok (fst r2, (snd r1 ++ snd r2)%list))%res.
Proof.
  revert has_default.
  induction ms1 as [| m l IH]; intros has_default; cbn.
  - destruct (matchers_result version ms2 has_default) as [[h o] | ?]; reflexivity.
  - destruct m as [s | l' | d]; try reflexivity. unfold Res.bind.
    destruct (matcher_result version has_default d) as [[h1 o1] | ?]; [| reflexivity].
    cbn [fst snd]. rewrite IH. unfold Res.bind.
    destruct (matchers_result version l h1) as [[h2 o2] | ?]; [| reflexivity].
    cbn [fst snd].
    destruct (matchers_result version ms2 h2) as [[h3 o3] | ?]; [| reflexivity].
    cbn [fst snd]. now rewrite app_assoc.
Qed.

(** C5: in a run that returns, for the version entry under key [v] with a
    [matchers] list, the output contains "Version v: missing default
    matcher" if and only if no matcher of the list has [matcher_type]
    "default".  A further default matcher is no error: putting one more
    valid default matcher anywhere into a list that already has one changes
    neither the errors nor [has_default]. *)
Theorem missing_default_iff_no_default_matcher :
  (forall data items errs v details matcher_list,
      validate_manifest data = Ok errs ->
      py_getitem data "versions" = Ok (VDict items) ->
      NoDup (map fst items) ->
      In (SStr v, details) items ->
      py_getitem details "matchers" = Ok (VList matcher_list) ->
      (In ("Version " ++ v ++ ": missing default matcher") errs
       <-> forall d, In (VDict d) matcher_list ->
                     field "matcher_type" d <> VStr "default"))
  /\ (forall version ms1 ms2 d has_default errors,
         field "matcher_type" d = VStr "default" ->
         py_in_set (field "severity" d) SEVERITY_VALUES = Ok true ->
         (exists d', In (VDict d') (ms1 ++ ms2)
                     /\ field "matcher_type" d' = VStr "default") ->
         Acc.for_fold (check_matcher version) (ms1 ++ VDict d :: ms2)
           has_default errors
         = Acc.for_fold (check_matcher version) (ms1 ++ ms2) has_default errors).
Proof.
  split.
  - intros data items errs v details matcher_list H Hv Hnd Hin Hm.
    pose proof (validate_loops_entry _ _ _ _ H Hv Hin) as HL.
    change ("Version " ++ v ++ ": missing default matcher")
      with (msg_missing_default (SStr v)).
    assert (Hex : existsb is_default_matcher matcher_list = false <->
                  forall d, In (VDict d) matcher_list ->
                            field "matcher_type" d <> VStr "default").
    { split.
      - intros E d Hd Ed.
        assert (T : existsb is_default_matcher matcher_list = true).
        { apply existsb_exists. exists (VDict d). split; [assumption |].
          cbn. now apply value_is_str_eq. }
        congruence.
      - intros Hall. destruct (existsb is_default_matcher matcher_list) eqn:E;
          [| reflexivity].
        apply existsb_exists in E as (m & Hmin & Em).
        destruct m as [s | l | d]; try discriminate.
        cbn in Em. apply value_is_str_eq in Em. now destruct (Hall d Hmin). }
    rewrite <- Hex. split.
    + intros He.
      pose proof HL as HL'.
      apply loops_result_ok in HL' as (e1 & e2 & H1 & H2 & ->).
      apply in_app_or in He as [He | He].
      * apply collect_key_msgs in H1. rewrite Forall_forall in H1.
        apply H1, key_msg_head in He. discriminate.
      * destruct (collect_entry_msgs _ _ _ H2 He)
          as (v' & d' & o & Hin' & Ho & Heo & _).
        destruct (entry_default_inv _ _ _ _ Ho Heo)
          as (Ek & matchers & ml & mo & Hg & Hit & Hr).
        destruct (collect_keys_str _ _ v' H1) as (s & ->);
          [apply (in_map fst) in Hin'; exact Hin' |].
        cbn in Ek. subst s.
        pose proof (NoDup_fst_unique _ _ _ _ Hnd Hin' Hin) as ->.
        rewrite Hm in Hg. injection Hg as <-. cbn in Hit. injection Hit as <-.
        apply matchers_result_has_default in Hr. now rewrite Hr.
    + intros E.
      destruct (loops_entry _ _ _ _ HL Hin) as (o1 & o2 & _ & H2 & Hi).
      rewrite (entry_matchers_result_str _ _ _ Hm) in H2. unfold Res.bind in H2.
      destruct (matchers_result (SStr v) matcher_list false) as [[h mo] | ?] eqn:Hr;
        [| discriminate].
      injection H2 as <-. cbn [fst snd] in Hi.
      apply matchers_result_has_default in Hr. rewrite E in Hr. subst h.
      apply Hi. apply in_or_app. right. apply in_or_app. right. now left.
  - intros version ms1 ms2 d has_default errors Ht Hs (d' & Hd' & Et').
    rewrite !for_fold_check_matcher. f_equal.
    assert (Hd : forall h, matcher_result version h d = Ok (true, [])).
    { intros h. unfold matcher_result, Res.bind. rewrite Ht, Hs. reflexivity. }
    assert (T : existsb is_default_matcher (ms1 ++ ms2) = true).
    { apply existsb_exists. exists (VDict d'). split; [exact Hd' |].
      cbn. now apply value_is_str_eq. }
    rewrite !matchers_result_app. cbn [matchers_result]. unfold Res.bind.
    destruct (matchers_result version ms1 has_default) as [[h1 o1] | ?] eqn:E1;
      [| reflexivity].
    cbn [fst snd]. rewrite Hd. cbn [fst snd].
    rewrite (matchers_result_normal version ms2 true),
      (matchers_result_normal version ms2 h1).
    destruct (matchers_result version ms2 false) as [[h2 o2] | ?] eqn:E2;
      [| reflexivity].
    cbn [fst snd app].
    apply matchers_result_has_default in E1, E2. cbn in E2. subst h1 h2.
    rewrite existsb_app in T.
    destruct (existsb is_default_matcher ms1), (existsb is_default_matcher ms2),
      has_default; try discriminate; reflexivity.
Qed.

(** ** The whole run *)

Lemma unit_out_nil r u out : unit_out [] r = Ok (u, out) <-> r = Ok out.
Proof.
  destruct u, r as [o | e]; cbn; split; intros H; try discriminate; congruence.
Qed.

Lemma loop_msg_head e :
  key_msg e \/ (exists v, entry_msg v e) ->
  starts_with "I" e = true \/ starts_with "V" e = true.
Proof.
  intros [[v | a b] | (v & [| | | e' [x | x | | x] |])]; cbn; auto.
Qed.

Lemma loops_result_msgs items errs e :
  loops_result items = Ok errs -> In e errs ->
  key_msg e \/ (exists v, entry_msg v e).
Proof.
  intros H He. apply loops_result_ok in H as (e1 & e2 & H1 & H2 & ->).
  apply in_app_or in He as [He | He].
  - left. apply collect_key_msgs in H1. rewrite Forall_forall in H1. auto.
  - right. destruct (collect_entry_msgs _ _ _ H2 He) as (v & d & o & _ & _ & _ & Hm).
    now exists v.
Qed.

(** The two loops, as the validator runs them. *)
Lemma loops_result_run items errs :
  loops_result items = Ok errs <->
  exists e1,
    Acc.for_each (check_version_key (map fst items))
      (enumerate (map fst items)) [] = Ok (tt, e1)
    /\ Acc.for_each check_version_entry items e1 = Ok (tt, errs).
Proof.
  rewrite loops_result_ok.
  rewrite (for_each_collect _ (key_result (map fst items)))
    by apply check_version_key_eq.
  split.
  - intros (e1 & e2 & H1 & H2 & ->). exists e1. split.
    + now apply unit_out_nil.
    + rewrite (for_each_collect _ entry_result) by apply check_version_entry_eq.
      now rewrite H2.
  - intros (e1 & H1 & H2). apply unit_out_nil in H1.
    rewrite (for_each_collect _ entry_result) in H2 by apply check_version_entry_eq.
    destruct (collect entry_result items) as [e2 | ?]; [| discriminate].
    cbn in H2. injection H2 as <-. now exists e1, e2.
Qed.

(** C3, as the code has it: a manifest that is empty or null, or a mapping
    without the key [versions], gives exactly "Missing 'versions' key"; a
    mapping whose [versions] value is empty (an empty mapping, null, or any
    other false value, mapping or not) gives exactly "No versions defined";
    a [versions] value that is not a mapping and not false raises
    [AttributeError]; and with a non-empty [versions] mapping there is no
    early return: both loops run over every key and every entry, and the
    result is neither of the two one-element sequences. *)
Theorem early_returns :
  (forall data,
      truthy data = false
      \/ (exists d, data = VDict d /\ dict_lookup "versions" d = None) ->
      validate_manifest data = Ok ["Missing 'versions' key"])
  /\ (forall d versions,
         dict_lookup "versions" d = Some versions ->
         truthy versions = false ->
         validate_manifest (VDict d) = Ok ["No versions defined"])
  /\ (forall d versions,
         dict_lookup "versions" d = Some versions ->
         truthy versions = true ->
         (forall items, versions <> VDict items) ->
         validate_manifest (VDict d) = Raise AttributeError)
  /\ (forall d items errs,
         dict_lookup "versions" d = Some (VDict items) ->
         items <> [] ->
         validate_manifest (VDict d) = Ok errs ->
         errs <> ["Missing 'versions' key"]
         /\ errs <> ["No versions defined"]
         /\ exists e1,
             Acc.for_each (check_version_key (map fst items))
               (enumerate (map fst items)) [] = Ok (tt, e1)
             /\ Acc.for_each check_version_entry items e1 = Ok (tt, errs)).
Proof.
  repeat split.
  - intros data [Hf | (d & -> & Hn)]; rewrite validate_manifest_eq;
      unfold lacks_versions.
    + now rewrite Hf.
    + cbn [py_contains]. rewrite (dict_lookup_none _ _ Hn).
      now destruct (negb (truthy (VDict d))).
  - intros d versions Hv Hf. rewrite validate_manifest_eq.
    rewrite (lacks_versions_present (VDict d) versions)
      by (cbn; now rewrite Hv).
    cbn. rewrite Hv. cbn. now rewrite Hf.
  - intros d versions Hv Ht Hnd. rewrite validate_manifest_eq.
    rewrite (lacks_versions_present (VDict d) versions)
      by (cbn; now rewrite Hv).
    cbn. rewrite Hv. cbn. rewrite Ht. cbn.
    destruct versions as [s | l | items]; try reflexivity.
    now destruct (Hnd items).
  - intros E. subst errs.
    rewrite (validate_manifest_versions (VDict d) items) in H1
      by (cbn; now rewrite H).
    destruct items; [congruence |].
    destruct (loop_msg_head _ (loops_result_msgs _ _ _ H1 (or_introl eq_refl)));
      discriminate.
  - intros E. subst errs.
    rewrite (validate_manifest_versions (VDict d) items) in H1
      by (cbn; now rewrite H).
    destruct items; [congruence |].
    destruct (loop_msg_head _ (loops_result_msgs _ _ _ H1 (or_introl eq_refl)));
      discriminate.
  - rewrite (validate_manifest_versions (VDict d) items) in H1
      by (cbn; now rewrite H).
    destruct items; [congruence |]. now apply loops_result_run.
Qed.

(** *** The order of the errors *)

Lemma matchers_result_ok version matcher_list has_default has_default' out :
  matchers_result version matcher_list has_default = Ok (has_default', out) ->
  exists outs,
    Forall2 (fun m o => exists h h', check_matcher version h m [] = Ok (h', o))
      matcher_list outs
    /\ out = List.concat outs.
Proof.
  revert has_default out.
  induction matcher_list as [| m l IH]; intros has_default out; cbn.
  - intros H. injection H as _ <-. exists []. split; [constructor | reflexivity].
  - destruct m as [s | l' | d]; try discriminate. unfold Res.bind.
    destruct (matcher_result version has_default d) as [[h1 o1] | ?] eqn:H1;
      [| discriminate].
    cbn [fst snd].
    destruct (matchers_result version l h1) as [[h2 o2] | ?] eqn:H2; [| discriminate].
    intros H. injection H as <- <-.
    destruct (IH _ _ H2) as (outs & HF & ->).
    exists (o1 :: outs). split; [| reflexivity].
    constructor; [| assumption].
    exists has_default, h1. rewrite check_matcher_dict, H1. reflexivity.
Qed.

(** C8, as the code has it: the errors come in the order of the checks.
    The output is what the iterations over the keys appended, key by key,
    followed by what the iterations over the entries appended, entry by
    entry; an entry contributes the errors of its [released_at] check and
    then those of its matchers; and a matcher list contributes the errors
    of its matchers one after the other and the missing-default error
    last.  Nothing removes repeated strings. *)
Theorem errors_follow_check_order :
  (forall data items errs,
      validate_manifest data = Ok errs ->
      py_getitem data "versions" = Ok (VDict items) ->
      items <> [] ->
      exists key_outs entry_outs,
        Forall2 (fun iv o =>
                   check_version_key (map fst items) iv [] = Ok (tt, o))
          (enumerate (map fst items)) key_outs
        /\ Forall2 (fun item o =>
                      exists o1 o2,
                        check_released_at (fst item) (snd item) [] = Ok (tt, o1)
                        /\ check_matchers (fst item) (snd item) [] = Ok (tt, o2)
                        /\ o = (o1 ++ o2)%list)
             items entry_outs
        /\ errs = (List.concat key_outs ++ List.concat entry_outs)%list)
  /\ (forall version details matcher_list out,
         py_getitem details "matchers" = Ok (VList matcher_list) ->
         check_matchers version details [] = Ok (tt, out) ->
         exists outs last,
           Forall2 (fun m o =>
                      exists h h', check_matcher version h m [] = Ok (h', o))
             matcher_list outs
           /\ (last = [] \/ last = [msg_missing_default version])
           /\ out = (List.concat outs ++ last)%list).
Proof.
  split.
  - intros data items errs H Hv Hne.
    rewrite (validate_manifest_versions _ _ Hv) in H.
    destruct items as [| item items']; [congruence |].
    set (items := item :: items') in *.
    apply loops_result_ok in H as (e1 & e2 & H1 & H2 & ->).
    apply collect_ok in H1 as (key_outs & HF1 & ->).
    apply collect_ok in H2 as (entry_outs & HF2 & ->).
    exists key_outs, entry_outs. repeat split.
    + eapply Forall2_impl; [| exact HF1]. intros iv o Ho. cbn beta in Ho.
      rewrite check_version_key_eq. now apply unit_out_nil.
    + eapply Forall2_impl; [| exact HF2]. intros it o Ho. cbn beta in Ho.
      apply entry_result_ok in Ho as (o1 & o2 & Ho1 & Ho2 & ->).
      exists o1, o2. repeat split.
      * rewrite check_released_at_eq. now apply unit_out_nil.
      * rewrite check_matchers_eq. now apply unit_out_nil.
  - intros version details matcher_list out Hm H.
    rewrite check_matchers_eq in H. apply unit_out_nil in H.
    rewrite (entry_matchers_result_list _ _ _ Hm) in H. unfold Res.bind in H.
    destruct (matchers_result version matcher_list false) as [[h mo] | ?] eqn:E;
      [| discriminate].
    cbn [fst snd] in H. appended_returned H. injection H as <-.
    destruct (matchers_result_ok _ _ _ _ _ E) as (outs & HF & ->).
    exists outs, (if negb h then [msg_missing_default version] else []).
    repeat split; [assumption | destruct h; auto].
Qed.

(** ** Manifests of the expected shape *)

Lemma collect_total {A} (f : A -> result (list string)) l :
  (forall a, In a l -> exists o, f a = Ok o) -> exists out, collect f l = Ok out.
Proof.
  induction l as [| a l IH]; intros H; cbn.
  - now exists [].
  - destruct (H a (or_introl eq_refl)) as (o1 & ->).
    destruct IH as (o2 & ->); [intros b Hb; apply H; now right |].
    cbn. now eexists.
Qed.

Lemma matcher_result_total version has_default d :
  printable_scalar version = true ->
  shaped_matcher (VDict d) = true ->
  exists r, matcher_result version has_default d = Ok r.
Proof.
  intros Hp. cbn.
  intros H. apply andb_prop in H as [H Hs]. apply andb_prop in H as [Ht Hv].
  unfold matcher_result, Res.bind. rewrite Hp.
  assert (printable (field "matcher_value" d) = true) as ->
    by (destruct (field "matcher_value" d) as [[| | |] | |];
        try discriminate; reflexivity).
  destruct (field "matcher_type" d) as [t | |]; try discriminate.
  destruct (field "severity" d) as [sev | |]; try discriminate.
  cbn [is_short_scalar] in Ht, Hs. cbn [printable]. rewrite Ht, Hs.
  assert (Hc : exists b, falsy_or_not_in (field "matcher_value" d) VALID_COUNTRIES = Ok b).
  { destruct (field "matcher_value" d) as [[| | | s] | |]; try discriminate;
      unfold falsy_or_not_in; cbn; [now eexists |].
    destruct (negb (negb (s =? ""))); now eexists. }
  assert (Hh : exists b, falsy_or_bad_hash (field "matcher_value" d) = Ok b).
  { destruct (field "matcher_value" d) as [[| | | s] | |]; try discriminate;
      unfold falsy_or_bad_hash; cbn; [now eexists |].
    destruct (negb (negb (s =? ""))); now eexists. }
  destruct Hc as (bc & Hc), Hh as (bh & Hh). rewrite Hc, Hh.
  assert (Hk : forall S, exists b, py_in_set (VScalar t) S = Ok b)
    by (intros S; destruct t; cbn; now eexists).
  assert (Hsev : forall S, exists b, py_in_set (VScalar sev) S = Ok b)
    by (intros S; destruct sev; cbn; now eexists).
  destruct (Hk MATCHER_TYPES) as (k & ->), (Hsev SEVERITY_VALUES) as (ok & ->).
  destruct k; cbv beta iota delta [negb andb]; [| now eexists].
  destruct (value_is_str "country" (VScalar t)),
    (value_is_str "location_hash" (VScalar t)), bc, bh, ok; now eexists.
Qed.

Lemma matchers_result_total version matcher_list has_default :
  printable_scalar version = true ->
  forallb shaped_matcher matcher_list = true ->
  exists r, matchers_result version matcher_list has_default = Ok r.
Proof.
  intros Hp. revert has_default.
  induction matcher_list as [| m l IH]; intros has_default H; cbn.
  - now eexists.
  - cbn in H. apply andb_prop in H as [Hm Hl].
    destruct m as [s | l' | d]; try discriminate.
    destruct (matcher_result_total version has_default d Hp Hm) as ([h1 o1] & ->).
    cbn. destruct (IH h1 Hl) as ([h2 o2] & ->). cbn. now eexists.
Qed.

Lemma entry_result_total v details :
  shaped_entry details = true -> exists o, entry_result (SStr v, details) = Ok o.
Proof.
  destruct details as [s | l | d]; try discriminate. cbn [shaped_entry].
  intros H. apply andb_prop in H as [Hr Hm].
  unfold entry_result, Res.bind. cbn [fst snd].
  rewrite released_at_result_dict.
  assert (E1 : exists o1,
             match dict_lookup "released_at" d with
             | None => Ok [msg_missing_released_at (SStr v)]
             | Some (VScalar (SStr s)) =>
                 Ok (if fromisoformat (str_replace "Z"%char "+00:00" s)
                     then [] else [msg_timestamp (SStr v)])
             | Some _ => Raise AttributeError
             end = Ok o1).
  { destruct (dict_lookup "released_at" d) as [[[| | | s] | |] |];
      try discriminate; now eexists. }
  destruct E1 as (o1 & ->).
  unfold entry_matchers_result, Res.bind. rewrite py_contains_dict.
  cbn [py_getitem].
  destruct (dict_lookup "matchers" d) as [[| ms |] |]; try discriminate;
    cbv beta iota delta [negb]; [| now eexists].
  cbn [py_iter].
  destruct (matchers_result_total (SStr v) ms false eq_refl Hm) as ([h o] & ->).
  destruct h; now eexists.
Qed.

Lemma key_result_total version_list i k :
  forallb is_str_key version_list = true ->
  nth_error version_list i = Some k ->
  exists o, key_result version_list (i, k) = Ok o.
Proof.
  intros Hall Hk. rewrite forallb_forall in Hall.
  assert (Sk : forall j x, nth_error version_list j = Some x -> exists s, x = SStr s).
  { intros j x Hx. apply nth_error_In in Hx. apply Hall in Hx.
    destruct x; try discriminate. now eexists. }
  destruct (Sk _ _ Hk) as (s & ->).
  rewrite key_result_eq. unfold Res.bind, list_index. cbn [fst snd validate_semver].
  destruct (0 <? i)%nat eqn:Ei; [| now eexists].
  apply Nat.ltb_lt in Ei.
  destruct (nth_error version_list (i - 1)) as [prev |] eqn:Ep.
  - destruct (Sk _ _ Ep) as (p & ->). cbn. now eexists.
  - apply nth_error_None in Ep.
    assert (i < List.length version_list)%nat
      by (apply nth_error_Some; congruence).
    lia.
Qed.

(** C2, as the code has it: on a manifest of the expected shape the
    validator returns an error sequence and raises nothing.  The shape: the
    document is null or a mapping; [versions], when present, is null or a
    mapping with string keys; every version entry is a mapping; a
    [released_at] that is present is a string; [matchers], when present, is
    a sequence of mappings; in a matcher [matcher_type] and [severity] are
    scalars (null, a boolean, a string or an integer of at most 4300
    digits, the longest [str] prints) and [matcher_value] is a string or
    null (absent fields included). *)
Theorem validate_returns_on_shaped_manifest :
  forall data,
    shaped_manifest data = true ->
    exists errs, validate_manifest data = Ok errs.
Proof.
  intros data H. rewrite validate_manifest_eq.
  destruct data as [[| | |] | | d]; try discriminate; [now eexists |].
  cbn [shaped_manifest] in H.
  unfold lacks_versions. cbn [py_contains py_getitem]. unfold Res.bind.
  destruct (dict_lookup "versions" d) as [versions |] eqn:Ev.
  - rewrite (dict_lookup_existsb _ _ _ Ev).
    assert (truthy (VDict d) = true) as -> by (destruct d; [discriminate | reflexivity]).
    cbn [negb].
    destruct versions as [[| | |] | | items]; try discriminate; [now eexists |].
    destruct (negb (truthy (VDict items))); [now eexists |].
    unfold loops_result, Res.bind.
    destruct (collect_total (key_result (map fst items)) (enumerate (map fst items)))
      as (e1 & ->).
    { intros [i k] Hin. apply enumerate_In in Hin.
      apply key_result_total; [| assumption].
      rewrite forallb_forall in *. intros x Hx.
      apply in_map_iff in Hx as (kv & <- & Hkv).
      apply H in Hkv. now apply andb_prop in Hkv as [Hs _]. }
    destruct (collect_total entry_result items) as (e2 & ->).
    { intros [version details] Hin.
      rewrite forallb_forall in H. apply H in Hin. cbn [fst snd] in Hin.
      apply andb_prop in Hin as [Hk Hs].
      destruct version as [| | | v]; try discriminate.
      now apply entry_result_total. }
    now eexists.
  - rewrite (dict_lookup_none _ _ Ev). destruct (negb (truthy (VDict d))); now eexists.
Qed.

(** ** Valid manifests *)

Lemma subst_trailing_Z_replace s :
  no_inner_Z s = true -> subst_trailing_Z s = str_replace "Z"%char "+00:00" s.
Proof.
  induction s as [| c s IH]; [reflexivity |].
  destruct s as [| c' s'].
  - intros _. cbn. destruct (Ascii.eqb c "Z"); reflexivity.
  - intros H. cbn [no_inner_Z] in H. apply andb_prop in H as [Hc Hs].
    cbn [subst_trailing_Z str_replace]. cbn [subst_trailing_Z str_replace] in IH.
    rewrite (IH Hs). destruct (Ascii.eqb c "Z"); [discriminate | reflexivity].
Qed.


Lemma ltb_not_leb a b : String.ltb a b = true -> String.leb b a = false.
Proof.
  unfold String.ltb, String.leb. rewrite (String.compare_antisym b a).
  destruct (String.compare a b); cbn; congruence.
Qed.

Lemma ascending_adjacent keys i a b :
  ascending keys = true ->
  nth_error keys i = Some a -> nth_error keys (S i) = Some b ->
  exists x y, a = SStr x /\ b = SStr y /\ String.ltb x y = true.
Proof.
  revert i. induction keys as [| k keys IH]; intros i H Ha Hb;
    [destruct i; discriminate |].
  destruct i as [| i].
  - cbn in Ha, Hb. injection Ha as ->. destruct keys as [| k' keys']; [discriminate |].
    cbn in Hb. injection Hb as ->. cbn in H.
    destruct a as [| | | x]; try discriminate.
    destruct b as [| | | y]; try discriminate.
    apply andb_prop in H as [H _]. now exists x, y.
  - cbn in Ha, Hb. apply (IH i); try assumption.
    destruct keys as [| k' keys']; [destruct i; discriminate |].
    destruct k as [| | | x]; try discriminate.
    destruct k' as [| | | y]; try discriminate.
    cbn [ascending] in H. now apply andb_prop in H as [_ H].
Qed.








(** ** The location hash *)

(** C7, where the code departs from it: a [location_hash] value of
    sixty-four lowercase hexadecimal characters followed by a newline is
    not sixty-four characters long, yet [validate_location_hash] accepts
    it, the matcher's iteration appends nothing, and the output of the
    validator has no "invalid location hash format" error. *)
Theorem location_hash_with_trailing_newline_accepted :
  String.length hash_with_newline = 65
  /\ validate_location_hash (VStr hash_with_newline) = Ok true
  /\ (forall version has_default errors,
         check_matcher version has_default
           (VDict [(SStr "matcher_type", VStr "location_hash");
                   (SStr "matcher_value", VStr hash_with_newline);
                   (SStr "severity", VStr "red")]) errors
         = Ok (has_default, errors))
  /\ exists errs,
      validate_manifest manifest_hash_with_newline = Ok errs
      /\ ~ In "Version 1.0.0: invalid location hash format" errs.
Proof.
  split; [reflexivity | split; [reflexivity | split]].
  - intros version has_default errors. rewrite check_matcher_dict.
    assert (E : matcher_result version has_default
                  [(SStr "matcher_type", VStr "location_hash");
                   (SStr "matcher_value", VStr hash_with_newline);
                   (SStr "severity", VStr "red")] = Ok (has_default, []))
      by (vm_compute; reflexivity).
    rewrite E. cbn. now rewrite app_nil_r.
  - rewrite validate_manifest_eq.
    destruct (fromisoformat "2024-01-01T00:00:00+00:00") eqn:E.
    + exists []. split; [| intros []]. vm_compute. now rewrite E.
    + exists ["Version 1.0.0: invalid ISO 8601 timestamp"].
      split; [vm_compute; now rewrite E |].
      intros [H | []]. discriminate.
Qed.

(** ** The regular expressions, by their languages *)

Lemma string_app_nil a b : a ++ b = "" -> a = "" /\ b = "".
Proof. destruct a; cbn; [auto | discriminate]. Qed.

Lemma nullable_matches r : nullable r = true <-> matches r "".
Proof.
  split.
  - induction r as [| | p | r1 IH1 r2 IH2 | r1 IH1 r2 IH2 | r IH | q]; cbn;
      try discriminate; intros H.
    + constructor.
    + apply andb_prop in H as [H1 H2].
      apply (m_cat r1 r2 "" ""); auto.
    + apply orb_prop in H as [H | H]; [apply m_alt_l | apply m_alt_r]; auto.
    + constructor.
    + now constructor.
  - intros H. remember "" as s eqn:Es.
    induction H as [| p c Hp | r1 r2 s1 s2 H1 IH1 H2 IH2 | r1 r2 s H IH
                    | r1 r2 s H IH | r | r s1 s2 H1 IH1 H2 IH2 | q s Hq]; cbn;
      try reflexivity; try discriminate.
    + apply string_app_nil in Es as [-> ->]. now rewrite IH1, IH2.
    + now rewrite IH.
    + rewrite IH by assumption. apply orb_true_r.
    + now subst s.
Qed.

Lemma deriv_sound c r s : matches (deriv c r) s -> matches r (String c s).
Proof.
  revert s.
  induction r as [| | p | r1 IH1 r2 IH2 | r1 IH1 r2 IH2 | r IH | q];
    cbn; intros s H.
  - inversion H.
  - inversion H.
  - destruct (p c) eqn:Hp; inversion H; subst. now constructor.
  - destruct (nullable r1) eqn:Hn.
    + inversion H as [| | | ? ? ? H' | ? ? ? H' | | |]; subst.
      * inversion H' as [| | ? ? s1 s2 Ha Hb | | | | |]; subst.
        apply (m_cat r1 r2 (String c s1) s2); auto.
      * apply (m_cat r1 r2 "" (String c s)); [| auto].
        now apply nullable_matches.
    + inversion H as [| | ? ? s1 s2 Ha Hb | | | | |]; subst.
      apply (m_cat r1 r2 (String c s1) s2); auto.
  - inversion H; subst; [apply m_alt_l | apply m_alt_r]; auto.
  - inversion H as [| | ? ? s1 s2 Ha Hb | | | | |]; subst.
    apply (m_star_cons r (String c s1) s2); auto.
  - inversion H; subst. now constructor.
Qed.

Lemma deriv_complete c r s' :
  matches r s' -> forall s, s' = String c s -> matches (deriv c r) s.
Proof.
  intros H.
  induction H as [| p x Hp | r1 r2 s1 s2 H1 IH1 H2 IH2 | r1 r2 s0 H IH
                  | r1 r2 s0 H IH | r | r s1 s2 H1 IH1 H2 IH2 | q s0 Hq];
    intros s E; cbn.
  - discriminate.
  - injection E as -> <-. rewrite Hp. constructor.
  - destruct s1 as [| y s1'].
    + cbn in E. subst s2.
      assert (nullable r1 = true) as -> by now apply nullable_matches.
      apply m_alt_r. now apply IH2.
    + cbn in E. injection E as -> <-.
      assert (Hc : matches (Cat (deriv c r1) r2) (s1' ++ s2))
        by (constructor; auto).
      destruct (nullable r1); [now apply m_alt_l | exact Hc].
  - apply m_alt_l. auto.
  - apply m_alt_r. auto.
  - discriminate.
  - destruct s1 as [| y s1'].
    + cbn in E. now apply IH2.
    + cbn in E. injection E as -> <-. constructor; auto.
  - subst s0. now constructor.
Qed.

Lemma accepts_matches r s : accepts r s = true <-> matches r s.
Proof.
  revert r. induction s as [| c s IH]; intros r; cbn.
  - apply nullable_matches.
  - rewrite IH. split; [apply deriv_sound |].
    intros H. now apply (deriv_complete c r (String c s) H).
Qed.

(** Inversion of the forms the two patterns use. *)
Lemma matches_cat r1 r2 s :
  matches (Cat r1 r2) s <->
  exists s1 s2, s = s1 ++ s2 /\ matches r1 s1 /\ matches r2 s2.
Proof.
  split.
  - intros H. inversion H; subst. now eexists _, _.
  - intros (s1 & s2 & -> & H1 & H2). now constructor.
Qed.

Lemma matches_class p s :
  matches (Class p) s <-> exists c, s = String c "" /\ p c = true.
Proof.
  split.
  - intros H. inversion H; subst. now eexists.
  - intros (c & -> & H). now constructor.
Qed.

Lemma matches_dollar s :
  matches Dollar s <-> s = "" \/ s = String newline "".
Proof.
  unfold Dollar, Chr. split.
  - intros H. inversion H as [| | | ? ? ? H' | ? ? ? H' | | |]; subst.
    + inversion H'. now left.
    + apply matches_class in H' as (c & -> & Hc).
      apply Ascii.eqb_eq in Hc. subst c. now right.
  - intros [-> | ->]; [apply m_alt_l; constructor |].
    apply m_alt_r. constructor. apply Ascii.eqb_refl.
Qed.

Lemma all_chars_app p a b :
  all_chars p (a ++ b) = all_chars p a && all_chars p b.
Proof.
  induction a as [| c a IH]; cbn; [reflexivity |]. now rewrite IH, andb_assoc.
Qed.

Lemma matches_repeat_class p n s :
  matches (Repeat n (Class p)) s <->
  String.length s = n /\ all_chars p s = true.
Proof.
  revert s. induction n as [| n IH]; intros s; cbn.
  - split.
    + intros H. inversion H. auto.
    + intros [H _]. destruct s; [constructor | discriminate].
  - rewrite matches_cat. split.
    + intros (s1 & s2 & -> & H1 & H2).
      apply matches_class in H1 as (c & -> & Hc). apply IH in H2 as [Hl Ha].
      cbn. rewrite Hc, Ha, Hl. auto.
    + intros [Hl Ha]. destruct s as [| c s]; [discriminate |].
      cbn in Hl, Ha. apply andb_prop in Ha as [Hc Ha].
      exists (String c ""), s. repeat split.
      * now constructor.
      * apply IH. split; [lia | assumption].
Qed.

Lemma matches_star_class p s :
  matches (Star (Class p)) s <-> all_chars p s = true.
Proof.
  split.
  - intros H. remember (Star (Class p)) as r eqn:Er.
    induction H as [| | | | | r' | r' s1 s2 H1 _ H2 IH2 |]; try discriminate.
    + reflexivity.
    + injection Er as ->. apply matches_class in H1 as (c & -> & Hc).
      cbn. rewrite Hc. now apply IH2.
  - induction s as [| c s IH]; cbn; intros H; [constructor |].
    apply andb_prop in H as [Hc Ha].
    apply (m_star_cons (Class p) (String c "") s); [now constructor | auto].
Qed.

Lemma matches_plus_class p s :
  matches (Plus (Class p)) s <-> s <> "" /\ all_chars p s = true.
Proof.
  unfold Plus. rewrite matches_cat. split.
  - intros (s1 & s2 & -> & H1 & H2).
    apply matches_class in H1 as (c & -> & Hc). apply matches_star_class in H2.
    cbn. rewrite Hc, H2. split; [discriminate | reflexivity].
  - intros [Hne Ha]. destruct s as [| c s]; [congruence |].
    cbn in Ha. apply andb_prop in Ha as [Hc Ha].
    exists (String c ""), s. repeat split; [now constructor |].
    now apply matches_star_class.
Qed.

Lemma location_hash_accepted_iff s :
  validate_location_hash (VStr s) = Ok true <->
  is_hex64 s \/ exists h, is_hex64 h /\ s = h ++ String newline "".
Proof.
  change (validate_location_hash (VStr s))
    with (Ok (re_match_anchored location_hash_pattern s)).
  unfold re_match_anchored, location_hash_pattern, is_hex64.
  split.
  - intros H. injection H as H. apply accepts_matches in H.
    apply matches_cat in H as (h & t & -> & Hh & Ht).
    apply (matches_repeat_class is_lower_hex 64) in Hh.
    apply matches_dollar in Ht as [-> | ->].
    + left. now rewrite string_app_nil_r.
    + right. now exists h.
  - intros H. f_equal. apply accepts_matches. apply matches_cat.
    destruct H as [H | (h & H & ->)].
    + exists s, "". rewrite string_app_nil_r. repeat split.
      * now apply (matches_repeat_class is_lower_hex 64).
      * apply matches_dollar. now left.
    + exists h, (String newline ""). repeat split.
      * now apply (matches_repeat_class is_lower_hex 64).
      * apply matches_dollar. now right.
Qed.

(** X2: what [validate_location_hash] accepts: sixty-four lowercase
    hexadecimal characters, or that followed by one newline. *)
Theorem validate_location_hash_accepts s :
  validate_location_hash (VStr s) = Ok true <->
  is_hex64 s \/ exists h, is_hex64 h /\ s = h ++ String newline "".
Proof. exact (location_hash_accepted_iff s). Qed.

Lemma matches_lang q s : matches (Lang q) s <-> q s = true.
Proof.
  split; [| now constructor]. intros H. now inversion H.
Qed.

Lemma matches_digit s :
  matches (Digit unicode_decimal) s <-> is_decimal_digit s.
Proof.
  unfold Digit, is_decimal_digit. split.
  - intros H. inversion H as [| | | ? ? ? H' | ? ? ? H' | | |]; subst.
    + left. now apply matches_class.
    + right. apply matches_lang in H'. now apply andb_prop in H'.
  - intros [H | [Hw Hd]].
    + apply m_alt_l. now apply matches_class.
    + apply m_alt_r. apply matches_lang. now rewrite Hw, Hd.
Qed.

Lemma matches_star_digit s :
  matches (Star (Digit unicode_decimal)) s <-> s = "" \/ is_number s.
Proof.
  split.
  - intros H. remember (Star (Digit unicode_decimal)) as r eqn:Er.
    induction H as [| | | | | r' | r' s1 s2 H1 _ H2 IH2 |]; try discriminate.
    + now left.
    + injection Er as ->. right. apply matches_digit in H1.
      destruct (IH2 eq_refl) as [-> | Hn].
      * rewrite string_app_nil_r. now constructor.
      * now apply number_more.
  - intros [-> | Hn]; [constructor |].
    induction Hn as [d Hd | d s Hd Hn IH].
    + rewrite <- (string_app_nil_r d).
      apply m_star_cons; [now apply matches_digit | constructor].
    + apply m_star_cons; [now apply matches_digit | assumption].
Qed.

Lemma matches_plus_digit s :
  matches (Plus (Digit unicode_decimal)) s <-> is_number s.
Proof.
  unfold Plus. rewrite matches_cat. split.
  - intros (s1 & s2 & -> & H1 & H2).
    apply matches_digit in H1. apply matches_star_digit in H2 as [-> | Hn].
    + rewrite string_app_nil_r. now constructor.
    + now apply number_more.
  - intros [d Hd | d s' Hd Hn].
    + exists d, "". rewrite string_app_nil_r. repeat split.
      * now apply matches_digit.
      * constructor.
    + exists d, s'. repeat split.
      * now apply matches_digit.
      * apply matches_star_digit. now right.
Qed.

(** X1: what [validate_semver] accepts: three numbers separated by dots, or
    that followed by one newline, where a number is one or more decimal
    digits, those of ASCII or those of any other script. *)
Theorem validate_semver_accepts s :
  validate_semver (SStr s) = Ok true <->
  exists major minor patch,
    is_number major /\ is_number minor /\ is_number patch
    /\ (s = major ++ "." ++ minor ++ "." ++ patch
        \/ s = major ++ "." ++ minor ++ "." ++ patch ++ String newline "").
Proof.
  change (validate_semver (SStr s)) with (Ok (re_match_anchored semver_pattern s)).
  unfold re_match_anchored, semver_pattern, Chr.
  assert (Dot : forall x, matches (Class (Ascii.eqb ".")) x <-> x = ".").
  { intros x. rewrite matches_class. split.
    - intros (c & -> & Hc). apply Ascii.eqb_eq in Hc. now subst c.
    - intros ->. exists "."%char. auto. }
  split.
  - intros H. injection H as H. apply accepts_matches in H.
    apply matches_cat in H as (x & t & -> & H & Ht).
    apply matches_cat in H as (a & x1 & -> & Ha & H).
    apply matches_cat in H as (d1 & x2 & -> & Hd1 & H).
    apply matches_cat in H as (b & x3 & -> & Hb & H).
    apply matches_cat in H as (d2 & c & -> & Hd2 & Hc).
    apply Dot in Hd1, Hd2. subst d1 d2.
    apply matches_plus_digit in Ha, Hb, Hc.
    exists a, b, c. repeat split; try assumption.
    apply matches_dollar in Ht as [-> | ->].
    + left. rewrite string_app_nil_r. reflexivity.
    + right. rewrite !string_app_assoc. reflexivity.
  - intros (a & b & c & Ha & Hb & Hc & Hs). f_equal. apply accepts_matches.
    assert (Body : matches
                     (Cat (Plus (Digit unicode_decimal))
                        (Cat (Class (Ascii.eqb "."))
                           (Cat (Plus (Digit unicode_decimal))
                              (Cat (Class (Ascii.eqb "."))
                                 (Plus (Digit unicode_decimal))))))
                     (a ++ "." ++ b ++ "." ++ c)).
    { apply matches_plus_digit in Ha, Hb, Hc.
      repeat (apply m_cat; [first [assumption | now apply Dot] |]).
      assumption. }
    destruct Hs as [-> | ->].
    + rewrite <- (string_app_nil_r (a ++ "." ++ b ++ "." ++ c)).
      constructor; [exact Body | apply matches_dollar; now left].
    + replace (a ++ "." ++ b ++ "." ++ c ++ String newline "")
        with ((a ++ "." ++ b ++ "." ++ c) ++ String newline "")
        by (rewrite !string_app_assoc; reflexivity).
      constructor; [exact Body | apply matches_dollar; now right].
Qed.

(** X5: for a [location_hash] matcher with a string value (or none) the hash
    error is appended exactly when the value is empty or absent, or neither
    sixty-four lowercase hexadecimal characters nor that followed by a
    newline. *)
Theorem location_hash_error_iff version has_default d has_default' out :
  field "matcher_type" d = VStr "location_hash" ->
  (field "matcher_value" d = VNone
   \/ exists s, field "matcher_value" d = VStr s) ->
  check_matcher version has_default (VDict d) [] = Ok (has_default', out) ->
  (In (msg_location_hash version) out <->
   ~ (exists s, field "matcher_value" d = VStr s
                /\ (is_hex64 s
                    \/ exists h, is_hex64 h /\ s = h ++ String newline ""))).
Proof.
  intros Ht Hv H. rewrite check_matcher_dict in H.
  destruct (matcher_result version has_default d) as [[h o] | e] eqn:E;
    [| discriminate].
  cbn in H. injection H as <- <-.
  destruct (matcher_result_ok _ _ _ _ _ E)
    as [(K & _) | (_ & bc & bh & ok & Ec & Eh & _ & _ & ->)];
    [rewrite Ht in K; discriminate |].
  rewrite Ht in Ec, Eh.
  change (Ok false = Ok bc) in Ec. injection Ec as <-.
  change (falsy_or_bad_hash (field "matcher_value" d) = Ok bh) in Eh.
  cbn [app].
  assert (Hin : In (msg_location_hash version)
                  ((if bh then [msg_location_hash version] else [])
                     ++ (if ok then []
                         else [msg_severity version (field "severity" d)]))%list
                <-> bh = true).
  { split.
    - intros Hi. apply in_app_or in Hi as [Hi | Hi].
      + destruct bh; [reflexivity | destruct Hi].
      + destruct ok; [destruct Hi |]. destruct Hi as [Hi | []].
        apply msg_version_inv_rest in Hi. discriminate.
    - intros ->. now left. }
  rewrite Hin. clear Hin.
  unfold falsy_or_bad_hash, Res.bind in Eh.
  destruct Hv as [Hv | (s & Hv)]; rewrite Hv in *.
  - cbn in Eh. injection Eh as <-. split; [| reflexivity].
    intros _ (s & Hs & _). discriminate.
  - cbn [truthy truthy_scalar] in Eh.
    destruct (String.eqb_spec s "") as [-> | Hne]; cbn [negb] in Eh.
    + injection Eh as <-. split; [| reflexivity].
      intros _ (s & Hs & [[Hl _] | (x & [Hl _] & Ex)]); injection Hs as <-.
      * discriminate.
      * destruct x; discriminate.
    + destruct (validate_location_hash (VStr s)) as [b | ?] eqn:Ev; [| discriminate].
      cbn in Eh. injection Eh as <-.
      pose proof (location_hash_accepted_iff s) as A. rewrite Ev in A.
      split.
      * intros Hb (s' & Hs & Hacc). injection Hs as <-.
        apply A in Hacc. destruct b; [discriminate | congruence].
      * intros Hn. destruct b; [| reflexivity].
        destruct Hn. exists s. split; [reflexivity | now apply A].
Qed.


(** ** The exceptions that can escape *)

Lemma collect_raise {A} (f : A -> result (list string)) l e :
  collect f l = Raise e -> exists a, In a l /\ f a = Raise e.
Proof.
  induction l as [| a l IH]; cbn; [discriminate |].
  destruct (f a) as [o1 | e1] eqn:E1; cbn.
  - destruct (collect f l) as [o2 | e2]; cbn; [discriminate |].
    intros H. injection H as ->. destruct (IH eq_refl) as (b & Hb & Eb).
    exists b. split; [now right | assumption].
  - intros H. injection H as ->. exists a. split; [now left | assumption].
Qed.

Lemma py_contains_getitem k x :
  py_contains k x = Ok true ->
  (exists v, py_getitem x k = Ok v) \/ py_getitem x k = Raise TypeError.
Proof.
  destruct x as [s | l | d]; try (right; reflexivity).
  rewrite py_contains_dict. cbn.
  destruct (dict_lookup k d) as [v |]; [| discriminate]. left. now exists v.
Qed.

Lemma py_in_set_raise x S e : py_in_set x S = Raise e -> e = TypeError.
Proof. destruct x as [[| | |] | |]; cbn; congruence. Qed.

Lemma matcher_result_raise version has_default d e :
  matcher_result version has_default d = Raise e ->
  e = TypeError
  \/ (e = ValueError
      /\ (printable_scalar version = false \/ long_int_field d = true)).
Proof.
  unfold matcher_result, Res.bind, long_int_field.
  set (pt := printable (field "matcher_type" d)).
  set (pv := printable (field "matcher_value" d)).
  set (ps := printable (field "severity" d)).
  assert (Hp : forall c p m e1,
             appended c (printable_scalar version && p) m = Raise e1 ->
             e1 = ValueError /\ (printable_scalar version = false \/ p = false)).
  { intros c p m e1 H. apply appended_raise in H as (-> & _ & H).
    split; [reflexivity |].
    destruct (printable_scalar version); [right; exact H | now left]. }
  destruct (py_in_set (field "matcher_type" d) MATCHER_TYPES) as [[|] | e0] eqn:Ek;
    cbv beta iota delta [negb].
  - assert (Hc : forall e1,
               (if value_is_str "country" (field "matcher_type" d)
                then falsy_or_not_in (field "matcher_value" d) VALID_COUNTRIES
                else Ok false) = Raise e1 -> e1 = TypeError).
    { intros e1. destruct (value_is_str "country" _); [| discriminate].
      unfold falsy_or_not_in, Res.bind.
      destruct (negb (truthy _)); [discriminate |].
      destruct (py_in_set _ VALID_COUNTRIES) as [b | e2] eqn:E; [discriminate |].
      intros H. injection H as <-. eapply py_in_set_raise. exact E. }
    assert (Hh : forall e1,
               (if value_is_str "location_hash" (field "matcher_type" d)
                then falsy_or_bad_hash (field "matcher_value" d)
                else Ok false) = Raise e1 -> e1 = TypeError).
    { intros e1. destruct (value_is_str "location_hash" _); [| discriminate].
      unfold falsy_or_bad_hash, Res.bind.
      destruct (negb (truthy _)); [discriminate |].
      destruct (field "matcher_value" d) as [[| | |] | |]; cbn; congruence. }
    destruct (if value_is_str "country" _ then _ else _) as [bc | e1];
      [| intros H; injection H as <-; left; now apply Hc].
    destruct (appended bc _ _) as [oc | e1] eqn:Eoc.
    2: { intros H. injection H as <-. right.
         apply Hp in Eoc as (-> & [Hv | Hv]); (split; [reflexivity |]);
           [now left | right].
         rewrite Hv. now destruct pt, ps. }
    destruct (if value_is_str "location_hash" _ then _ else _) as [bh | e1];
      [| intros H; injection H as <-; left; now apply Hh].
    destruct (appended bh _ _) as [oh | e1] eqn:Eoh.
    2: { intros H. injection H as <-. right.
         apply appended_raise in Eoh as (-> & _ & Hv). auto. }
    destruct (py_in_set (field "severity" d) SEVERITY_VALUES) as [ok | e1] eqn:Es;
      [| intros H; injection H as <-; left; eapply py_in_set_raise; exact Es].
    destruct (appended _ (_ && ps) _) as [os | e1] eqn:Eos; [discriminate |].
    intros H. injection H as <-. right.
    apply Hp in Eos as (-> & [Hv | Hv]); (split; [reflexivity |]);
      [now left | right].
    rewrite Hv. now destruct pt, pv.
  - destruct (appended true _ _) as [o | e1] eqn:Eo; [discriminate |].
    intros H. injection H as <-. right.
    apply Hp in Eo as (-> & [Hv | Hv]); (split; [reflexivity |]);
      [now left | right].
    now rewrite Hv.
  - intros H. injection H as <-. left. eapply py_in_set_raise. exact Ek.
Qed.

Lemma matchers_result_raise version matcher_list has_default e :
  matchers_result version matcher_list has_default = Raise e ->
  e = TypeError \/ e = AttributeError
  \/ (e = ValueError
      /\ (printable_scalar version = false
          \/ exists d, In (VDict d) matcher_list /\ long_int_field d = true)).
Proof.
  revert has_default.
  induction matcher_list as [| m l IH]; intros has_default; cbn; [discriminate |].
  destruct m as [s | l' | d]; try (intros H; injection H as <-; auto).
  unfold Res.bind.
  destruct (matcher_result version has_default d) as [[h1 o1] | e1] eqn:E1.
  - cbn [fst snd].
    destruct (matchers_result version l h1) as [[h2 o2] | e2] eqn:E2; [discriminate |].
    intros H. injection H as <-.
    destruct (IH _ E2) as [H | [H | (H & [Hv | (d' & Hd & Hl)])]]; auto.
    right. right. split; [assumption |]. right. exists d'. auto.
  - intros H. injection H as <-.
    destruct (matcher_result_raise _ _ _ _ E1) as [H | (H & [Hv | Hl])]; auto.
    right. right. split; [assumption |]. right. exists d. auto.
Qed.

Lemma chars_of_str s x : In x (chars_of s) -> exists t, x = VStr t.
Proof.
  induction s as [| c s IH]; cbn; [intros [] |].
  destruct (is_continuation c); [exact IH |].
  intros [<- | H]; [now eexists | auto].
Qed.

(** Only a list has an element that is a mapping: a mapping is iterated
    by its keys and a string by its characters. *)
Lemma py_iter_dict_elem x l d :
  py_iter x = Ok l -> In (VDict d) l -> x = VList l.
Proof.
  destruct x as [[| | | s] | l' | d']; cbn; try discriminate;
    intros H Hin; injection H as <-.
  - apply chars_of_str in Hin as (t & Ht). discriminate.
  - reflexivity.
  - apply in_map_iff in Hin as (kv & Hkv & _). discriminate.
Qed.

Lemma entry_result_raise version details e :
  entry_result (version, details) = Raise e ->
  e = TypeError \/ e = AttributeError
  \/ (e = ValueError
      /\ (printable_scalar version = false
          \/ exists matcher_list d,
              py_getitem details "matchers" = Ok (VList matcher_list)
              /\ In (VDict d) matcher_list /\ long_int_field d = true)).
Proof.
  unfold entry_result, Res.bind. cbn [fst snd].
  assert (Hc : forall k e1, py_contains k details = Raise e1 -> e1 = TypeError).
  { intros k e1. destruct details as [[| | |] | |]; cbn; congruence. }
  assert (Ha : forall c m e1,
             appended c (printable_scalar version) m = Raise e1 ->
             e1 = ValueError /\ printable_scalar version = false).
  { intros c m e1 H. apply appended_raise in H as (-> & _ & H). auto. }
  destruct (released_at_result version details) as [o1 | e1] eqn:E1.
  - destruct (entry_matchers_result version details) as [o2 | e2] eqn:E2;
      [discriminate |].
    intros H. injection H as <-.
    unfold entry_matchers_result, Res.bind in E2.
    destruct (py_contains "matchers" details) as [[|] | e3] eqn:Ec;
      cbv beta iota delta [negb] in E2.
    + destruct (py_contains_getitem _ _ Ec) as [(v & Hv) | Hv]; rewrite Hv in E2;
        [| injection E2 as <-; now left].
      destruct (py_iter v) as [ms | e3] eqn:Ei.
      * destruct (matchers_result version ms false) as [[h o] | e3] eqn:Em.
        -- cbn [fst snd] in E2.
           destruct (appended _ _ _) as [o' | e3] eqn:Eo in E2; [discriminate |].
           injection E2 as <-. apply Ha in Eo as (-> & Hp). auto.
        -- injection E2 as <-.
           destruct (matchers_result_raise _ _ _ _ Em)
             as [H | [H | (H & [Hp | (d & Hd & Hl)])]]; auto.
           right. right. split; [assumption |]. right.
           rewrite (py_iter_dict_elem _ _ _ Ei Hd) in Hv.
           now exists ms, d.
      * injection E2 as <-. left.
        destruct v as [[| | |] | |]; cbn in Ei; congruence.
    + apply Ha in E2 as (-> & Hp). auto.
    + injection E2 as <-. left. eapply Hc. exact Ec.
  - intros H. injection H as <-.
    unfold released_at_result, Res.bind in E1.
    destruct (py_contains "released_at" details) as [[|] | e3] eqn:Ec;
      cbv beta iota delta [negb] in E1.
    + destruct (py_contains_getitem _ _ Ec) as [(v & Hv) | Hv]; rewrite Hv in E1;
        [| injection E1 as <-; now left].
      destruct (validate_iso8601 v) as [ok | e3] eqn:Ev.
      * apply Ha in E1 as (-> & Hp). auto.
      * injection E1 as <-. right. left.
        destruct v as [[| | |] | |]; cbn in Ev; congruence.
    + apply Ha in E1 as (-> & Hp). auto.
    + injection E1 as <-. left. eapply Hc. exact Ec.
Qed.

Lemma key_result_raise version_list i k e :
  nth_error version_list i = Some k ->
  key_result version_list (i, k) = Raise e -> e = TypeError.
Proof.
  intros Hk. rewrite key_result_eq. unfold Res.bind, list_index. cbn [fst snd].
  destruct (validate_semver k) as [ok | e1] eqn:Es.
  - destruct (0 <? i)%nat eqn:Ei; [| discriminate].
    destruct (nth_error version_list (i - 1)) as [prev |] eqn:Ep.
    + destruct (py_le k prev) as [le | e1] eqn:El; [discriminate |].
      intros H. injection H as <-.
      unfold py_le in El.
      destruct k as [| | |], prev as [| | |]; cbn in El; congruence.
    + apply nth_error_None in Ep.
      assert (i < List.length version_list)%nat
        by (apply nth_error_Some; congruence).
      apply Nat.ltb_lt in Ei. lia.
  - intros H. injection H as <-. destruct k; cbn in Es; congruence.
Qed.

(** The exceptions of the validator: [TypeError] and [AttributeError] from
    values of the wrong type, and [ValueError] from a message that prints
    an integer of more than 4300 digits, which can only be a field of a
    matcher: the keys that are printed are strings. *)
Lemma validate_manifest_raise_cases data e :
  validate_manifest data = Raise e ->
  (e = TypeError \/ e = AttributeError \/ e = ValueError)
  /\ (e = ValueError ->
      exists items version details matcher_list d,
        py_getitem data "versions" = Ok (VDict items)
        /\ In (version, details) items
        /\ py_getitem details "matchers" = Ok (VList matcher_list)
        /\ In (VDict d) matcher_list
        /\ long_int_field d = true).
Proof.
  rewrite validate_manifest_eq. unfold Res.bind, lacks_versions.
  destruct (negb (truthy data)) eqn:Et; [discriminate |].
  destruct (py_contains "versions" data) as [[|] | e1] eqn:Ec; cbn.
  - destruct (py_contains_getitem _ _ Ec) as [(v & Hv) | Hv]; rewrite Hv;
      [| intros H; injection H as <-; split; [auto | discriminate]].
    destruct (negb (truthy v)); [discriminate |].
    destruct v as [s | l | items];
      try (intros H; injection H as <-; split; [auto | discriminate]).
    unfold loops_result, Res.bind.
    destruct (collect (key_result (map fst items)) _) as [e1 | e1] eqn:E1.
    + destruct (collect entry_result items) as [e2 | e2] eqn:E2; [discriminate |].
      intros H. injection H as <-.
      apply collect_raise in E2 as ([version details] & Hin & Hr).
      destruct (collect_keys_str _ _ version E1 (in_map fst _ _ Hin)) as (k & ->).
      destruct (entry_result_raise _ _ _ Hr)
        as [H | [H | (H & [Hp | (ml & d & Hm & Hd & Hl)])]];
        try discriminate; try (subst e2; split; [auto | discriminate]).
      split; [auto |]. intros _. now exists items, (SStr k), details, ml, d.
    + intros H. injection H as <-.
      apply collect_raise in E1 as ([i k] & Hin & Hr).
      apply enumerate_In in Hin.
      rewrite (key_result_raise _ _ _ _ Hin Hr). split; [auto | discriminate].
  - discriminate.
  - intros H. injection H as <-.
    assert (e1 = TypeError) as ->
      by (destruct data as [[| | |] | |]; cbn in Ec; congruence).
    split; [auto | discriminate].
Qed.


(** ** The timestamp check *)

Lemma str_replace_app c by_ s1 s2 :
  str_replace c by_ (s1 ++ s2) = str_replace c by_ s1 ++ str_replace c by_ s2.
Proof.
  induction s1 as [| x s1 IH]; cbn; [reflexivity |].
  rewrite IH. destruct (Ascii.eqb x c); cbn; [now rewrite string_app_assoc | reflexivity].
Qed.

Lemma has_char_app c a b : has_char c (a ++ b) = has_char c a || has_char c b.
Proof.
  induction a as [| x a IH]; cbn; [reflexivity |]. now rewrite IH, orb_assoc.
Qed.

Lemma str_replace_absent c by_ s :
  has_char c s = false -> str_replace c by_ s = s.
Proof.
  induction s as [| x s IH]; cbn; [reflexivity |]. intros H.
  apply orb_false_elim in H as [Hx Hs]. rewrite Hx. now rewrite IH.
Qed.

Lemma str_replace_clean c by_ s :
  has_char c by_ = false -> has_char c (str_replace c by_ s) = false.
Proof.
  intros Hb. induction s as [| x s IH]; cbn; [reflexivity |].
  destruct (Ascii.eqb x c) eqn:E.
  - now rewrite has_char_app, Hb, IH.
  - cbn. now rewrite E, IH.
Qed.

(** X3: a timestamp that ends in [Z] is judged as the same timestamp ending in
    [+00:00]: both reach the parser as the same string. *)
Theorem validate_iso8601_Z_is_utc_offset s :
  validate_iso8601 (VStr (s ++ "Z")) = validate_iso8601 (VStr (s ++ "+00:00")).
Proof.
  cbn [validate_iso8601]. rewrite !str_replace_app.
  now rewrite (str_replace_absent "Z"%char "+00:00" "+00:00" eq_refl).
Qed.

(** A timestamp without [Z] is judged by the parser as it stands. *)
Lemma validate_iso8601_plain s :
  has_char "Z" s = false -> validate_iso8601 (VStr s) = Ok (fromisoformat s).
Proof. intros H. cbn. now rewrite str_replace_absent. Qed.

(** ** The country check *)

(** X6: in an iteration that returns, a [country] matcher gets the invalid
    country code error, printed with its value, exactly when its value is
    not one of the configured codes; [has_default] keeps its value. *)
Theorem country_error_iff version has_default d has_default' out :
  field "matcher_type" d = VStr "country" ->
  check_matcher version has_default (VDict d) [] = Ok (has_default', out) ->
  has_default' = has_default
  /\ (In (msg_country version (field "matcher_value" d)) out <->
      ~ (exists c, field "matcher_value" d = VStr c /\ In c VALID_COUNTRIES)).
Proof.
  intros Ht H. rewrite check_matcher_dict in H.
  destruct (matcher_result version has_default d) as [[h o] | e] eqn:E;
    [| discriminate].
  cbn in H. injection H as <- <-.
  destruct (matcher_result_ok _ _ _ _ _ E)
    as [(K & _) | (_ & bc & bh & ok & Ec & Eh & _ & -> & ->)];
    [rewrite Ht in K; discriminate |].
  rewrite Ht in Ec, Eh. rewrite Ht.
  change (falsy_or_not_in (field "matcher_value" d) VALID_COUNTRIES = Ok bc) in Ec.
  change (Ok false = Ok bh) in Eh. injection Eh as <-.
  split; [reflexivity |].
  set (mv := field "matcher_value" d) in *.
  assert (Hin : In (msg_country version mv)
                  ((if bc then [msg_country version mv] else [])
                     ++ []
                     ++ (if ok then []
                         else [msg_severity version (field "severity" d)]))%list
                <-> bc = true).
  { split.
    - intros Hi. apply in_app_or in Hi as [Hi | Hi].
      + destruct bc; [reflexivity | destruct Hi].
      + cbn [app] in Hi. destruct ok; [destruct Hi |]. destruct Hi as [Hi | []].
        apply msg_version_inv_rest in Hi. discriminate.
    - intros ->. now left. }
  rewrite Hin. clear Hin.
  unfold falsy_or_not_in, Res.bind in Ec.
  destruct (negb (truthy mv)) eqn:Et.
  - injection Ec as <-. split; [| reflexivity].
    intros _ (c & Hc & Hv). rewrite Hc in Et. cbn in Et.
    destruct (String.eqb_spec c ""); [subst c | discriminate].
    apply mem_string_In in Hv. discriminate.
  - destruct (py_in_set mv VALID_COUNTRIES) as [[|] | ?] eqn:Es; try discriminate;
      injection Ec as <-; cbn [negb].
    + apply py_in_set_true in Es. split; [discriminate |].
      intros Hn. destruct Hn. exact Es.
    + split; [| reflexivity]. intros _ Hex.
      apply py_in_set_true in Hex. congruence.
Qed.

(** ** The loops only append *)

(** X15: whatever the loops are given, a loop that returns has kept the errors
    collected so far, in their order, in front of what it adds; this holds
    for the loop over the keys, the loop over the entries and the loop over
    the matchers of an entry. *)
Theorem loops_only_append :
  (forall version_list l errors errors',
      Acc.for_each (check_version_key version_list) l errors = Ok (tt, errors') ->
      exists out, errors' = (errors ++ out)%list)
  /\ (forall items errors errors',
         Acc.for_each check_version_entry items errors = Ok (tt, errors') ->
         exists out, errors' = (errors ++ out)%list)
  /\ (forall version matcher_list has_default has_default' errors errors',
         Acc.for_fold (check_matcher version) matcher_list has_default errors
         = Ok (has_default', errors') ->
         exists out, errors' = (errors ++ out)%list).
Proof.
  split; [| split].
  - intros version_list l errors errors' H.
    rewrite (for_each_collect _ (key_result version_list)) in H
      by apply check_version_key_eq.
    destruct (collect (key_result version_list) l) as [out | ?]; [| discriminate].
    injection H as <-. now exists out.
  - intros items errors errors' H.
    rewrite (for_each_collect _ entry_result) in H by apply check_version_entry_eq.
    destruct (collect entry_result items) as [out | ?]; [| discriminate].
    injection H as <-. now exists out.
  - intros version matcher_list has_default has_default' errors errors' H.
    rewrite for_fold_check_matcher in H.
    destruct (matchers_result version matcher_list has_default) as [[h out] | ?];
      [| discriminate].
    injection H as _ <-. now exists out.
Qed.

(** ** The errors of the key loop, in the output *)

Lemma loops_of_validate data items errs :
  validate_manifest data = Ok errs ->
  py_getitem data "versions" = Ok (VDict items) ->
  (items = [] /\ errs = [msg_no_versions])
  \/ (items <> [] /\ loops_result items = Ok errs).
Proof.
  intros H Hv. rewrite (validate_manifest_versions _ _ Hv) in H.
  destruct items as [| item items'].
  - left. injection H as <-. auto.
  - right. split; [discriminate | assumption].
Qed.

(** What a key at position [i] contributes when the loop returns. *)
Lemma key_result_ok version_list i k out :
  key_result version_list (i, k) = Ok out ->
  exists s order,
    k = SStr s
    /\ out = ((if re_match_anchored semver_pattern s then [] else [msg_semver k])
                ++ order)%list
    /\ (order = []
        \/ exists j p, i = S j /\ nth_error version_list j = Some (SStr p)
                       /\ String.leb s p = true
                       /\ order = [msg_order (SStr p) k])
    /\ (forall j p, i = S j -> nth_error version_list j = Some (SStr p) ->
                    String.leb s p = false -> order = []).
Proof.
  rewrite key_result_eq. unfold Res.bind, list_index. cbn [fst snd].
  destruct k as [| | | s]; try discriminate. cbn [validate_semver].
  intros H. exists s.
  destruct i as [| j]; cbn [Nat.ltb Nat.leb] in H.
  - injection H as <-. exists []. rewrite app_nil_r.
    split; [reflexivity | split; [| split; [now left | discriminate]]].
    destruct (re_match_anchored _ _); reflexivity.
  - replace (S j - 1)%nat with j in H by lia.
    destruct (nth_error version_list j) as [prev |] eqn:Ep; [| discriminate].
    destruct prev as [| | | p]; try discriminate. cbn [py_le] in H.
    injection H as <-.
    exists (if String.leb s p then [msg_order (SStr p) (SStr s)] else []).
    split; [reflexivity | split; [| split]].
    + destruct (re_match_anchored _ _); reflexivity.
    + destruct (String.leb s p) eqn:El; [right | now left].
      exists j, p. auto.
    + intros j' p' Ej Hp' Hle. injection Ej as <-. rewrite Ep in Hp'.
      injection Hp' as <-. now rewrite Hle.
Qed.

Lemma msg_semver_inv a b : msg_semver a = msg_semver b -> scalar_text a = scalar_text b.
Proof. unfold msg_semver. apply string_app_inv_head. Qed.

(** X9: in a run that returns, the output has the format error for the string
    [s] exactly when [s] is a key of the [versions] mapping that
    [validate_semver] rejects. *)
Theorem semver_error_iff data items errs s :
  validate_manifest data = Ok errs ->
  py_getitem data "versions" = Ok (VDict items) ->
  (In ("Invalid semantic version format: " ++ s) errs
   <-> In (SStr s) (map fst items) /\ validate_semver (SStr s) = Ok false).
Proof.
  intros H Hv.
  change ("Invalid semantic version format: " ++ s) with (msg_semver (SStr s)).
  destruct (loops_of_validate _ _ _ H Hv) as [[-> ->] | [Hne HL]].
  - split; [intros [E | []]; discriminate | intros [[] _]].
  - apply loops_result_ok in HL as (e1 & e2 & H1 & H2 & ->). split.
    + intros He. apply in_app_or in He as [He | He].
      * destruct (collect_In _ _ _ _ H1 He) as ([i k] & o & Hi & Ho & Heo).
        apply enumerate_In in Hi.
        destruct (key_result_ok _ _ _ _ Ho) as (k' & order & -> & -> & Hord & _).
        apply in_app_or in Heo as [Heo | Heo].
        -- destruct (re_match_anchored semver_pattern k') eqn:Er; [destruct Heo |].
           destruct Heo as [E | []]. apply msg_semver_inv in E. cbn in E. subst k'.
           split; [eapply nth_error_In; eassumption | cbn; now rewrite Er].
        -- destruct Hord as [-> | (j & p & _ & _ & _ & ->)]; [destruct Heo |].
           destruct Heo as [E | []]. discriminate.
      * destruct (collect_entry_msgs _ _ _ H2 He) as (v & d & o & _ & _ & _ & Hm).
        apply entry_msg_head in Hm. discriminate.
    + intros [Hin Hs]. apply in_or_app. left.
      apply In_nth_error in Hin as (i & Hi). apply enumerate_nth in Hi.
      destruct (collect_incl _ _ _ _ H1 Hi) as (o & Ho & Hio).
      destruct (key_result_ok _ _ _ _ Ho) as (k' & order & Ek & -> & _).
      injection Ek as <-. apply Hio. cbn in Hs. injection Hs as ->.
      now left.
Qed.

Lemma leb_false_ltb a b : String.leb b a = false -> String.ltb a b = true.
Proof.
  unfold String.ltb, String.leb. rewrite (String.compare_antisym b a).
  destruct (String.compare a b); cbn; congruence.
Qed.

Lemma ascending_of_adjacent keys :
  (forall k, In k keys -> exists s, k = SStr s) ->
  (forall i x y, nth_error keys i = Some (SStr x) ->
                 nth_error keys (S i) = Some (SStr y) -> String.ltb x y = true) ->
  ascending keys = true.
Proof.
  induction keys as [| k keys IH]; intros Hs Ha; [reflexivity |].
  destruct (Hs k (or_introl eq_refl)) as (x & ->).
  destruct keys as [| k' keys']; [reflexivity |].
  destruct (Hs k' (or_intror (or_introl eq_refl))) as (y & ->).
  cbn [ascending]. rewrite (Ha 0%nat x y eq_refl eq_refl). cbn [andb].
  apply IH.
  - intros k Hk. apply Hs. now right.
  - intros i a b Hi Hj. apply (Ha (S i) a b); assumption.
Qed.

(** X10: in a run that returns, the output has no ordering error at all exactly
    when every key of the mapping is strictly below the next one, as
    strings. *)
Theorem no_ordering_error_iff_ascending data items errs :
  validate_manifest data = Ok errs ->
  py_getitem data "versions" = Ok (VDict items) ->
  ((forall a b, ~ In (msg_order a b) errs) <-> ascending (map fst items) = true).
Proof.
  intros H Hv.
  destruct (loops_of_validate _ _ _ H Hv) as [[-> ->] | [Hne HL]].
  - split; [reflexivity |]. intros _ a b [E | []]. discriminate.
  - pose proof HL as HL'.
    apply loops_result_ok in HL' as (e1 & e2 & H1 & H2 & ->). split.
    + intros Hno. apply ascending_of_adjacent.
      * intros k Hk. eapply collect_keys_str; eassumption.
      * intros i x y Hx Hy. apply leb_false_ltb.
        destruct (String.leb y x) eqn:El; [| reflexivity].
        destruct (Hno (SStr x) (SStr y)).
        apply (loops_adjacent_keys _ _ _ _ _ HL Hx Hy). rewrite El.
        apply in_or_app. right. now left.
    + intros Hasc a b He. apply in_app_or in He as [He | He].
      * destruct (collect_In _ _ _ _ H1 He) as ([i k] & o & Hi & Ho & Heo).
        apply enumerate_In in Hi.
        destruct (key_result_ok _ _ _ _ Ho) as (s & order & -> & -> & Hord & _).
        apply in_app_or in Heo as [Heo | Heo].
        -- destruct (re_match_anchored semver_pattern s); [destruct Heo |].
           destruct Heo as [E | []]. discriminate.
        -- destruct Hord as [-> | (j & p & -> & Hp & Hle & ->)]; [destruct Heo |].
           destruct (ascending_adjacent _ _ _ _ Hasc Hp Hi) as (x & y & Ex & Ey & Hlt).
           injection Ex as <-. injection Ey as <-.
           apply ltb_not_leb in Hlt. congruence.
      * destruct (collect_entry_msgs _ _ _ H2 He) as (v & d & o & _ & _ & _ & Hm).
        apply entry_msg_head in Hm. discriminate.
Qed.

(** X11: a key of the [versions] mapping that is not a string (a YAML integer,
    boolean or null key) makes the validator raise [TypeError], whatever
    else the manifest holds. *)
Theorem non_string_key_raises data items k :
  py_getitem data "versions" = Ok (VDict items) ->
  In k (map fst items) ->
  is_str_key k = false ->
  validate_manifest data = Raise TypeError.
Proof.
  intros Hv Hin Hk. rewrite (validate_manifest_versions _ _ Hv).
  destruct items as [| item items']; [destruct Hin |].
  set (items := item :: items') in *.
  unfold loops_result, Res.bind.
  destruct (collect (key_result (map fst items)) (enumerate (map fst items)))
    as [e1 | e] eqn:E1.
  - apply In_nth_error in Hin as (i & Hi). apply enumerate_nth in Hi.
    destruct (collect_incl _ _ _ _ E1 Hi) as (o & Ho & _).
    destruct (key_result_ok _ _ _ _ Ho) as (s & _ & -> & _). discriminate.
  - apply collect_raise in E1 as ([i k'] & Hi & Hr).
    apply enumerate_In in Hi. now rewrite (key_result_raise _ _ _ _ Hi Hr).
Qed.

(** ** An empty output means a valid manifest *)

Lemma collect_empty {A} (f : A -> result (list string)) l a :
  collect f l = Ok [] -> In a l -> f a = Ok [].
Proof.
  intros H Hin. destruct (collect_incl _ _ _ _ H Hin) as (o & Ho & Hi).
  destruct o as [| e o]; [assumption |]. destruct (Hi e (or_introl eq_refl)).
Qed.

Lemma matcher_result_empty version has_default d has_default' :
  matcher_result version has_default d = Ok (has_default', []) ->
  valid_matcher (VDict d) = true.
Proof.
  intros H. cbn [valid_matcher].
  destruct (matcher_result_ok _ _ _ _ _ H)
    as [(_ & _ & E & _) | (Ek & bc & bh & ok & Ec & Eh & Es & _ & E)];
    [discriminate |].
  apply py_in_set_true in Ek as (t & Et & Ht). rewrite Et in *.
  cbn [value_is_str scalar_is_str] in Ec, Eh.
  destruct bc; [discriminate |]. destruct bh; [discriminate |].
  destruct ok; [| discriminate].
  apply py_in_set_true in Es as (sev & -> & Hsev).
  apply mem_string_In in Ht, Hsev. rewrite Ht, Hsev. cbn [andb].
  assert (C : (if String.eqb "country" t
               then match field "matcher_value" d with
                    | VScalar (SStr c) => mem_string c VALID_COUNTRIES
                    | _ => false
                    end
               else true) = true).
  { destruct (String.eqb "country" t); [| reflexivity].
    unfold falsy_or_not_in, Res.bind in Ec.
    destruct (negb (truthy (field "matcher_value" d))); [discriminate |].
    destruct (py_in_set (field "matcher_value" d) VALID_COUNTRIES)
      as [[|] | ?] eqn:E'; try discriminate.
    apply py_in_set_true in E' as (c & -> & Hc). now apply mem_string_In. }
  assert (L : (if String.eqb "location_hash" t
               then match field "matcher_value" d with
                    | VScalar (SStr h) => re_match_anchored location_hash_pattern h
                    | _ => false
                    end
               else true) = true).
  { destruct (String.eqb "location_hash" t); [| reflexivity].
    unfold falsy_or_bad_hash, Res.bind in Eh.
    destruct (negb (truthy (field "matcher_value" d))); [discriminate |].
    destruct (field "matcher_value" d) as [[| | | h] | |]; try discriminate.
    cbn [validate_location_hash] in Eh.
    destruct (re_match_anchored location_hash_pattern h); [reflexivity | discriminate]. }
  now rewrite C, L.
Qed.

Lemma matchers_result_empty version matcher_list has_default has_default' :
  matchers_result version matcher_list has_default = Ok (has_default', []) ->
  forallb valid_matcher matcher_list = true.
Proof.
  revert has_default.
  induction matcher_list as [| m l IH]; intros has_default;
    cbn [matchers_result forallb]; [reflexivity |].
  destruct m as [s | l' | d]; try discriminate. unfold Res.bind.
  destruct (matcher_result version has_default d) as [[h1 o1] | ?] eqn:E1;
    [| discriminate].
  cbn [fst snd].
  destruct (matchers_result version l h1) as [[h2 o2] | ?] eqn:E2; [| discriminate].
  intros H. injection H as <- H. apply app_eq_nil in H as [-> ->].
  apply matcher_result_empty in E1. rewrite E1.
  cbn [andb]. eapply IH. exact E2.
Qed.

Lemma entry_result_empty version details :
  entry_result (version, details) = Ok [] ->
  valid_entry fromisoformat (str_replace "Z"%char "+00:00") details = true.
Proof.
  intros H. apply entry_result_ok in H as (o1 & o2 & H1 & H2 & E).
  cbn [fst snd] in *. symmetry in E. apply app_eq_nil in E as [-> ->].
  destruct (released_at_result_ok _ _ _ H1)
    as [(_ & E) | (_ & r & ok & Er & Ev & E)]; [discriminate |].
  destruct ok; [| discriminate].
  apply py_getitem_ok in Er as (d & -> & Er).
  cbn [valid_entry]. rewrite Er.
  destruct r as [[| | | ts] | |]; try discriminate.
  cbn [validate_iso8601] in Ev. injection Ev as Ep. rewrite Ep.
  destruct (entry_matchers_result_ok _ _ _ H2)
    as [(_ & E') | (_ & m & ms & h & mo & Hg & Ei & Em & E')]; [discriminate |].
  symmetry in E'. apply app_eq_nil in E' as [-> Hd].
  destruct h; [| discriminate].
  cbn [py_getitem] in Hg.
  destruct (dict_lookup "matchers" d) as [m' |]; [| discriminate].
  injection Hg as ->.
  pose proof (matchers_result_has_default _ _ _ _ _ Em) as Hh. cbn in Hh.
  pose proof (matchers_result_empty _ _ _ _ Em) as Hv.
  destruct m as [s | l | dm].
  - destruct s as [| | | s]; try discriminate. cbn in Ei. injection Ei as <-.
    destruct (chars_of s) as [| x l] eqn:Ech; [discriminate |].
    destruct (chars_of_str s x) as (t & ->); [rewrite Ech; now left |].
    discriminate.
  - cbn in Ei. injection Ei as <-. now rewrite Hv, <- Hh.
  - cbn in Ei. injection Ei as <-. destruct dm as [| [k v] dm]; discriminate.
Qed.

(** X8: the validator is sound: when it returns the empty sequence, the
    manifest satisfies every rule of the format: a non-empty [versions]
    mapping, keys that [validate_semver] accepts and that are strictly
    ascending as strings, and in every entry a timestamp the parser accepts
    after the replacement, a matcher list with a default matcher, and only
    matchers with a known type, a known severity and, for [country] and
    [location_hash], an accepted value. *)
Theorem no_errors_means_valid data :
  validate_manifest data = Ok [] ->
  valid_manifest fromisoformat (str_replace "Z"%char "+00:00") data = true.
Proof.
  intros H. rewrite validate_manifest_eq in H. unfold Res.bind in H.
  destruct (lacks_versions data) as [[|] | ?]; try discriminate.
  destruct (py_getitem data "versions") as [versions | ?] eqn:Ev; [| discriminate].
  apply py_getitem_ok in Ev as (d & -> & Ev).
  destruct (negb (truthy versions)) eqn:Et; [discriminate |].
  destruct versions as [s | l | items]; try discriminate.
  cbn [valid_manifest]. rewrite Ev.
  destruct items as [| item items']; [discriminate |].
  set (items := item :: items') in *. cbn [andb].
  apply loops_result_ok in H as (e1 & e2 & H1 & H2 & E).
  symmetry in E. apply app_eq_nil in E as [-> ->].
  assert (Hkeys : forall i k, nth_error (map fst items) i = Some k ->
                  exists s, k = SStr s
                            /\ re_match_anchored semver_pattern s = true
                            /\ forall j p, i = S j ->
                                 nth_error (map fst items) j = Some (SStr p) ->
                                 String.ltb p s = true).
  { intros i k Hi. pose proof (enumerate_nth _ _ _ Hi) as Hin.
    pose proof (collect_empty _ _ _ H1 Hin) as Hr.
    destruct (key_result_ok _ _ _ _ Hr) as (s & order & -> & E & Hord & Hnone).
    exists s. symmetry in E. apply app_eq_nil in E as [Es ->].
    split; [reflexivity | split].
    - destruct (re_match_anchored semver_pattern s); [reflexivity | discriminate].
    - intros j p -> Hp. apply leb_false_ltb.
      destruct (String.leb s p) eqn:El; [| reflexivity].
      destruct Hord as [_ | (j' & p' & Ej & Hp' & _ & Ho)]; [| discriminate].
      rewrite key_result_eq in Hr. unfold Res.bind, list_index in Hr.
      cbn [fst snd validate_semver] in Hr.
      replace (S j - 1)%nat with j in Hr by lia. rewrite Hp in Hr.
      cbn in Hr. rewrite El in Hr.
      destruct (re_match_anchored semver_pattern s); discriminate. }
  assert (K : forallb valid_key (map fst items) = true).
  { apply forallb_forall. intros k Hk. apply In_nth_error in Hk as (i & Hi).
    destruct (Hkeys i k Hi) as (s & -> & Hs & _). exact Hs. }
  assert (A : ascending (map fst items) = true).
  { apply ascending_of_adjacent.
    - intros k Hk. apply In_nth_error in Hk as (i & Hi).
      destruct (Hkeys i k Hi) as (s & -> & _). now exists s.
    - intros i x y Hx Hy. destruct (Hkeys (S i) (SStr y) Hy) as (s & Es & _ & Hlt).
      injection Es as <-. now apply (Hlt i x). }
  assert (E : forallb
                (fun kv => valid_entry fromisoformat
                             (str_replace "Z"%char "+00:00") (snd kv))
                items = true).
  { apply forallb_forall. intros [version details] Hin. cbn [snd].
    apply (entry_result_empty version). now apply (collect_empty _ _ _ H2). }
  now rewrite K, A, E.
Qed.

(** ** The errors of one entry, in the output *)

(** No error of the matcher part of an entry ends in [p]. *)
Lemma entry_matchers_result_last version details out e c :
  entry_matchers_result version details = Ok out -> In e out ->
  last_char e = Some c -> c = "'"%char \/ c = "t"%char \/ c = "r"%char.
Proof.
  intros H He Hc.
  destruct (entry_matchers_result_ok _ _ _ H)
    as [(_ & ->) | (_ & m & ms & h & mo & _ & _ & Em & ->)].
  - destruct He as [<- | []].
    unfold msg_missing_matchers in Hc.
    rewrite last_char_msg_version in Hc by discriminate.
    injection Hc as <-. auto.
  - apply in_app_or in He as [He | He].
    + apply matchers_result_msgs in Em. rewrite Forall_forall in Em.
      destruct (matcher_msg_last _ _ (Em _ He)) as [L | L]; rewrite L in Hc;
        injection Hc as <-; auto.
    + destruct h; [destruct He |]. destruct He as [<- | []].
      unfold msg_missing_default in Hc.
      rewrite last_char_msg_version in Hc by discriminate.
      injection Hc as <-. auto.
Qed.

Lemma entry_timestamp_inv version' details' out version :
  entry_result (version', details') = Ok out ->
  In (msg_timestamp version) out ->
  scalar_text version' = scalar_text version
  /\ exists released_at,
      py_getitem details' "released_at" = Ok released_at
      /\ validate_iso8601 released_at = Ok false.
Proof.
  intros H Hin.
  assert (L : last_char (msg_timestamp version) = Some "p"%char)
    by (apply last_char_fixed; [discriminate | reflexivity]).
  apply entry_result_ok in H as (o1 & o2 & H1 & H2 & ->). cbn [fst snd] in *.
  apply in_app_or in Hin as [Hin | Hin].
  - destruct (released_at_result_ok _ _ _ H1)
      as [(_ & ->) | (_ & r & ok & Er & Ev & ->)].
    + destruct Hin as [E | []].
      apply (f_equal last_char) in E. rewrite L in E.
      unfold msg_missing_released_at in E.
      rewrite last_char_msg_version in E by discriminate. discriminate.
    + destruct ok; [destruct Hin |].
      destruct Hin as [E | []]. split.
      * eapply msg_version_inv_key. exact E.
      * now exists r.
  - destruct (entry_matchers_result_last _ _ _ _ _ H2 Hin L) as [E | [E | E]];
      discriminate.
Qed.

(** X12: in a run that returns, for the entry under the key [v] (the keys being
    pairwise distinct), the output has "Version v: invalid ISO 8601
    timestamp" exactly when the entry has a [released_at] string that the
    parser rejects after the replacement of [Z]. *)
Theorem timestamp_error_iff data items errs v details :
  validate_manifest data = Ok errs ->
  py_getitem data "versions" = Ok (VDict items) ->
  NoDup (map fst items) ->
  In (SStr v, details) items ->
  (In ("Version " ++ v ++ ": invalid ISO 8601 timestamp") errs
   <-> exists ts,
       py_getitem details "released_at" = Ok (VStr ts)
       /\ fromisoformat (str_replace "Z"%char "+00:00" ts) = false).
Proof.
  intros H Hv Hnd Hin.
  change ("Version " ++ v ++ ": invalid ISO 8601 timestamp")
    with (msg_timestamp (SStr v)).
  pose proof (validate_loops_entry _ _ _ _ H Hv Hin) as HL. split.
  - intros He. apply loops_result_ok in HL as (e1 & e2 & H1 & H2 & ->).
    apply in_app_or in He as [He | He].
    + apply collect_key_msgs in H1. rewrite Forall_forall in H1.
      apply H1, key_msg_head in He. discriminate.
    + destruct (collect_entry_msgs _ _ _ H2 He) as (v' & d' & o & Hin' & Ho & Heo & _).
      destruct (entry_timestamp_inv _ _ _ _ Ho Heo) as (Ek & r & Hr & Hbad).
      destruct (collect_keys_str _ _ v' H1) as (s & ->);
        [apply (in_map fst) in Hin'; exact Hin' |].
      cbn in Ek. subst s.
      pose proof (NoDup_fst_unique _ _ _ _ Hnd Hin' Hin) as ->.
      destruct r as [[| | | ts] | |]; try discriminate.
      exists ts. split; [assumption |]. cbn in Hbad. now injection Hbad.
  - intros (ts & Hr & Hbad).
    destruct (loops_entry _ _ _ _ HL Hin) as (o1 & o2 & H1 & _ & Hi).
    apply Hi. apply in_or_app. left.
    apply py_getitem_ok in Hr as (d & -> & Hr).
    rewrite released_at_result_dict, Hr, Hbad in H1. injection H1 as <-. now left.
Qed.

(** X13: in a run that returns, an entry that is a mapping without [released_at]
    gets the missing-released_at error; one without [matchers] gets the
    missing-matchers error and, the keys being pairwise distinct, no
    missing-default error. *)
Theorem missing_field_errors data items errs v d :
  validate_manifest data = Ok errs ->
  py_getitem data "versions" = Ok (VDict items) ->
  NoDup (map fst items) ->
  In (SStr v, VDict d) items ->
  (dict_lookup "released_at" d = None ->
   In ("Version " ++ v ++ ": missing 'released_at'") errs)
  /\ (dict_lookup "matchers" d = None ->
      In ("Version " ++ v ++ ": missing 'matchers'") errs
      /\ ~ In ("Version " ++ v ++ ": missing default matcher") errs).
Proof.
  intros H Hv Hnd Hin.
  pose proof (validate_loops_entry _ _ _ _ H Hv Hin) as HL.
  destruct (loops_entry _ _ _ _ HL Hin) as (o1 & o2 & H1 & H2 & Hi).
  split.
  - intros Hn. rewrite released_at_result_dict, Hn in H1. injection H1 as <-.
    apply Hi. now left.
  - intros Hn. split.
    + unfold entry_matchers_result, Res.bind in H2.
      rewrite py_contains_dict, Hn in H2. cbn in H2. injection H2 as <-.
      apply Hi. apply in_or_app. right. now left.
    + change ("Version " ++ v ++ ": missing default matcher")
        with (msg_missing_default (SStr v)).
      intros He. apply loops_result_ok in HL as (e1 & e2 & K1 & K2 & ->).
      apply in_app_or in He as [He | He].
      * apply collect_key_msgs in K1. rewrite Forall_forall in K1.
        apply K1, key_msg_head in He. discriminate.
      * destruct (collect_entry_msgs _ _ _ K2 He)
          as (v' & d' & o & Hin' & Ho & Heo & _).
        destruct (entry_default_inv _ _ _ _ Ho Heo)
          as (Ek & matchers & ml & mo & Hg & _).
        destruct (collect_keys_str _ _ v' K1) as (s & ->);
          [apply (in_map fst) in Hin'; exact Hin' |].
        cbn in Ek. subst s.
        pose proof (NoDup_fst_unique _ _ _ _ Hnd Hin' Hin) as ->.
        cbn in Hg. rewrite Hn in Hg. discriminate.
Qed.

(** X14: an entry in which neither key is found gets exactly the two missing
    errors, whether it is a mapping without them, a string that does not
    contain them or a list that does not hold them; the one case apart is a
    key that [str] refuses to print, an integer of more than 4300 digits,
    for which the first message raises [ValueError] (inside the validator
    the keys are strings by then).  An entry that is not a mapping and in
    which [released_at] is found (a string that contains the word, a list
    that holds it) raises [TypeError] at the subscript. *)
Theorem entry_without_fields version details errors :
  (py_contains "released_at" details = Ok false ->
   py_contains "matchers" details = Ok false ->
   check_version_entry (version, details) errors
   = if printable_scalar version
     then Ok (tt, (errors ++ [msg_missing_released_at version;
                              msg_missing_matchers version])%list)
     else Raise ValueError)
  /\ ((forall d, details <> VDict d) ->
      py_contains "released_at" details = Ok true ->
      check_version_entry (version, details) errors = Raise TypeError).
Proof.
  rewrite check_version_entry_eq.
  unfold entry_result, released_at_result, entry_matchers_result, Res.bind.
  cbn [fst snd]. split.
  - intros -> ->. now destruct (printable_scalar version).
  - intros Hnd ->. cbv beta iota delta [negb].
    destruct details as [s | l | d]; [reflexivity | reflexivity |].
    now destruct (Hnd d).
Qed.

(** ** [main] *)

Lemma dict_set_fresh {V} k (v : V) d :
  ~ In k (map fst d) -> dict_set k v d = (d ++ [(k, v)])%list.
Proof.
  induction d as [| [k' v'] d IH]; cbn; intros Hn; [reflexivity |].
  destruct (String.eqb_spec k k') as [-> | Hne]; [destruct Hn; now left |].
  rewrite IH; [reflexivity |]. intros Hin. apply Hn. now right.
Qed.

Lemma dict_set_not_nil {V} k (v : V) d : dict_set k v d <> [].
Proof. destruct d as [| [k' v'] d]; cbn; [| destruct (String.eqb k k')]; discriminate. Qed.

Lemma validate_files_results files all_errors r :
  validate_files files all_errors = Ok r ->
  exists results,
    Forall2 (fun f errors => validate_manifest_file (snd f) = Ok errors)
      files results.
Proof.
  revert all_errors. induction files as [| [name f] files IH]; intros acc; cbn.
  - intros _. exists []. constructor.
  - unfold Res.bind. destruct (validate_manifest_file f) as [errors | ?] eqn:E;
      [| discriminate].
    intros H. apply IH in H as (results & HF).
    exists (errors :: results). now constructor.
Qed.

Lemma validate_files_distinct files results all_errors :
  NoDup (map fst files) ->
  (forall name, In name (map fst files) -> ~ In name (map fst all_errors)) ->
  Forall2 (fun f errors => validate_manifest_file (snd f) = Ok errors)
    files results ->
  validate_files files all_errors
  = Ok (all_errors ++ failing (map fst files) results)%list.
Proof.
  intros Hnd Hfresh HF. revert all_errors Hnd Hfresh.
  induction HF as [| [name f] errors files results Hf HF IH];
    intros acc Hnd Hfresh; cbn.
  - now rewrite app_nil_r.
  - cbn [snd] in Hf. rewrite Hf. cbn [Res.bind].
    inversion Hnd as [| ? ? Hname Hnd']; subst.
    destruct errors as [| e errors].
    + apply IH; [assumption |]. intros n Hn. apply Hfresh. now right.
    + rewrite dict_set_fresh by (apply Hfresh; now left).
      rewrite IH; [now rewrite <- app_assoc | assumption |].
      intros n Hn Hin. rewrite map_app in Hin. apply in_app_or in Hin as [Hin | Hin].
      * apply (Hfresh n); [now right | assumption].
      * cbn in Hin. destruct Hin as [<- | []]. contradiction.
Qed.

Lemma validate_files_keeps files all_errors r :
  validate_files files all_errors = Ok r -> all_errors <> [] -> r <> [].
Proof.
  revert all_errors. induction files as [| [name f] files IH]; intros acc; cbn.
  - intros H. now injection H as <-.
  - unfold Res.bind. destruct (validate_manifest_file f) as [errors | ?];
      [| discriminate].
    intros H Hne. apply (IH _ H). destruct errors; [assumption |].
    apply dict_set_not_nil.
Qed.

Lemma validate_files_raise files all_errors e :
  validate_files files all_errors = Raise e ->
  exists name data,
    In (name, Parsed data) files /\ validate_manifest data = Raise e.
Proof.
  revert all_errors. induction files as [| [name f] files IH]; intros acc; cbn;
    [discriminate |].
  unfold Res.bind. destruct (validate_manifest_file f) as [errors | e'] eqn:E.
  - intros H. apply IH in H as (n & data & Hin & Hr).
    exists n, data. split; [now right | assumption].
  - intros H. injection H as ->. destruct f as [data | |]; try discriminate.
    exists name, data. split; [now left | assumption].
Qed.

(** X17: [main] exits with status 0 exactly when the directory exists and every
    file it lists loads and validates to the empty sequence; it then prints
    the one line "All manifest files are valid". *)
Theorem main_exit_zero_iff dir out :
  main dir = Ok (out, 0%Z) <->
  out = ["All manifest files are valid"]
  /\ exists files,
      dir = Some files
      /\ forall name f, In (name, f) files -> validate_manifest_file f = Ok [].
Proof.
  split.
  - destruct dir as [files |]; cbn; [| discriminate]. unfold Res.bind.
    destruct (validate_files files []) as [[| entry all_errors] | ?] eqn:E;
      try discriminate.
    intros H. injection H as <-. split; [reflexivity |].
    exists files. split; [reflexivity |].
    assert (G : forall fs acc, validate_files fs acc = Ok [] ->
                forall name f, In (name, f) fs -> validate_manifest_file f = Ok []).
    { clear. induction fs as [| [n g] fs IH]; intros acc H name f Hin;
        [destruct Hin |].
      cbn in H. unfold Res.bind in H.
      destruct (validate_manifest_file g) as [[| e errors] | ?] eqn:Eg;
        try discriminate.
      - destruct Hin as [Hin | Hin]; [injection Hin as <- <-; assumption |].
        eapply IH; eassumption.
      - exfalso. eapply validate_files_keeps; [exact H | | reflexivity].
        apply dict_set_not_nil. }
    eapply G. exact E.
  - intros (-> & files & -> & Hall). cbn. unfold Res.bind.
    assert (G : forall fs, (forall name f, In (name, f) fs ->
                                           validate_manifest_file f = Ok []) ->
                           validate_files fs [] = Ok []).
    { clear. induction fs as [| [n g] fs IH]; intros Hall; [reflexivity |].
      cbn. rewrite (Hall n g (or_introl eq_refl)). cbn.
      apply IH. intros name f Hin. apply (Hall name f). now right. }
    now rewrite (G files Hall).
Qed.

(** X18: [main] lets an exception escape exactly when the validation of some
    listed manifest raises, and then it is a [TypeError], an
    [AttributeError] or a [ValueError]; a file that fails to load never
    makes it raise. *)
Theorem main_raises_iff files :
  ((exists e, main (Some files) = Raise e) <->
   exists name data e,
     In (name, Parsed data) files /\ validate_manifest data = Raise e)
  /\ (forall e, main (Some files) = Raise e ->
                e = TypeError \/ e = AttributeError \/ e = ValueError).
Proof.
  assert (R : forall e, main (Some files) = Raise e ->
                        validate_files files [] = Raise e).
  { intros e. cbn. unfold Res.bind.
    destruct (validate_files files []) as [[| entry l] | e']; try discriminate.
    congruence. }
  split; [split |].
  - intros (e & H). apply R in H.
    destruct (validate_files_raise _ _ _ H) as (name & data & Hin & Hr).
    now exists name, data, e.
  - intros (name & data & e & Hin & Hr). cbn. unfold Res.bind.
    destruct (validate_files files []) as [r | e'] eqn:E; [| now exists e'].
    apply validate_files_results in E as (results & HF). exfalso.
    clear R. induction HF as [| [n f] errors fs rs Hf HF IH]; [destruct Hin |].
    destruct Hin as [Hin | Hin]; [| auto].
    injection Hin as -> ->. cbn in Hf. congruence.
  - intros e H. apply R in H.
    destruct (validate_files_raise _ _ _ H) as (name & data & _ & Hr).
    exact (proj1 (validate_manifest_raise_cases _ _ Hr)).
Qed.

Lemma main_of_results files results :
  NoDup (map fst files) ->
  Forall2 (fun f errors => validate_manifest_file (snd f) = Ok errors)
    files results ->
  main (Some files)
  = Ok (match failing (map fst files) results with
        | [] => (["All manifest files are valid"], 0%Z)
        | _ :: _ => (report (failing (map fst files) results), 1%Z)
        end).
Proof.
  intros Hnd HF. cbn [main].
  rewrite (validate_files_distinct files results []);
    [| assumption | intros name _ [] | assumption].
  cbn [app Res.bind]. now destruct (failing (map fst files) results).
Qed.

(** X19: with distinct file names and every file giving a result, [main] is
    determined by the results: status 0 and the success line when all are
    empty; otherwise status 1 and the report, which names the files with
    errors in directory order, each followed by its errors in order. *)
Theorem main_report files results :
  NoDup (map fst files) ->
  Forall2 (fun f errors => validate_manifest_file (snd f) = Ok errors)
    files results ->
  main (Some files)
  = Ok (match failing (map fst files) results with
        | [] => (["All manifest files are valid"], 0%Z)
        | _ :: _ => (report (failing (map fst files) results), 1%Z)
        end).
Proof. exact (main_of_results files results). Qed.

Lemma failing_In names results name e errors :
  In (name, e :: errors) (combine names results) ->
  In (name, e :: errors) (failing names results).
Proof.
  revert results. induction names as [| n names IH]; intros [| r results] Hin;
    try destruct Hin.
  - injection H as -> ->. cbn. now left.
  - cbn. destruct r; [auto | right; auto].
Qed.

Lemma Forall2_combine_In {A B} (P : A -> B -> Prop) l1 l2 a :
  Forall2 P l1 l2 -> In a l1 -> exists b, In (a, b) (combine l1 l2) /\ P a b.
Proof.
  intros HF. induction HF as [| x y l1 l2 Hxy HF IH]; intros Hin; [destruct Hin |].
  destruct Hin as [-> | Hin].
  - exists y. split; [now left | assumption].
  - destruct (IH Hin) as (b & Hb & Pb). exists b. split; [now right | assumption].
Qed.

Lemma combine_map_fst {A B C} (l : list (A * B)) (r : list C) a b c :
  In ((a, b), c) (combine l r) -> In (a, c) (combine (map fst l) r).
Proof.
  revert r. induction l as [| [x y] l IH]; intros [| z r] Hin; try destruct Hin.
  - injection H as -> -> ->. now left.
  - right. auto.
Qed.

(** X20: when [main] returns, with distinct file names, every file that has an
    error makes the status 1 and is in the report: the line of its name and
    the line of each of its errors.  In particular a file with a YAML
    syntax error is reported and does not stop the run. *)
Theorem main_reports_every_failing_file files name f e errors out code :
  NoDup (map fst files) ->
  In (name, f) files ->
  validate_manifest_file f = Ok (e :: errors) ->
  main (Some files) = Ok (out, code) ->
  code = 1%Z
  /\ In (name ++ ":") out
  /\ forall error, In error (e :: errors) -> In ("  - " ++ error) out.
Proof.
  intros Hnd Hin Hf H.
  assert (HR : exists results,
             Forall2 (fun f errors => validate_manifest_file (snd f) = Ok errors)
               files results).
  { cbn in H. unfold Res.bind in H.
    destruct (validate_files files []) as [r | ?] eqn:E; [| discriminate].
    eapply validate_files_results. exact E. }
  destruct HR as (results & HF).
  rewrite (main_of_results files results Hnd HF) in H.
  destruct (Forall2_combine_In _ _ _ _ HF Hin) as (r & Hc & Hr).
  cbn [snd] in Hr. rewrite Hf in Hr. injection Hr as <-.
  apply combine_map_fst, failing_In in Hc.
  assert (Sub : incl (report_file (name, e :: errors))
                  (report (failing (map fst files) results))).
  { intros line Hl. right. apply in_flat_map.
    exists (name, e :: errors). split; assumption. }
  destruct (failing (map fst files) results) as [| x l] eqn:Ef; [destruct Hc |].
  injection H as <- <-. split; [reflexivity | split].
  - apply Sub. now left.
  - intros error He. apply Sub. right.
    apply in_map_iff. exists error. split; [reflexivity | exact He].
Qed.

(** ** An entry with an empty matcher list *)

Lemma collect_app {A} (f : A -> result (list string)) l1 l2 :
  collect f (l1 ++ l2)
  = (o1 <- collect f l1 ;; o2 <- collect f l2 ;; Ok (o1 ++ o2)%list)%res.
Proof.
  induction l1 as [| a l1 IH]; cbn.
  - now destruct (collect f l2).
  - destruct (f a) as [oa | e]; cbn; [| reflexivity].
    rewrite IH. unfold Res.bind.
    destruct (collect f l1) as [o1 | e]; [| reflexivity].
    destruct (collect f l2) as [o2 | e]; [| reflexivity].
    now rewrite app_assoc.
Qed.

Lemma has_char_app_false c a b :
  has_char c a = false -> has_char c b = false -> has_char c (a ++ b) = false.
Proof. intros Ha Hb. now rewrite has_char_app, Ha, Hb. Qed.

Lemma before_char_app c a b :
  has_char c a = false -> before_char c (a ++ String c b) = a.
Proof.
  induction a as [| x a IH]; cbn.
  - now rewrite Ascii.eqb_refl.
  - intros H. apply orb_false_elim in H as [Hx Ha]. now rewrite Hx, IH.
Qed.

Lemma after_char_app c a b :
  has_char c a = false -> after_char c (a ++ String c b) = b.
Proof.
  induction a as [| x a IH]; cbn.
  - now rewrite Ascii.eqb_refl.
  - intros H. apply orb_false_elim in H as [Hx Ha]. now rewrite Hx, IH.
Qed.

Lemma has_char_split c s :
  has_char c s = true ->
  s = before_char c s ++ String c (after_char c s)
  /\ has_char c (before_char c s) = false.
Proof.
  induction s as [| x s IH]; cbn; [discriminate |].
  destruct (Ascii.eqb x c) eqn:E.
  - intros _. apply Ascii.eqb_eq in E. now subst x.
  - cbn. intros H. destruct (IH H) as [Hs Hb]. rewrite E, Hb.
    split; [now rewrite <- Hs | reflexivity].
Qed.

Lemma reversed_app a b : reversed (a ++ b) = reversed b ++ reversed a.
Proof.
  induction a as [| x a IH]; cbn.
  - now rewrite string_app_nil_r.
  - now rewrite IH, string_app_assoc.
Qed.

(** The key of a message that reads "Version v: missing 'matchers'", for a
    [v] without quote, is [v]: up to the first quote the message is the
    key and a word, and no other word ends as "missing" does. *)
Lemma missing_matchers_key v v' :
  has_char "'" v = false ->
  entry_msg (SStr v') (msg_missing_matchers (SStr v)) -> v' = v.
Proof.
  intros Hv H.
  assert (Split : forall p t,
             has_char "'" p = false ->
             v' ++ p ++ String "'" t = v ++ ": missing 'matchers'" ->
             has_char "'" v' = false ->
             v' ++ p = v ++ ": missing " /\ t = "matchers'").
  { intros p t Hp E Hv'.
    replace (v' ++ p ++ String "'" t) with ((v' ++ p) ++ String "'" t) in E
      by now rewrite string_app_assoc.
    replace (v ++ ": missing 'matchers'")
      with ((v ++ ": missing ") ++ String "'" "matchers'") in E
      by now rewrite string_app_assoc.
    assert (H1 : has_char "'" (v' ++ p) = false)
      by now apply has_char_app_false.
    assert (H2 : has_char "'" (v ++ ": missing ") = false)
      by now apply has_char_app_false.
    split.
    - apply (f_equal (before_char "'")) in E.
      now rewrite !before_char_app in E.
    - apply (f_equal (after_char "'")) in E.
      now rewrite !after_char_app in E. }
  assert (Word : forall p,
             v' ++ p = v ++ ": missing " ->
             (exists x y p', reversed p = String x (String y p')
                             /\ y <> "g"%char) ->
             False).
  { intros p E (x & y & p' & Ep & Hy).
    apply (f_equal reversed) in E. rewrite !reversed_app, Ep in E.
    cbn in E. injection E as _ E _. now destruct Hy. }
  assert (Long : forall r, has_char "'" v' = true ->
                           v' ++ r = v ++ ": missing 'matchers'" ->
                           (20 <= String.length r)%nat -> False).
  { intros r Hq E Hl.
    destruct (has_char_split _ _ Hq) as [Es Hb].
    rewrite Es in E.
    replace ((before_char "'" v' ++ String "'" (after_char "'" v')) ++ r)
      with (before_char "'" v' ++ String "'" (after_char "'" v' ++ r)) in E
      by (rewrite string_app_assoc; reflexivity).
    replace (v ++ ": missing 'matchers'")
      with ((v ++ ": missing ") ++ String "'" "matchers'") in E
      by now rewrite string_app_assoc.
    apply (f_equal (after_char "'")) in E.
    rewrite !after_char_app in E
      by first [assumption | now apply has_char_app_false].
    apply (f_equal String.length) in E. rewrite string_app_length in E.
    cbn in E. lia. }
  assert (Plain : forall r, has_char "'" v' = false -> has_char "'" r = false ->
                            v' ++ r = v ++ ": missing 'matchers'" -> False).
  { intros r Hq Hr E. apply (f_equal (has_char "'")) in E.
    rewrite (has_char_app_false _ _ _ Hq Hr), has_char_app, Hv in E.
    discriminate. }
  remember (msg_missing_matchers (SStr v)) as e eqn:Ee.
  unfold msg_missing_matchers, msg_version in Ee. cbn [scalar_text] in Ee.
  destruct (has_char "'" v') eqn:Hq;
    destruct H as [| | | e' [x | x | | x] |];
    unfold msg_missing_released_at, msg_timestamp, msg_missing_matchers,
      msg_matcher_type, msg_country, msg_location_hash, msg_severity,
      msg_missing_default, msg_version in Ee;
    cbn [scalar_text] in Ee; apply string_app_inv_head in Ee.
  - exfalso. apply (Long _ eq_refl Ee). cbn. lia.
  - exfalso. apply (Long _ eq_refl Ee). cbn. lia.
  - exfalso. apply (Long _ eq_refl Ee). cbn. lia.
  - exfalso. apply (Long _ eq_refl Ee).
    rewrite !string_app_length. cbn. lia.
  - exfalso. apply (Long _ eq_refl Ee).
    rewrite !string_app_length. cbn. lia.
  - exfalso. apply (Long _ eq_refl Ee). cbn. lia.
  - exfalso. apply (Long _ eq_refl Ee).
    rewrite !string_app_length. cbn. lia.
  - exfalso. apply (Long _ eq_refl Ee). cbn. lia.
  - exfalso.
    destruct (Split ": missing " "released_at'" eq_refl Ee eq_refl) as [_ E].
    discriminate.
  - exfalso. refine (Plain _ eq_refl _ Ee). reflexivity.
  - destruct (Split ": missing " "matchers'" eq_refl Ee eq_refl) as [E _].
    now apply string_app_inv_tail in E.
  - exfalso.
    destruct (Split ": invalid matcher_type " (value_text x ++ "'") eq_refl Ee
                eq_refl) as [E _].
    apply (Word _ E). repeat eexists. discriminate.
  - exfalso.
    destruct (Split ": invalid country code " (value_text x ++ "'") eq_refl Ee
                eq_refl) as [E _].
    apply (Word _ E). repeat eexists. discriminate.
  - exfalso. refine (Plain _ eq_refl _ Ee). reflexivity.
  - exfalso.
    destruct (Split ": invalid severity " (value_text x ++ "'") eq_refl Ee
                eq_refl) as [E _].
    apply (Word _ E). repeat eexists. discriminate.
  - exfalso. refine (Plain _ eq_refl _ Ee). reflexivity.
Qed.

(** What the iteration of an entry with an empty matcher list appends
    under a string key. *)
Lemma entry_result_empty_matchers v d out :
  dict_lookup "matchers" d = Some (VList []) ->
  entry_result (SStr v, VDict d) = Ok out ->
  (dict_lookup "released_at" d = None
   \/ exists s, dict_lookup "released_at" d = Some (VStr s))
  /\ out = (match dict_lookup "released_at" d with
            | None => [msg_missing_released_at (SStr v)]
            | Some (VScalar (SStr s)) =>
                if fromisoformat (str_replace "Z"%char "+00:00" s) then []
                else [msg_timestamp (SStr v)]
            | Some _ => []
            end ++ [msg_missing_default (SStr v)])%list.
Proof.
  intros Hm. unfold entry_result, Res.bind. cbn [fst snd].
  rewrite released_at_result_dict.
  rewrite (entry_matchers_result_str v (VDict d) [])
    by (cbn; now rewrite Hm).
  cbn [matchers_result Res.bind fst snd app].
  destruct (dict_lookup "released_at" d) as [[[| b | z | s] | l | d'] |];
    try discriminate; intros H; injection H as <-; split;
    first [reflexivity | now left | right; now eexists].
Qed.

(** C9: in a run that returns, a version entry under the key [v] whose
    [matchers] key is present with an empty sequence receives, in the
    output of the validator, the error of its [released_at] check, if any,
    and then "Version v: missing default matcher", and nothing else: the
    iteration of the entry, started on what the key loop and the entries
    before it have appended, appends exactly these, and the entries after
    it append behind them.  The missing-default error is in the output, and
    no error of the output reads "Version v: missing 'matchers'" (for
    pairwise distinct keys and a [v] without quote, so that no other key
    gives a message that reads the same). *)
Theorem empty_matchers_only_missing_default :
  forall data items errs v d,
    validate_manifest data = Ok errs ->
    py_getitem data "versions" = Ok (VDict items) ->
    In (SStr v, VDict d) items ->
    dict_lookup "matchers" d = Some (VList []) ->
    let released_at_errors :=
      match dict_lookup "released_at" d with
      | None => ["Version " ++ v ++ ": missing 'released_at'"]
      | Some (VScalar (SStr s)) =>
          if fromisoformat (str_replace "Z"%char "+00:00" s) then []
          else ["Version " ++ v ++ ": invalid ISO 8601 timestamp"]
      | Some _ => []
      end in
    let received :=
      (released_at_errors
         ++ [("Version " ++ v ++ ": missing default matcher")%string])%list in
    (exists items1 items2 e1 before after,
        items = (items1 ++ (SStr v, VDict d) :: items2)%list
        /\ Acc.for_each (check_version_key (map fst items))
             (enumerate (map fst items)) [] = Ok (tt, e1)
        /\ Acc.for_each check_version_entry items1 e1 = Ok (tt, before)
        /\ check_version_entry (SStr v, VDict d) before
           = Ok (tt, (before ++ received)%list)
        /\ Acc.for_each check_version_entry items2 (before ++ received)%list
           = Ok (tt, errs)
        /\ errs = (before ++ received ++ after)%list)
    /\ (dict_lookup "released_at" d = None
        \/ exists s, dict_lookup "released_at" d = Some (VStr s))
    /\ In ("Version " ++ v ++ ": missing default matcher") errs
    /\ (NoDup (map fst items) -> has_char "'" v = false ->
        ~ In ("Version " ++ v ++ ": missing 'matchers'") errs).
Proof.
  intros data items errs v d H Hv Hin Hm released_at_errors received.
  pose proof (validate_loops_entry _ _ _ _ H Hv Hin) as HL.
  apply loops_result_ok in HL as (e1 & e2 & H1 & H2 & ->).
  destruct (in_split _ _ Hin) as (items1 & items2 & Ei).
  pose proof H2 as H2'. rewrite Ei, collect_app in H2'.
  unfold Res.bind in H2'.
  destruct (collect entry_result items1) as [o1 | ?] eqn:E1; [| discriminate].
  cbn [collect] in H2'. unfold Res.bind in H2'.
  destruct (entry_result (SStr v, VDict d)) as [oa | ?] eqn:Ea; [| discriminate].
  destruct (collect entry_result items2) as [o2 | ?] eqn:E2; [| discriminate].
  injection H2' as <-.
  destruct (entry_result_empty_matchers _ _ _ Hm Ea) as [Hr Eo].
  change (oa = received) in Eo. subst oa.
  assert (Hmd : In ("Version " ++ v ++ ": missing default matcher")
                  (e1 ++ o1 ++ received ++ o2)%list).
  { apply in_or_app. right. apply in_or_app. right. apply in_or_app. left.
    apply in_or_app. right. now left. }
  split; [| split; [exact Hr | split; [exact Hmd |]]].
  - exists items1, items2, e1, (e1 ++ o1)%list, o2. repeat split.
    + exact Ei.
    + rewrite (for_each_collect _ (key_result (map fst items)))
        by apply check_version_key_eq.
      now rewrite H1.
    + rewrite (for_each_collect _ entry_result) by apply check_version_entry_eq.
      now rewrite E1.
    + rewrite check_version_entry_eq, Ea. reflexivity.
    + rewrite (for_each_collect _ entry_result) by apply check_version_entry_eq.
      rewrite E2. cbn. now rewrite <- !app_assoc.
    + now rewrite <- !app_assoc.
  - intros Hnd Hq He.
    change ("Version " ++ v ++ ": missing 'matchers'")
      with (msg_missing_matchers (SStr v)) in He.
    apply in_app_or in He as [He | He].
    + apply collect_key_msgs in H1. rewrite Forall_forall in H1.
      apply H1, key_msg_head in He. discriminate.
    + destruct (collect_entry_msgs _ _ _ H2 He)
        as (v' & d' & o & Hin' & Ho & Heo & Hmsg).
      destruct (collect_keys_str _ _ v' H1) as (k & ->);
        [apply (in_map fst) in Hin'; exact Hin' |].
      apply (missing_matchers_key _ _ Hq) in Hmsg. subst k.
      pose proof (NoDup_fst_unique _ _ _ _ Hnd Hin' Hin) as ->.
      rewrite Ea in Ho. injection Ho as <-.
      apply in_app_or in Heo as [Heo | Heo].
      * unfold released_at_errors in Heo.
        destruct Hr as [Hr | (s & Hr)]; rewrite Hr in Heo.
        -- destruct Heo as [Heo | []].
           apply (msg_version_inv_rest (SStr v)) in Heo. discriminate.
        -- destruct (fromisoformat _); [destruct Heo |].
           destruct Heo as [Heo | []].
           apply (msg_version_inv_rest (SStr v)) in Heo. discriminate.
      * destruct Heo as [Heo | []].
        apply (msg_version_inv_rest (SStr v)) in Heo. discriminate.
Qed.


End Validator.

(** * The validator on concrete inputs *)

(** ** The printing of containers is never used *)

Lemma value_text_repr_irrelevant rp1 rp2 v :
  (forall x l, v <> VList (x :: l)) -> (forall x d, v <> VDict (x :: d)) ->
  value_text rp1 v = value_text rp2 v.
Proof.
  intros Hl Hd. destruct v as [s | [| x l] | [| x d]]; try reflexivity.
  - now destruct (Hl x l).
  - now destruct (Hd x d).
Qed.

Lemma matcher_result_repr_irrelevant rp1 rp2 version has_default d :
  matcher_result rp1 version has_default d = matcher_result rp2 version has_default d.
Proof.
  unfold matcher_result, Res.bind, msg_matcher_type, msg_country, msg_severity.
  set (mt := field "matcher_type" d).
  set (mv := field "matcher_value" d).
  set (sev := field "severity" d).
  assert (Hmt : forall b, py_in_set mt MATCHER_TYPES = Ok b ->
                          value_text rp1 mt = value_text rp2 mt).
  { intros b H. destruct mt as [s | l | dd]; try discriminate. reflexivity. }
  assert (Hsev : forall b, py_in_set sev SEVERITY_VALUES = Ok b ->
                           value_text rp1 sev = value_text rp2 sev).
  { intros b H. destruct sev as [s | l | dd]; try discriminate. reflexivity. }
  assert (Hmv : forall b, falsy_or_not_in mv VALID_COUNTRIES = Ok b ->
                          value_text rp1 mv = value_text rp2 mv).
  { intros b H. apply value_text_repr_irrelevant; intros x l ->; discriminate. }
  destruct (py_in_set mt MATCHER_TYPES) as [[|] | e] eqn:Ek;
    cbv beta iota delta [negb]; [| now rewrite (Hmt false) | reflexivity].
  assert (Hc : forall bc,
             (if value_is_str "country" mt
              then falsy_or_not_in mv VALID_COUNTRIES else Ok false) = Ok bc ->
             bc = false \/ value_text rp1 mv = value_text rp2 mv).
  { intros bc. destruct (value_is_str "country" mt).
    - intros H. right. now apply (Hmv bc).
    - intros H. injection H as <-. now left. }
  destruct (if value_is_str "country" mt then _ else _) as [bc | e];
    [| reflexivity].
  assert (E : appended bc (printable_scalar version && printable mv)
                (msg_version version
                   (": invalid country code '" ++ value_text rp1 mv ++ "'"))
              = appended bc (printable_scalar version && printable mv)
                  (msg_version version
                     (": invalid country code '" ++ value_text rp2 mv ++ "'"))).
  { destruct (Hc bc eq_refl) as [-> | ->]; reflexivity. }
  rewrite E. clear E.
  destruct (appended bc _ _) as [oc | e]; [| reflexivity].
  destruct (if value_is_str "location_hash" mt then _ else _) as [bh | e];
    [| reflexivity].
  destruct (appended bh _ _) as [oh | e]; [| reflexivity].
  destruct (py_in_set sev SEVERITY_VALUES) as [ok | e] eqn:Es; [| reflexivity].
  now rewrite (Hsev ok).
Qed.

Lemma matchers_result_repr_irrelevant rp1 rp2 version matcher_list has_default :
  matchers_result rp1 version matcher_list has_default
  = matchers_result rp2 version matcher_list has_default.
Proof.
  revert has_default.
  induction matcher_list as [| m l IH]; intros has_default; cbn; [reflexivity |].
  destruct m as [s | l' | d]; try reflexivity.
  rewrite (matcher_result_repr_irrelevant rp1 rp2). unfold Res.bind.
  destruct (matcher_result rp2 version has_default d) as [[h o] | e]; [| reflexivity].
  cbn [fst snd]. now rewrite IH.
Qed.

Lemma collect_ext {A} (f g : A -> result (list string)) l :
  (forall a, f a = g a) -> collect f l = collect g l.
Proof.
  intros H. induction l as [| a l IH]; cbn; [reflexivity |]. now rewrite H, IH.
Qed.

(** Whatever [str] prints for a non-empty list or dict, the result of the
    validator is the same: the validator raises before it would print one. *)
Theorem validate_manifest_repr_irrelevant unicode_decimal fromisoformat rp1 rp2 data :
  validate_manifest unicode_decimal fromisoformat rp1 data
  = validate_manifest unicode_decimal fromisoformat rp2 data.
Proof.
  rewrite !validate_manifest_eq. unfold Res.bind.
  destruct (lacks_versions data) as [[|] | e]; try reflexivity.
  destruct (py_getitem data "versions") as [versions | e]; [| reflexivity].
  destruct (negb (truthy versions)); [reflexivity |].
  destruct versions as [s | l | items]; try reflexivity.
  unfold loops_result, Res.bind.
  destruct (collect (key_result _ _) _) as [e1 | e]; [| reflexivity].
  rewrite (collect_ext (entry_result fromisoformat rp1)
             (entry_result fromisoformat rp2)); [reflexivity |].
  intros [version details]. unfold entry_result, Res.bind. cbn [fst snd].
  destruct (released_at_result fromisoformat version details) as [o1 | e];
    [| reflexivity].
  replace (entry_matchers_result rp1 version details)
    with (entry_matchers_result rp2 version details); [reflexivity |].
  unfold entry_matchers_result, Res.bind.
  destruct (py_contains "matchers" details) as [[|] | e]; try reflexivity.
  cbv beta iota delta [negb].
  destruct (py_getitem details "matchers") as [matchers | e]; [| reflexivity].
  destruct (py_iter matchers) as [matcher_list | e]; [| reflexivity].
  now rewrite (matchers_result_repr_irrelevant rp1 rp2).
Qed.

(** ** The digits of other scripts *)

(** With the digits of Unicode 14.0, the key written with the
    Arabic-Indic digits one, two and three is a semantic version for the
    validator, as it is for [re.match]. *)
Lemma semver_arabic_indic_accepted :
  validate_semver unicode_decimal_model (SStr semver_arabic_indic) = Ok true.
Proof. vm_compute; reflexivity. Qed.

(** ** Instances of the theorems *)


Lemma validate_returns_on_shaped_manifest_witness :
  shaped_manifest manifest_bad_matchers = true
  /\ exists errs,
      validate_manifest unicode_decimal_model fromisoformat_model repr_model
        manifest_bad_matchers = Ok errs.
Proof.
  split; [vm_compute; reflexivity |].
  apply (validate_returns_on_shaped_manifest unicode_decimal_model
           fromisoformat_model repr_model manifest_bad_matchers).
  vm_compute; reflexivity.
Defined.

Lemma early_returns_witness :
  validate_manifest unicode_decimal_model fromisoformat_model repr_model (VDict [])
  = Ok ["Missing 'versions' key"]
  /\ validate_manifest unicode_decimal_model fromisoformat_model repr_model
       manifest_null_versions
     = Ok ["No versions defined"]
  /\ validate_manifest unicode_decimal_model fromisoformat_model repr_model
       manifest_str_versions
     = Raise AttributeError
  /\ (@nil string) <> ["Missing 'versions' key"].
Proof.
  destruct (early_returns unicode_decimal_model fromisoformat_model repr_model)
    as (E1 & E2 & E3 & E4).
  split; [| split; [| split]].
  - apply (E1 (VDict [])). left. reflexivity.
  - apply (E2 [(SStr "versions", VNone)] VNone); reflexivity.
  - apply (E3 [(SStr "versions", VStr "1.0.0")] (VStr "1.0.0"));
      [reflexivity | reflexivity | intros items; discriminate].
  - apply (E4 [(SStr "versions",
                VDict [(SStr "1.0.0", entry "2024-01-01T00:00:00Z" [default_green])])]
             [(SStr "1.0.0", entry "2024-01-01T00:00:00Z" [default_green])] []);
      [reflexivity | discriminate | vm_compute; reflexivity].
Defined.

Lemma ordering_error_for_adjacent_keys_witness :
  String.leb "1.0.0" "2.0.0" = true
  /\ In "Versions not in ascending order: 2.0.0 -> 1.0.0"
       ["Versions not in ascending order: 2.0.0 -> 1.0.0"].
Proof.
  split; [reflexivity |].
  apply (proj1 (ordering_error_for_adjacent_keys unicode_decimal_model
                  fromisoformat_model repr_model)
           manifest_bad_order
           [(SStr "2.0.0", entry "2024-01-01T00:00:00Z" [default_green]);
            (SStr "1.0.0", entry "2024-02-01T00:00:00Z" [default_green])]
           ["Versions not in ascending order: 2.0.0 -> 1.0.0"]
           0%nat "2.0.0" "1.0.0");
    vm_compute; reflexivity.
Defined.

Lemma ordering_check_independent_of_format_witness :
  validate_semver unicode_decimal_model (SStr "1.0") = Ok false
  /\ String.leb "1.0" "2.0.0" = true
  /\ In "Invalid semantic version format: 1.0"
       ["Invalid semantic version format: 1.0";
        "Versions not in ascending order: 2.0.0 -> 1.0"]
  /\ In "Versions not in ascending order: 2.0.0 -> 1.0"
       ["Invalid semantic version format: 1.0";
        "Versions not in ascending order: 2.0.0 -> 1.0"].
Proof.
  split; [vm_compute; reflexivity | split; [reflexivity |]].
  apply (proj2 (ordering_check_independent_of_format unicode_decimal_model
                  fromisoformat_model repr_model)
           manifest_bad_key
           [(SStr "2.0.0", entry "2024-01-01T00:00:00Z" [default_green]);
            (SStr "1.0", entry "2024-02-01T00:00:00Z" [default_green])]
           ["Invalid semantic version format: 1.0";
            "Versions not in ascending order: 2.0.0 -> 1.0"]
           0%nat "2.0.0" "1.0");
    vm_compute; reflexivity.
Defined.

Lemma missing_default_iff_no_default_matcher_witness :
  validate_manifest unicode_decimal_model fromisoformat_model repr_model
    manifest_no_default
  = Ok ["Version 1.0.0: missing default matcher"]
  /\ (In "Version 1.0.0: missing default matcher"
        ["Version 1.0.0: missing default matcher"]
      <-> forall d,
          In (VDict d)
            [matcher "country" [(SStr "matcher_value", VStr "US");
                                (SStr "severity", VStr "green")]] ->
          field "matcher_type" d <> VStr "default").
Proof.
  split; [vm_compute; reflexivity |].
  apply (proj1 (missing_default_iff_no_default_matcher unicode_decimal_model
                  fromisoformat_model repr_model)
           manifest_no_default
           [(SStr "1.0.0",
             entry "2024-01-01T00:00:00Z"
               [matcher "country" [(SStr "matcher_value", VStr "US");
                                   (SStr "severity", VStr "green")]])]
           ["Version 1.0.0: missing default matcher"]
           "1.0.0"
           (entry "2024-01-01T00:00:00Z"
              [matcher "country" [(SStr "matcher_value", VStr "US");
                                  (SStr "severity", VStr "green")]])).
  - vm_compute; reflexivity.
  - reflexivity.
  - constructor; [intros [] | constructor].
  - left. reflexivity.
  - reflexivity.
Defined.

Lemma invalid_matcher_type_skips_severity_witness :
  validate_manifest unicode_decimal_model fromisoformat_model repr_model
    manifest_bad_matchers
  = Ok ["Version 1.0.0: invalid matcher_type 'region'";
        "Version 1.0.0: invalid severity 'None'"]
  /\ In "Version 1.0.0: invalid matcher_type 'region'"
       ["Version 1.0.0: invalid matcher_type 'region'";
        "Version 1.0.0: invalid severity 'None'"].
Proof.
  split; [vm_compute; reflexivity |].
  apply (invalid_matcher_type_skips_severity unicode_decimal_model
           fromisoformat_model repr_model
           manifest_bad_matchers
           [(SStr "1.0.0",
             entry "2024-01-01T00:00:00Z" [matcher_unknown_type; matcher_no_severity])]
           ["Version 1.0.0: invalid matcher_type 'region'";
            "Version 1.0.0: invalid severity 'None'"]
           (SStr "1.0.0")
           (entry "2024-01-01T00:00:00Z" [matcher_unknown_type; matcher_no_severity])
           [matcher_unknown_type; matcher_no_severity]
           [(SStr "matcher_type", VStr "region"); (SStr "severity", VStr "purple")]).
  - vm_compute; reflexivity.
  - reflexivity.
  - left. reflexivity.
  - reflexivity.
  - left. reflexivity.
  - intros t [<- | [<- | [<- | []]]]; discriminate.
Defined.

Lemma empty_matchers_only_missing_default_witness :
  validate_manifest unicode_decimal_model fromisoformat_model repr_model
    manifest_empty_matchers
  = Ok ["Version 1.0.0: missing default matcher"]
  /\ In "Version 1.0.0: missing default matcher"
       ["Version 1.0.0: missing default matcher"]
  /\ ~ In "Version 1.0.0: missing 'matchers'"
         ["Version 1.0.0: missing default matcher"].
Proof.
  split; [vm_compute; reflexivity |].
  pose proof (empty_matchers_only_missing_default unicode_decimal_model
                fromisoformat_model repr_model
                manifest_empty_matchers
                [(SStr "1.0.0", entry "2024-01-01T00:00:00Z" [])]
                ["Version 1.0.0: missing default matcher"]
                "1.0.0"
                [(SStr "released_at", VStr "2024-01-01T00:00:00Z");
                 (SStr "matchers", VList [])]) as W.
  cbv zeta in W.
  destruct W as (_ & _ & Hin & Hno).
  - vm_compute; reflexivity.
  - reflexivity.
  - left. reflexivity.
  - reflexivity.
  - split; [exact Hin |].
    apply Hno; [constructor; [intros [] | constructor] | reflexivity].
Defined.

Lemma errors_follow_check_order_witness :
  exists key_outs entry_outs,
    List.length key_outs = 1%nat /\ List.length entry_outs = 1%nat
    /\ ["Version 1.0.0: invalid country code 'XX'";
        "Version 1.0.0: invalid country code 'XX'"]
       = (List.concat key_outs ++ List.concat entry_outs)%list.
Proof.
  destruct (proj1 (errors_follow_check_order unicode_decimal_model
                     fromisoformat_model repr_model)
              manifest_repeated_country
              [(SStr "1.0.0",
                entry "2024-01-01T00:00:00Z"
                  [default_green; matcher_country_XX; matcher_country_XX])]
              ["Version 1.0.0: invalid country code 'XX'";
               "Version 1.0.0: invalid country code 'XX'"])
    as (key_outs & entry_outs & H1 & H2 & E).
  - vm_compute; reflexivity.
  - reflexivity.
  - discriminate.
  - exists key_outs, entry_outs. repeat split; [| | exact E].
    + apply Forall2_length in H1. now rewrite <- H1.
    + apply Forall2_length in H2. now rewrite <- H2.
Defined.

(** ** Where the specification and the code part *)

(** C2 as stated: a version entry that is null makes the validator raise,
    and so does a severity that is an integer of 4301 digits. *)
Lemma null_entry_raises :
  validate_manifest unicode_decimal_model fromisoformat_model repr_model
    manifest_null_entry
  = Raise TypeError
  /\ validate_manifest unicode_decimal_model fromisoformat_model repr_model
       manifest_huge_severity
     = Raise ValueError.
Proof. split; vm_compute; reflexivity. Qed.

(** C3 as stated: a [versions] value that is null is not a mapping, and the
    result is not "Missing 'versions' key"; one that is a string raises. *)
Lemma non_mapping_versions_not_missing :
  validate_manifest unicode_decimal_model fromisoformat_model repr_model
    manifest_null_versions
  = Ok ["No versions defined"]
  /\ validate_manifest unicode_decimal_model fromisoformat_model repr_model
       manifest_null_versions
     <> Ok ["Missing 'versions' key"]
  /\ validate_manifest unicode_decimal_model fromisoformat_model repr_model
       manifest_str_versions
     = Raise AttributeError.
Proof.
  split; [vm_compute; reflexivity | split; [| vm_compute; reflexivity]].
  vm_compute. discriminate.
Qed.

(** C8 as stated: two matchers with the same unknown country code give the
    same error twice. *)
Lemma repeated_error_strings :
  validate_manifest unicode_decimal_model fromisoformat_model repr_model
    manifest_repeated_country
  = Ok ["Version 1.0.0: invalid country code 'XX'";
        "Version 1.0.0: invalid country code 'XX'"]
  /\ ~ NoDup ["Version 1.0.0: invalid country code 'XX'";
              "Version 1.0.0: invalid country code 'XX'"].
Proof.
  split; [vm_compute; reflexivity |].
  intros H. inversion H as [| ? ? Hin _]. apply Hin. left. reflexivity.
Qed.

(** * The rest of the script on concrete inputs *)

(** ** The parser only ever sees strings without [Z] *)

Lemma released_at_result_parser f1 f2 version details :
  (forall t, has_char "Z" t = false -> f1 t = f2 t) ->
  released_at_result f1 version details = released_at_result f2 version details.
Proof.
  intros H. unfold released_at_result, Res.bind.
  destruct (py_contains "released_at" details) as [[|] | e]; try reflexivity.
  cbv beta iota delta [negb].
  destruct (py_getitem details "released_at") as [[[| | | ts] | |] | e];
    try reflexivity.
  cbn [validate_iso8601]. rewrite (H (str_replace "Z"%char "+00:00" ts)); [reflexivity |].
  now apply str_replace_clean.
Qed.

(** X4: two parsers that agree on the strings without [Z] give the same
    validation of every manifest: whether the parser itself understands [Z]
    makes no difference. *)
Theorem validate_manifest_parser_without_Z unicode_decimal f1 f2 repr_container data :
  (forall t, has_char "Z" t = false -> f1 t = f2 t) ->
  validate_manifest unicode_decimal f1 repr_container data
  = validate_manifest unicode_decimal f2 repr_container data.
Proof.
  intros H. rewrite !validate_manifest_eq. unfold Res.bind.
  destruct (lacks_versions data) as [[|] | e]; try reflexivity.
  destruct (py_getitem data "versions") as [versions | e]; [| reflexivity].
  destruct (negb (truthy versions)); [reflexivity |].
  destruct versions as [s | l | items]; try reflexivity.
  unfold loops_result, Res.bind.
  destruct (collect (key_result _ _) _) as [e1 | e]; [| reflexivity].
  rewrite (collect_ext (entry_result f1 repr_container)
             (entry_result f2 repr_container)); [reflexivity |].
  intros [version details]. unfold entry_result. cbn [fst snd].
  now rewrite (released_at_result_parser f1 f2 version details H).
Qed.

Lemma subst_trailing_Z_absent s :
  has_char "Z" s = false -> subst_trailing_Z s = s.
Proof.
  induction s as [| c s IH]; [reflexivity |]. cbn [has_char]. intros H.
  apply orb_false_elim in H as [Hc Hs]. destruct s as [| c' s'].
  - cbn. now rewrite Hc.
  - cbn [subst_trailing_Z]. cbn [subst_trailing_Z] in IH. now rewrite IH.
Qed.

Lemma validate_manifest_parser_without_Z_witness :
  validate_manifest unicode_decimal_model fromisoformat_model repr_model
    manifest_minimal
  = validate_manifest unicode_decimal_model fromisoformat_with_Z repr_model
      manifest_minimal.
Proof.
  apply (validate_manifest_parser_without_Z unicode_decimal_model
           fromisoformat_model fromisoformat_with_Z repr_model manifest_minimal).
  intros t Ht. unfold fromisoformat_with_Z.
  rewrite (subst_trailing_Z_absent t Ht). now destruct (fromisoformat_model t).
Defined.

(** X16: the result of the validator does not depend on how a non-empty list or
    dict is printed: no message ever contains one. *)
Theorem messages_never_print_containers unicode_decimal fromisoformat rp1 rp2 data :
  validate_manifest unicode_decimal fromisoformat rp1 data
  = validate_manifest unicode_decimal fromisoformat rp2 data.
Proof.
  exact (validate_manifest_repr_irrelevant unicode_decimal fromisoformat rp1 rp2 data).
Qed.

(** ** Instances *)

Lemma country_error_iff_witness :
  In "Version 1.0.0: invalid country code 'XX'"
    ["Version 1.0.0: invalid country code 'XX'"]
  <-> ~ (exists c, VStr "XX" = VStr c /\ In c VALID_COUNTRIES).
Proof.
  apply (country_error_iff repr_model (SStr "1.0.0") false fields_country_XX false
           ["Version 1.0.0: invalid country code 'XX'"]);
    vm_compute; reflexivity.
Defined.

Lemma location_hash_error_iff_witness :
  In "Version 1.0.0: invalid location hash format"
    ["Version 1.0.0: invalid location hash format"]
  <-> ~ (exists s, VStr "abc" = VStr s
                   /\ (is_hex64 s
                       \/ exists h, is_hex64 h /\ s = h ++ String newline "")).
Proof.
  apply (location_hash_error_iff repr_model (SStr "1.0.0") false fields_bad_hash false
           ["Version 1.0.0: invalid location hash format"]).
  - reflexivity.
  - right. exists "abc". reflexivity.
  - vm_compute; reflexivity.
Defined.


Lemma semver_error_iff_witness :
  In "Invalid semantic version format: 1.0"
    ["Invalid semantic version format: 1.0";
     "Versions not in ascending order: 2.0.0 -> 1.0"]
  <-> In (SStr "1.0") [SStr "2.0.0"; SStr "1.0"]
      /\ validate_semver unicode_decimal_model (SStr "1.0") = Ok false.
Proof.
  apply (semver_error_iff unicode_decimal_model fromisoformat_model repr_model
           manifest_bad_key
           [(SStr "2.0.0", entry "2024-01-01T00:00:00Z" [default_green]);
            (SStr "1.0", entry "2024-02-01T00:00:00Z" [default_green])]
           ["Invalid semantic version format: 1.0";
            "Versions not in ascending order: 2.0.0 -> 1.0"] "1.0");
    vm_compute; reflexivity.
Defined.

Lemma no_ordering_error_iff_ascending_witness :
  (forall a b,
      ~ In (msg_order a b) ["Versions not in ascending order: 2.0.0 -> 1.0.0"])
  <-> ascending [SStr "2.0.0"; SStr "1.0.0"] = true.
Proof.
  apply (no_ordering_error_iff_ascending unicode_decimal_model fromisoformat_model
           repr_model manifest_bad_order
           [(SStr "2.0.0", entry "2024-01-01T00:00:00Z" [default_green]);
            (SStr "1.0.0", entry "2024-02-01T00:00:00Z" [default_green])]
           ["Versions not in ascending order: 2.0.0 -> 1.0.0"]);
    vm_compute; reflexivity.
Defined.

Lemma non_string_key_raises_witness :
  validate_manifest unicode_decimal_model fromisoformat_model repr_model
    manifest_int_key = Raise TypeError.
Proof.
  apply (non_string_key_raises unicode_decimal_model fromisoformat_model repr_model
           manifest_int_key
           [(SInt 1, entry "2024-01-01T00:00:00Z" [default_green])] (SInt 1)).
  - reflexivity.
  - left. reflexivity.
  - reflexivity.
Defined.

Lemma no_errors_means_valid_witness :
  validate_manifest unicode_decimal_model fromisoformat_model repr_model
    manifest_minimal = Ok []
  /\ valid_manifest unicode_decimal_model fromisoformat_model
       (str_replace "Z"%char "+00:00") manifest_minimal = true.
Proof.
  split; [vm_compute; reflexivity |].
  apply (no_errors_means_valid unicode_decimal_model fromisoformat_model repr_model
           manifest_minimal).
  vm_compute; reflexivity.
Defined.

Lemma timestamp_error_iff_witness :
  In "Version 1.0.0: invalid ISO 8601 timestamp"
    ["Version 1.0.0: invalid ISO 8601 timestamp"]
  <-> exists ts,
      py_getitem (entry "2024-01-01Z00:00:00" [default_green]) "released_at"
      = Ok (VStr ts)
      /\ fromisoformat_model (str_replace "Z"%char "+00:00" ts) = false.
Proof.
  apply (timestamp_error_iff unicode_decimal_model fromisoformat_model repr_model
           manifest_inner_Z
           [(SStr "1.0.0", entry "2024-01-01Z00:00:00" [default_green])]
           ["Version 1.0.0: invalid ISO 8601 timestamp"] "1.0.0"
           (entry "2024-01-01Z00:00:00" [default_green])).
  - vm_compute; reflexivity.
  - reflexivity.
  - constructor; [intros [] | constructor].
  - left. reflexivity.
Defined.

Lemma missing_field_errors_witness :
  In "Version 1.0.0: missing 'released_at'"
    ["Version 1.0.0: missing 'released_at'"; "Version 1.0.0: missing 'matchers'"]
  /\ In "Version 1.0.0: missing 'matchers'"
       ["Version 1.0.0: missing 'released_at'"; "Version 1.0.0: missing 'matchers'"]
  /\ ~ In "Version 1.0.0: missing default matcher"
         ["Version 1.0.0: missing 'released_at'"; "Version 1.0.0: missing 'matchers'"].
Proof.
  destruct (missing_field_errors unicode_decimal_model fromisoformat_model repr_model
              manifest_empty_entry
              [(SStr "1.0.0", VDict [])]
              ["Version 1.0.0: missing 'released_at'";
               "Version 1.0.0: missing 'matchers'"] "1.0.0" [])
    as [H1 H2].
  - vm_compute; reflexivity.
  - reflexivity.
  - constructor; [intros [] | constructor].
  - left. reflexivity.
  - split; [apply H1; reflexivity | apply H2; reflexivity].
Defined.

Lemma entry_without_fields_witness :
  check_version_entry fromisoformat_model repr_model (SStr "1.0.0", VStr "pending") []
  = Ok (tt, ["Version 1.0.0: missing 'released_at'";
             "Version 1.0.0: missing 'matchers'"])
  /\ check_version_entry fromisoformat_model repr_model
       (SStr "1.0.0", VStr "released_at: today") []
     = Raise TypeError.
Proof.
  split.
  - apply (proj1 (entry_without_fields fromisoformat_model repr_model
                    (SStr "1.0.0") (VStr "pending") [])); reflexivity.
  - apply (proj2 (entry_without_fields fromisoformat_model repr_model
                    (SStr "1.0.0") (VStr "released_at: today") []));
      [intros d; discriminate | reflexivity].
Defined.

Lemma loops_only_append_witness :
  exists out,
    ["Version 0.9.0: missing 'matchers'"; "Version 1.0.0: missing default matcher"]
    = (["Version 0.9.0: missing 'matchers'"] ++ out)%list.
Proof.
  apply (proj1 (proj2 (loops_only_append unicode_decimal_model fromisoformat_model
                         repr_model))
           [(SStr "1.0.0", entry "2024-01-01T00:00:00Z" [])]
           ["Version 0.9.0: missing 'matchers'"]
           ["Version 0.9.0: missing 'matchers'";
            "Version 1.0.0: missing default matcher"]).
  vm_compute; reflexivity.
Defined.

Lemma main_report_witness :
  main unicode_decimal_model fromisoformat_model repr_model (Some files_example)
  = Ok (["Validation failed:" ++ String newline "";
         "b.yml:";
         "  - YAML syntax error: mapping values are not allowed here";
         "c.yml:";
         "  - Version 1.0.0: missing default matcher"], 1%Z).
Proof.
  apply (main_report unicode_decimal_model fromisoformat_model repr_model
           files_example
           [[]; ["YAML syntax error: mapping values are not allowed here"];
            ["Version 1.0.0: missing default matcher"]]).
  - repeat constructor; cbn; intuition discriminate.
  - repeat constructor.
Defined.

Lemma main_reports_every_failing_file_witness :
  1%Z = 1%Z
  /\ In "b.yml:" (report [("b.yml", ["YAML syntax error: mapping values are not allowed here"]);
                          ("c.yml", ["Version 1.0.0: missing default matcher"])])
  /\ forall error,
      In error ["YAML syntax error: mapping values are not allowed here"] ->
      In ("  - " ++ error)
        (report [("b.yml", ["YAML syntax error: mapping values are not allowed here"]);
                 ("c.yml", ["Version 1.0.0: missing default matcher"])]).
Proof.
  apply (main_reports_every_failing_file unicode_decimal_model fromisoformat_model
           repr_model files_example
           "b.yml" (YAMLError "mapping values are not allowed here")
           "YAML syntax error: mapping values are not allowed here" []).
  - repeat constructor; cbn; intuition discriminate.
  - right. left. reflexivity.
  - reflexivity.
  - vm_compute; reflexivity.
Defined.

Lemma main_exit_zero_iff_witness :
  main unicode_decimal_model fromisoformat_model repr_model
    (Some [("a.yml", Parsed manifest_minimal)])
  = Ok (["All manifest files are valid"], 0%Z).
Proof.
  apply (proj2 (main_exit_zero_iff unicode_decimal_model fromisoformat_model
                  repr_model
                  (Some [("a.yml", Parsed manifest_minimal)])
                  ["All manifest files are valid"])).
  split; [reflexivity |].
  exists [("a.yml", Parsed manifest_minimal)]. split; [reflexivity |].
  intros name f [E | []]. injection E as <- <-. vm_compute; reflexivity.
Defined.

Lemma main_raises_iff_witness :
  exists e,
    main unicode_decimal_model fromisoformat_model repr_model
      (Some [("a.yml", Parsed manifest_minimal); ("b.yml", Parsed manifest_null_entry)])
    = Raise e.
Proof.
  apply (proj2 (proj1 (main_raises_iff unicode_decimal_model fromisoformat_model
                         repr_model
                         [("a.yml", Parsed manifest_minimal);
                          ("b.yml", Parsed manifest_null_entry)]))).
  exists "b.yml", manifest_null_entry, TypeError.
  split; [right; left; reflexivity | vm_compute; reflexivity].
Defined.
